(** * whoosh query core: a shallow embedding of [whoosh/query.py] and of
    [MultiReader.term_info] from [whoosh/reading.py].

    Python objects become values of inductive types, methods become
    functions on them, and a raised exception becomes the [Raise] branch
    of the [result] type.  Boosts and similarity thresholds are IEEE
    doubles ([float]); field names and texts are strings; Python [int]s
    are [Z]. *)

From Corelib Require Import PrimFloat.
From Stdlib Require Import ZArith String Ascii List Lia.
From stdpp Require Import base gmap strings list.

Local Open Scope string_scope.
Local Open Scope Z_scope.
Local Open Scope list_scope.

(** ** Exceptions and the result monad *)

(** The exception classes that the modelled code raises or catches. *)
Inductive exn : Type :=
| TypeError
| AttributeError
| NotImplementedError
| TermNotFound
| QueryError
| ValueError.

#[global] Instance exn_eq_dec : EqDecision exn.
Proof. solve_decision. Defined.

Inductive result (A : Type) : Type :=
| Ok (a : A)
| Raise (e : exn).

Arguments Ok {A} a.
Arguments Raise {A} e.

Definition bind {A B : Type} (m : result A) (k : A -> result B) : result B :=
  match m with
  | Ok a => k a
  | Raise e => Raise e
  end.

Declare Scope result_scope.
Delimit Scope result_scope with result.
Notation "'let*' x ':=' m 'in' k" := (bind m (fun x => k))
  (at level 10, x name, m at level 100, k at level 200) : result_scope.
Local Open Scope result_scope.

(** [try: m except e: h] *)
Definition try_except {A : Type} (m : result A) (e : exn) (h : result A) : result A :=
  match m with
  | Ok a => Ok a
  | Raise e' => if decide (e' = e) then h else Raise e'
  end.

(** ** The query tree ([whoosh/query.py]) *)

Set Warnings "-register-all".

(** One constructor per concrete query class, carrying the attributes
    its [__init__] stores.  [Every] defines no [__init__] and so has no
    attribute; [NullQuery] is the singleton instance.  The attributes
    that a constructor derives from the others ([Wildcard.prefix],
    [Wildcard.expression], [Variations.words]) are functions below. *)
Inductive Query : Type :=
| Term (fieldname text : string) (boost : float)
| And (subqueries : list Query) (boost : float)
| Or (subqueries : list Query) (boost : float) (minmatch : Z)
| DisjunctionMax (subqueries : list Query) (boost : float) (tiebreak : float)
| Not (query : Query) (boost : float)
| Prefix (fieldname text : string) (boost : float)
| Wildcard (fieldname text : string) (boost : float)
| FuzzyTerm (fieldname text : string) (boost minsimilarity : float)
            (prefixlength : Z)
| TermRange (fieldname start end_ : string) (startexcl endexcl : bool)
            (boost : float)
| Variations (fieldname text : string) (boost : float)
| Phrase (fieldname : string) (words : list string) (slop : Z) (boost : float)
| Every
| NullQuery
| Require (scoredquery requiredquery : Query) (boost : float)
| AndMaybe (requiredquery optionalquery : Query) (boost : float)
| AndNot (positive negative : Query) (boost : float).

(** The default values of the keyword arguments. *)
Definition default_boost : float := 1.0%float.
Definition default_minmatch : Z := 0.
Definition default_tiebreak : float := 0.0%float.
Definition default_slop : Z := 1.

(** [q is NullQuery] *)
Definition is_NullQuery (q : Query) : bool :=
  match q with NullQuery => true | _ => false end.

(** [isinstance(q, Term)], giving the key [(q.fieldname, q.text)]. *)
Definition as_Term (q : Query) : option (string * string) :=
  match q with Term f t _ => Some (f, t) | _ => None end.

(** [isinstance(q, Not)], giving [q.query]. *)
Definition as_Not (q : Query) : option Query :=
  match q with Not q' _ => Some q' | _ => None end.

(** The three n-ary subclasses of [CompoundQuery] that inherit its
    [normalize] and [simplify]; [self.__class__] in those methods. *)
Inductive CompoundClass : Type := ClsAnd | ClsOr | ClsDisjunctionMax.

(** [isinstance(s, self.__class__)], giving [s.subqueries].  None of the
    three classes has a subclass. *)
Definition isinstance_compound (cls : CompoundClass) (s : Query)
  : option (list Query) :=
  match cls, s with
  | ClsAnd, And qs _ => Some qs
  | ClsOr, Or qs _ _ => Some qs
  | ClsDisjunctionMax, DisjunctionMax qs _ _ => Some qs
  | _, _ => None
  end.

(** [self.__class__(subqs, boost=boost)]: the other keyword argument of
    [Or] and [DisjunctionMax] takes its default. *)
Definition make_compound (cls : CompoundClass) (subqs : list Query)
  (boost : float) : Query :=
  match cls with
  | ClsAnd => And subqs boost
  | ClsOr => Or subqs boost default_minmatch
  | ClsDisjunctionMax => DisjunctionMax subqs boost default_tiebreak
  end.

(** ** String operations used by [Wildcard] *)

Definition star : ascii := "*"%char.
Definition qmark : ascii := "?"%char.
Definition backslash : ascii := ascii_of_nat 92.

(** [c in text] *)
Fixpoint str_contains (c : ascii) (text : string) : bool :=
  match text with
  | EmptyString => false
  | String a rest => if Ascii.eqb a c then true else str_contains c rest
  end.

(** [text.find(c)]: the first index of [c], or [-1]. *)
Definition str_find (c : ascii) (text : string) : Z :=
  match String.index 0 (String c EmptyString) text with
  | Some i => Z.of_nat i
  | None => -1
  end.

Definition str_len (text : string) : Z := Z.of_nat (String.length text).

(** [text.endswith(c)] *)
Definition str_endswith (c : ascii) (text : string) : bool :=
  match String.get (String.length text - 1) text with
  | Some a => Ascii.eqb a c
  | None => false
  end.

(** [text[-2]], read only where [len(text) >= 2]. *)
Definition str_get_neg2 (text : string) : option ascii :=
  if (2 <=? String.length text)%nat
  then String.get (String.length text - 2) text
  else None.

(** [text[:-1]] *)
Definition str_drop_last (text : string) : string :=
  String.substring 0 (String.length text - 1) text.

(** [text[:n]] for [n >= 0]. *)
Definition str_take (n : nat) (text : string) : string :=
  String.substring 0 (Nat.min n (String.length text)) text.

(** ** Normalization *)

(** [Every(boost=b)].  The class [Every] inherits [object.__init__]
    (neither it nor [Query] defines [__init__] or [__new__]), so a call
    with a keyword argument raises [TypeError]. *)
Definition Every_with_boost (b : float) : result Query := Raise TypeError.

(** [Wildcard.normalize] *)
Definition Wildcard_normalize (fieldname text : string) (boost : float)
  : result Query :=
  if String.eqb text "*" then Every_with_boost boost
  else if negb (str_contains star text) && negb (str_contains qmark text)
  then Ok (Term fieldname text boost)
  else if negb (str_contains qmark text)
          && str_endswith star text
          && (str_find star text =? str_len text - 1)
          && ((str_len text <? 2)
              || negb (match str_get_neg2 text with
                       | Some a => Ascii.eqb a backslash
                       | None => false
                       end))
  then Ok (Prefix fieldname (str_drop_last text) boost)
  else Ok (Wildcard fieldname text boost).

(** [TermRange.normalize] *)
Definition TermRange_normalize (fieldname start end_ : string)
  (startexcl endexcl : bool) (boost : float) : Query :=
  if String.eqb start end_ then Term fieldname start boost
  else TermRange fieldname start end_ startexcl endexcl boost.

(** [Phrase.normalize].  The words are unicode strings, so the
    comprehension [[w for w in self.words if w is not None]] keeps them
    all.  The one-word case builds the [Term] with the default boost. *)
Definition Phrase_normalize (fieldname : string) (words : list string)
  (slop : Z) (boost : float) : Query :=
  match words with
  | [] => NullQuery
  | [w] => Term fieldname w default_boost
  | _ => Phrase fieldname words slop boost
  end.

(** One turn of the [for s in subqueries] loop of
    [CompoundQuery.normalize], after [s = s.normalize()]: the new
    [(subqs, seenterms)]. *)
Definition normalize_step (cls : CompoundClass) (s : Query)
  (subqs : list Query) (seenterms : gset (string * string))
  : list Query * gset (string * string) :=
  if is_NullQuery s then (subqs, seenterms)
  else
    let seen :=
      match as_Term s with
      | Some term =>
          if bool_decide (term ∈ seenterms) then None
          else Some ({[ term ]} ∪ seenterms)
      | None => Some seenterms
      end in
    match seen with
    | None => (subqs, seenterms)
    | Some seenterms' =>
        match isinstance_compound cls s with
        | Some children => (subqs ++ children, seenterms')
        | None => (subqs ++ [s], seenterms')
        end
    end.

(** The end of [CompoundQuery.normalize]. *)
Definition normalize_finish (cls : CompoundClass) (subqs : list Query)
  (boost : float) : Query :=
  match subqs with
  | [] => NullQuery
  | [q] => q
  | _ => make_compound cls subqs boost
  end.

(** [Or.normalize] and [DisjunctionMax.normalize] after the call of
    [CompoundQuery.normalize]: [norm.minmatch = self.minmatch] (or
    [tiebreak]) when [norm.__class__ is self.__class__]. *)
Definition Or_set_minmatch (norm : Query) (minmatch : Z) : Query :=
  match norm with
  | Or qs b _ => Or qs b minmatch
  | _ => norm
  end.

Definition DisjunctionMax_set_tiebreak (norm : Query) (tiebreak : float)
  : Query :=
  match norm with
  | DisjunctionMax qs b _ => DisjunctionMax qs b tiebreak
  | _ => norm
  end.

(** [q.normalize()], by dispatch on the class of [q].  The inner [loop]
    is the body of [CompoundQuery.normalize]: it skips the children that
    are [NullQuery] (the initial comprehension) and runs the [for] loop
    on the others; an empty comprehension and an empty [subqs] both give
    [NullQuery]. *)
Fixpoint normalize (q : Query) : result Query :=
  let CompoundQuery_normalize cls :=
    fix loop (subqueries subqs : list Query)
        (seenterms : gset (string * string)) : result (list Query) :=
      match subqueries with
      | [] => Ok subqs
      | s :: rest =>
          if is_NullQuery s then loop rest subqs seenterms
          else
            let* s' := normalize s in
            let '(subqs', seenterms') :=
              normalize_step cls s' subqs seenterms in
            loop rest subqs' seenterms'
      end in
  match q with
  | Term _ _ _ | Prefix _ _ _ | FuzzyTerm _ _ _ _ _ | Variations _ _ _
  | Every => Ok q
  | NullQuery => Ok NullQuery
  | And subqueries boost =>
      let* subqs := CompoundQuery_normalize ClsAnd subqueries [] ∅ in
      Ok (normalize_finish ClsAnd subqs boost)
  | Or subqueries boost minmatch =>
      let* subqs := CompoundQuery_normalize ClsOr subqueries [] ∅ in
      Ok (Or_set_minmatch (normalize_finish ClsOr subqs boost) minmatch)
  | DisjunctionMax subqueries boost tiebreak =>
      let* subqs := CompoundQuery_normalize ClsDisjunctionMax subqueries [] ∅ in
      Ok (DisjunctionMax_set_tiebreak
            (normalize_finish ClsDisjunctionMax subqs boost) tiebreak)
  | Not query boost =>
      let* query' := normalize query in
      if is_NullQuery query' then Ok NullQuery else Ok (Not query' boost)
  | Wildcard fieldname text boost => Wildcard_normalize fieldname text boost
  | TermRange fieldname start end_ startexcl endexcl boost =>
      Ok (TermRange_normalize fieldname start end_ startexcl endexcl boost)
  | Phrase fieldname words slop boost =>
      Ok (Phrase_normalize fieldname words slop boost)
  | Require scoredquery requiredquery boost =>
      let* scored := normalize scoredquery in
      let* required := normalize requiredquery in
      if is_NullQuery scored || is_NullQuery required then Ok NullQuery
      else Ok (Require scored required boost)
  | AndMaybe requiredquery optionalquery boost =>
      let* required := normalize requiredquery in
      let* optional := normalize optionalquery in
      if is_NullQuery required then Ok NullQuery
      else if is_NullQuery optional then Ok required
      else Ok (AndMaybe required optional boost)
  | AndNot positive negative boost =>
      let* pos := normalize positive in
      let* neg := normalize negative in
      if is_NullQuery pos then Ok NullQuery
      else if is_NullQuery neg then Ok pos
      else Ok (AndNot pos neg boost)
  end.

(** ** Equality of phrases *)

(** [Phrase.__eq__(self, other)] for a [Phrase] with the given
    attributes:
    [other and self.__class__ is other.__class__ and
     self.fieldname == other.fieldname and self.words == other.word and
     self.slop == other.slop and self.boost == other.boost].
    Every query object is truthy.  A [Phrase] has the attribute [words]
    and no attribute [word], so once the chain of [and] reaches
    [other.word] the comparison raises [AttributeError]. *)
Definition Phrase_eq (fieldname : string) (words : list string) (slop : Z)
  (boost : float) (other : Query) : result bool :=
  match other with
  | Phrase fieldname' _ _ _ =>
      if String.eqb fieldname fieldname' then Raise AttributeError
      else Ok false
  | _ => Ok false
  end.

(** [self == other] where [self] is a [Phrase]. *)
Definition Phrase_eq_query (self other : Query) : result bool :=
  match self with
  | Phrase fieldname words slop boost =>
      Phrase_eq fieldname words slop boost other
  | _ => Ok false
  end.

(** ** Collaborators that are not part of the query module *)

(** Functions that [query.py] imports from modules outside this
    development: the compiled [fnmatch] expression of a glob
    ([re.compile(fnmatch.translate(text)).match]), the similarity
    [whoosh.support.levenshtein.relative], and
    [whoosh.lang.morph_en.variations]. *)
Class Support : Type := {
  fnmatch_match : string -> string -> bool;
  relative : string -> string -> float;
  variations : string -> list string;
}.

(** The first component of a term key: [query.py] looks terms up both by
    field name and by field number. *)
Inductive FieldKey : Type :=
| ByName (fieldname : string)
| ByNum (fieldnum : Z).

(** The index reader as [query.py] calls it.  [iter_from] yields
    4-tuples [(fieldnum, text, _, _)], of which the code reads the first
    two components. *)
Record IndexReader : Type := {
  fieldname_to_num : string -> result Z;
  reader_contains : FieldKey -> string -> bool;
  expand_prefix : string -> string -> list string;
  lexicon : string -> list string;
  iter_from : Z -> string -> list (Z * string);
  doc_frequency : Z -> string -> Z;
  doc_count : Z;
  doc_count_all : Z;
  is_deleted : Z -> bool;
}.

(** ** Expansion of multi-term queries: [_words] *)

(** [text[:n]] with Python's reading of a negative [n]. *)
Definition py_slice_to (n : Z) (text : string) : string :=
  if 0 <=? n then str_take (Z.to_nat n) text
  else str_take (Z.to_nat (str_len text + n)) text.

(** [Wildcard.__init__]: the substring before the first wildcard. *)
Definition Wildcard_prefix (text : string) : string :=
  let qm := str_find qmark text in
  let st := str_find star text in
  if (qm <? 0) && (st <? 0) then ""
  else if qm <? 0 then py_slice_to st text
  else if st <? 0 then py_slice_to qm text
  else py_slice_to (Z.min st qm) text.

(** The loop of [TermRange._words] over the tuples of [iter_from]. *)
Fixpoint TermRange_words_loop (fieldnum : Z) (start end_ : string)
  (startexcl endexcl : bool) (items : list (Z * string)) : list string :=
  match items with
  | [] => []
  | (fnum, t) :: rest =>
      if negb (fnum =? fieldnum) then []
      else if String.eqb t start && startexcl
      then TermRange_words_loop fieldnum start end_ startexcl endexcl rest
      else if String.eqb t end_ && endexcl then []
      else if String.ltb end_ t then []
      else t :: TermRange_words_loop fieldnum start end_ startexcl endexcl rest
  end.

(** [q._words(ixreader)], consumed as a list.  [Phrase] inherits
    [MultiTerm._words], which raises [NotImplementedError]; the
    argument is a multi-term query, and the other classes have no
    [_words] at all. *)
Definition words `{Support} (ixreader : IndexReader) (q : Query)
  : result (list string) :=
  match q with
  | Prefix fieldname text _ => Ok (expand_prefix ixreader fieldname text)
  | Wildcard fieldname text _ =>
      let prefix := Wildcard_prefix text in
      let candidates :=
        if negb (String.eqb prefix "")
        then expand_prefix ixreader fieldname prefix
        else lexicon ixreader fieldname in
      Ok (List.filter (fnmatch_match text) candidates)
  | FuzzyTerm fieldname text _ minsimilarity prefixlength =>
      Ok (List.filter
            (fun term => String.eqb text term
                         || PrimFloat.ltb minsimilarity (relative text term))
            (expand_prefix ixreader fieldname (py_slice_to prefixlength text)))
  | TermRange fieldname start end_ startexcl endexcl _ =>
      let* fieldnum := fieldname_to_num ixreader fieldname in
      Ok (TermRange_words_loop fieldnum start end_ startexcl endexcl
            (iter_from ixreader fieldnum start))
  | Variations fieldname text _ =>
      Ok (List.filter (fun word => reader_contains ixreader (ByName fieldname) word)
            (variations text))
  | Phrase _ _ _ _ => Raise NotImplementedError
  | _ => Raise AttributeError
  end.

(** ** Simplification *)

(** [MultiTerm.simplify]:
    [Or([Term(self.fieldname, word, boost=self.boost) for word in ...])]. *)
Definition MultiTerm_simplify `{Support} (ixreader : IndexReader)
  (q : Query) (fieldname : string) (boost : float) : result Query :=
  let* ws := words ixreader q in
  Ok (Or (List.map (fun word => Term fieldname word boost) ws)
         default_boost default_minmatch).

(** [CompoundQuery._split_queries] *)
Definition split_subs (subqueries : list Query) : list Query :=
  List.filter (fun q => match as_Not q with None => true | Some _ => false end)
    subqueries.

Fixpoint split_nots (subqueries : list Query) : list Query :=
  match subqueries with
  | [] => []
  | q :: rest =>
      match as_Not q with
      | Some q' => q' :: split_nots rest
      | None => split_nots rest
      end
  end.

(** [x.simplify()] with no reader: every [simplify] takes the parameter
    [ixreader], so the call raises [TypeError] whatever [x] is. *)
Definition simplify_without_reader (x : Query) : result Query :=
  Raise TypeError.

(** [self.__class__(subs, boost=self.boost)] as [CompoundQuery.simplify]
    calls it.  [Require.__init__] and [AndMaybe.__init__] take two query
    arguments, so for them the call raises [TypeError]. *)
Inductive SimplifyClass : Type :=
| SimplifyNary (cls : CompoundClass)
| SimplifyBinary.

Definition construct_simplified (cls : SimplifyClass) (subs : list Query)
  (boost : float) : result Query :=
  match cls with
  | SimplifyNary c => Ok (make_compound c subs boost)
  | SimplifyBinary => Raise TypeError
  end.

(** The end of [CompoundQuery.simplify], given the simplified positive
    subqueries (empty when [subs] is) and the inner queries of the
    [Not] children. *)
Definition CompoundQuery_simplify_finish (cls : SimplifyClass)
  (simplified : list Query) (nots : list Query) (boost : float)
  : result Query :=
  match simplified with
  | [] => Ok NullQuery
  | _ =>
      let* subs := construct_simplified cls simplified boost in
      match nots with
      | [] => Ok subs
      | _ =>
          let* n := normalize (Or nots default_boost default_minmatch) in
          let* nots' := simplify_without_reader n in
          Ok (AndNot subs nots' default_boost)
      end
  end.

(** [q.simplify(ixreader)].  The inner [simplify_subs] is the
    comprehension [[subq.simplify(ixreader) for subq in subs]] over the
    children that are not [Not]. *)
Fixpoint simplify `{Support} (ixreader : IndexReader) (q : Query)
  : result Query :=
  let simplify_subs :=
    fix go (subqueries : list Query) : result (list Query) :=
      match subqueries with
      | [] => Ok []
      | subq :: rest =>
          match as_Not subq with
          | Some _ => go rest
          | None =>
              let* s := simplify ixreader subq in
              let* r := go rest in
              Ok (s :: r)
          end
      end in
  match q with
  | Term _ _ _ | Not _ _ | Every | AndNot _ _ _ => Ok q
  | NullQuery => Ok NullQuery
  | And subqueries boost =>
      let* simplified := simplify_subs subqueries in
      CompoundQuery_simplify_finish (SimplifyNary ClsAnd) simplified
        (split_nots subqueries) boost
  | Or subqueries boost _ =>
      let* simplified := simplify_subs subqueries in
      CompoundQuery_simplify_finish (SimplifyNary ClsOr) simplified
        (split_nots subqueries) boost
  | DisjunctionMax subqueries boost _ =>
      let* simplified := simplify_subs subqueries in
      CompoundQuery_simplify_finish (SimplifyNary ClsDisjunctionMax)
        simplified (split_nots subqueries) boost
  | Require scoredquery requiredquery boost =>
      let* simplified := simplify_subs [scoredquery; requiredquery] in
      CompoundQuery_simplify_finish SimplifyBinary simplified
        (split_nots [scoredquery; requiredquery]) boost
  | AndMaybe requiredquery optionalquery boost =>
      let* simplified := simplify_subs [requiredquery; optionalquery] in
      CompoundQuery_simplify_finish SimplifyBinary simplified
        (split_nots [requiredquery; optionalquery]) boost
  | Prefix fieldname _ boost | Wildcard fieldname _ boost
  | FuzzyTerm fieldname _ boost _ _ | TermRange fieldname _ _ _ _ boost
  | Variations fieldname _ boost | Phrase fieldname _ _ boost =>
      MultiTerm_simplify ixreader q fieldname boost
  end.

(** ** Term extraction: [all_terms] *)

(** What the [_all_terms] methods add to the set: a tuple
    [(fieldname, text)], or (in [Variations._all_terms]) a bare text. *)
Inductive TermsetItem : Type :=
| TermPair (fieldname text : string)
| BareText (text : string).

#[global] Instance TermsetItem_eq_dec : EqDecision TermsetItem.
Proof. solve_decision. Defined.

#[global] Instance TermsetItem_countable : Countable TermsetItem.
Proof.
  refine (inj_countable'
    (fun i => match i with
              | TermPair f t => inl (f, t)
              | BareText t => inr t
              end)
    (fun s => match s with
              | inl (f, t) => TermPair f t
              | inr t => BareText t
              end) _).
  intros []; reflexivity.
Defined.

(** [isinstance] of a tuple: the item is a [(field, text)] pair. *)
Definition is_pair (i : TermsetItem) : bool :=
  match i with TermPair _ _ => true | BareText _ => false end.

(** [Phrase._all_terms]: [for word in self.words: termset.add(...)]. *)
Definition add_words (fieldname : string) (ws : list string)
  (termset : gset TermsetItem) : gset TermsetItem :=
  List.fold_left (fun ts word => {[ TermPair fieldname word ]} ∪ ts) ws termset.

(** [q.all_terms(termset, phrases=phrases)] with a set given: the call
    of [self._all_terms(termset, phrases=phrases)], returning the set
    it has updated.  [Query] has no [_all_terms]; a class that neither
    defines nor inherits one ([Every], [NullQuery]) raises
    [AttributeError].  The inner [each] is the loop of
    [CompoundQuery._all_terms]. *)
Fixpoint all_terms_into (q : Query) (termset : gset TermsetItem)
  (phrases : bool) : result (gset TermsetItem) :=
  let each :=
    fix each (subqueries : list Query) (termset : gset TermsetItem)
      : result (gset TermsetItem) :=
      match subqueries with
      | [] => Ok termset
      | s :: rest =>
          let* termset' := all_terms_into s termset phrases in
          each rest termset'
      end in
  match q with
  | Term fieldname text _ => Ok ({[ TermPair fieldname text ]} ∪ termset)
  | And subqueries _ | Or subqueries _ _ | DisjunctionMax subqueries _ _ =>
      each subqueries termset
  | Require a b _ | AndMaybe a b _ => each [a; b] termset
  | Not query _ => all_terms_into query termset phrases
  | Prefix _ _ _ | Wildcard _ _ _ | TermRange _ _ _ _ _ _ => Ok termset
  | FuzzyTerm fieldname text _ _ _ =>
      Ok ({[ TermPair fieldname text ]} ∪ termset)
  | Variations _ text _ => Ok ({[ BareText text ]} ∪ termset)
  | Phrase fieldname ws _ _ =>
      if phrases then Ok (add_words fieldname ws termset) else Ok termset
  | AndNot positive _ _ => all_terms_into positive termset phrases
  | Every | NullQuery => Raise AttributeError
  end.

(** [q.all_terms(termset=None, phrases=True)] *)
Definition all_terms (q : Query) (termset : option (gset TermsetItem))
  (phrases : bool) : result (gset TermsetItem) :=
  all_terms_into q (match termset with Some ts => ts | None => ∅ end) phrases.

(** ** Size estimates *)

(** [sum(...)] and [min(...)] over Python ints; [min] of an empty
    sequence raises [ValueError]. *)
Definition py_sum (l : list Z) : Z := List.fold_left Z.add l 0.

Definition py_min (l : list Z) : result Z :=
  match l with
  | [] => Raise ValueError
  | x :: rest => Ok (List.fold_left Z.min rest x)
  end.

(** [[f(x) for x in l]] where [f] may raise. *)
Fixpoint mapM {A B : Type} (f : A -> result B) (l : list A)
  : result (list B) :=
  match l with
  | [] => Ok []
  | x :: rest =>
      let* y := f x in
      let* ys := mapM f rest in
      Ok (y :: ys)
  end.

(** [Term.estimate_size] *)
Definition Term_estimate_size (ixreader : IndexReader)
  (fieldname text : string) : result Z :=
  let* fieldnum := fieldname_to_num ixreader fieldname in
  Ok (doc_frequency ixreader fieldnum text).

(** [q.estimate_size(ixreader)].  [Require], [AndMaybe] and [AndNot]
    inherit [Query.estimate_size], which raises [NotImplementedError].
    [DisjunctionMax.estimate_size] is [Or.estimate_size(self, ixreader)]:
    the method of [Or] taken from the class and called on an instance
    of [DisjunctionMax], which is no subclass of [Or].  [query.py] is
    Python 2 code (its class bodies use the builtin [unicode]), where a
    method taken from a class checks the class of its first argument,
    so the call raises [TypeError]. *)
Fixpoint estimate_size `{Support} (ixreader : IndexReader) (q : Query)
  : result Z :=
  let sizes :=
    fix sizes (subqueries : list Query) : result (list Z) :=
      match subqueries with
      | [] => Ok []
      | s :: rest =>
          let* n := estimate_size ixreader s in
          let* ns := sizes rest in
          Ok (n :: ns)
      end in
  match q with
  | Term fieldname text _ => Term_estimate_size ixreader fieldname text
  | And subqueries _ =>
      let* ns := sizes subqueries in
      py_min ns
  | Or subqueries _ _ =>
      let* ns := sizes subqueries in
      Ok (py_sum ns)
  | DisjunctionMax _ _ _ => Raise TypeError
  | Not _ _ | Every => Ok (doc_count ixreader)
  | Prefix fieldname _ _ | Wildcard fieldname _ _
  | FuzzyTerm fieldname _ _ _ _ | TermRange fieldname _ _ _ _ _
  | Variations fieldname _ _ =>
      let* fieldnum := fieldname_to_num ixreader fieldname in
      let* ws := words ixreader q in
      Ok (py_sum (List.map (doc_frequency ixreader fieldnum) ws))
  | Phrase fieldname ws _ _ =>
      let* ns := mapM (Term_estimate_size ixreader fieldname) ws in
      py_min ns
  | NullQuery => Ok 0
  | Require _ _ _ | AndMaybe _ _ _ | AndNot _ _ _ => Raise NotImplementedError
  end.

(** ** Matchers *)

(** Modelled from the spec: [whoosh.support.bitvector] is not part of
    this development; a bit vector is a set of doc ids over a fixed
    size, and [set_from] adds the ids of an iterable to it. *)
Record BitVector : Type := {
  bv_size : Z;
  bv_bits : gset Z;
}.

Definition BitVector_new (size : Z) : BitVector :=
  {| bv_size := size; bv_bits := ∅ |}.

Definition set_from (v : BitVector) (docnums : list Z) : BitVector :=
  {| bv_size := bv_size v; bv_bits := list_to_set docnums ∪ bv_bits v |}.

(** The matcher objects that [query.py] builds, as terms: one
    constructor per class of [whoosh.matching] that it instantiates,
    and [PostingMatcher] for a posting reader of the searcher. *)
Inductive Matcher : Type :=
| NullMatcher
| PostingMatcher (docnums : list Z)
| EveryMatcher (limit : Z) (exclude : gset Z)
| InverseMatcher (child : Matcher) (limit : Z) (missing : Z -> bool)
| IntersectionMatcher (a b : Matcher)
| UnionMatcher (a b : Matcher)
| DisjunctionMaxMatcher (a b : Matcher)
| WrappingMatcher (child : Matcher) (boost : float)
| RequireMatcher (a b : Matcher)
| AndMaybeMatcher (a b : Matcher).

(** Functions of [whoosh.matching], which is not part of this
    development: [make_tree(cls, matchers)], [Matcher.all_ids()], and
    what [Or(matchers, boost=b).matcher(searcher)] does when the
    subqueries are matcher objects (the inherited code calls
    [estimate_size] and [matcher] on them). *)
Class Matching : Type := {
  make_tree : (Matcher -> Matcher -> Matcher) -> list Matcher -> Matcher;
  all_ids : Matcher -> list Z;
  Or_of_matchers : list Matcher -> float -> result Matcher;
}.

(** The searcher as [query.py] calls it.  It answers the reader's
    methods ([fieldname_to_num], [doc_frequency], membership, ...) by
    its reader; [postings] raises [TermNotFound] for a term that is not
    in the index. *)
Record Searcher : Type := {
  reader : IndexReader;
  postings : Z -> string -> option BitVector -> result Matcher;
}.

(** [Term.matcher] *)
Definition Term_matcher (searcher : Searcher) (fieldname text : string)
  (exclude_docs : option BitVector) : result Matcher :=
  let* fieldnum := fieldname_to_num (reader searcher) fieldname in
  try_except (postings searcher fieldnum text exclude_docs)
    TermNotFound (Ok NullMatcher).

(** The loop of [MultiTerm.matcher] over the expanded words. *)
Fixpoint MultiTerm_matchers (searcher : Searcher) (fieldname : string)
  (ws : list string) (exclude_docs : option BitVector)
  (matchers : list Matcher) : result (list Matcher) :=
  match ws with
  | [] => Ok matchers
  | word :: rest =>
      match Term_matcher searcher fieldname word exclude_docs with
      | Ok q =>
          MultiTerm_matchers searcher fieldname rest exclude_docs
            (matchers ++ [q])
      | Raise TermNotFound =>
          MultiTerm_matchers searcher fieldname rest exclude_docs matchers
      | Raise e => Raise e
      end
  end.

(** [MultiTerm.matcher] *)
Definition MultiTerm_matcher `{Support} `{Matching} (searcher : Searcher)
  (q : Query) (fieldname : string) (boost : float)
  (exclude_docs : option BitVector) : result Matcher :=
  let* ws := words (reader searcher) q in
  let* matchers := MultiTerm_matchers searcher fieldname ws exclude_docs [] in
  match matchers with
  | [] => Ok NullMatcher
  | _ => Or_of_matchers matchers boost
  end.

(** [Query.docs], given the result of [self.matcher(...)]:
    [try: return self.matcher(...).all_ids() except TermNotFound: return []] *)
Definition Query_docs `{Matching} (m : result Matcher) : result (list Z) :=
  try_except (let* m' := m in Ok (all_ids m')) TermNotFound (Ok []).

(** [subs.sort(key=...)]: a stable sort of the keyed items, ascending. *)
Fixpoint insert_by_key {A : Type} (x : Z * A) (l : list (Z * A))
  : list (Z * A) :=
  match l with
  | [] => [x]
  | y :: rest =>
      if fst x <=? fst y then x :: y :: rest
      else y :: insert_by_key x rest
  end.

Definition sort_by_key {A : Type} (l : list (Z * A)) : list (Z * A) :=
  List.fold_right insert_by_key [] l.

(** The matcher class that each compound passes to [_matcher]. *)
Definition matchercls (cls : CompoundClass) : Matcher -> Matcher -> Matcher :=
  match cls with
  | ClsAnd => IntersectionMatcher
  | ClsOr => UnionMatcher
  | ClsDisjunctionMax => DisjunctionMaxMatcher
  end.

(** [CompoundQuery._matcher] after [_not_vector] and the size
    estimates: [keys] are the estimates of the positive subqueries and
    [built] the results of their [matcher] calls, in the order of
    [subs]; the calls are made in the sorted order, so the first one
    that raises in that order decides. *)
Definition CompoundQuery_matcher_finish `{Matching} (cls : CompoundClass)
  (keys : list Z) (built : list (result Matcher)) (boost : float)
  : result Matcher :=
  let sorted := sort_by_key (List.combine keys built) in
  let* submatchers := mapM snd sorted in
  let tree := make_tree (matchercls cls) submatchers in
  if PrimFloat.eqb boost 1.0%float then Ok tree
  else Ok (WrappingMatcher tree boost).

(** [_not_vector]: the start vector. *)
Definition not_vector_start (searcher : Searcher)
  (sourcevector : option BitVector) : BitVector :=
  match sourcevector with
  | None => BitVector_new (doc_count_all (reader searcher))
  | Some v => v
  end.

(** The methods [matcher] and [docs] of one query, as functions of
    [exclude_docs]. *)
Record QueryMethods : Type := {
  run_matcher : option BitVector -> result Matcher;
  run_docs : option BitVector -> result (list Z);
}.

(** [q.matcher(searcher, exclude_docs)] and [q.docs(searcher,
    exclude_docs)], defined together because [_not_vector] calls [docs]
    on the inner queries of the [Not] children.  Inside:
    [not_vector] is the loop of [_not_vector] over those inner queries,
    [build] the comprehension of [_submatchers] over the other
    children, and [compound] the whole of [CompoundQuery._matcher]. *)
Fixpoint methods `{Support} `{Matching} (searcher : Searcher) (q : Query)
  {struct q} : QueryMethods :=
  let not_vector :=
    fix not_vector (subqueries : list Query) (nvector : BitVector)
      : result BitVector :=
      match subqueries with
      | [] => Ok nvector
      | s :: rest =>
          match s with
          | Not nquery _ =>
              let* ids := run_docs (methods searcher nquery) None in
              not_vector rest (set_from nvector ids)
          | _ => not_vector rest nvector
          end
      end in
  let build :=
    fix build (subqueries : list Query) (exclude_docs : option BitVector)
      : list (result Matcher) :=
      match subqueries with
      | [] => []
      | s :: rest =>
          match s with
          | Not _ _ => build rest exclude_docs
          | _ => run_matcher (methods searcher s) exclude_docs
                   :: build rest exclude_docs
          end
      end in
  let compound cls subqueries boost exclude_docs :=
    let* nvector :=
      not_vector subqueries (not_vector_start searcher exclude_docs) in
    let* keys := mapM (estimate_size (reader searcher))
                   (split_subs subqueries) in
    CompoundQuery_matcher_finish cls keys
      (build subqueries (Some nvector)) boost in
  let matcher_of : option BitVector -> result Matcher :=
    match q with
    | Term fieldname text _ => Term_matcher searcher fieldname text
    | And subqueries boost => compound ClsAnd subqueries boost
    | Or subqueries boost _ => compound ClsOr subqueries boost
    | DisjunctionMax subqueries boost _ =>
        compound ClsDisjunctionMax subqueries boost
    | Not query _ =>
        fun _ =>
          let* child := run_matcher (methods searcher query) None in
          Ok (InverseMatcher child (doc_count_all (reader searcher))
                (is_deleted (reader searcher)))
    | Prefix fieldname _ boost | Wildcard fieldname _ boost
    | FuzzyTerm fieldname _ boost _ _ | TermRange fieldname _ _ _ _ boost
    | Variations fieldname _ boost =>
        MultiTerm_matcher searcher q fieldname boost
    | Phrase fieldname ws _ _ =>
        fun exclude_docs =>
          let* fieldnum := fieldname_to_num (reader searcher) fieldname in
          if negb (List.forallb
                     (reader_contains (reader searcher) (ByNum fieldnum)) ws)
          then Ok NullMatcher
          else
            let* wordmatchers :=
              mapM (fun word => postings searcher fieldnum word exclude_docs)
                ws in
            (* make_tree(wordmatchers): one argument for two parameters *)
            Raise TypeError
    | Every =>
        fun exclude_docs =>
          Ok (EveryMatcher (doc_count_all (reader searcher))
                (match exclude_docs with
                 | Some v => bv_bits v
                 | None => ∅
                 end))
    | NullQuery => fun _ => Ok NullMatcher
    | Require scoredquery requiredquery _ =>
        fun exclude_docs =>
          let* a := run_matcher (methods searcher scoredquery) exclude_docs in
          let* b := run_matcher (methods searcher requiredquery) exclude_docs in
          Ok (RequireMatcher a b)
    | AndMaybe requiredquery optionalquery _ =>
        fun exclude_docs =>
          let* a := run_matcher (methods searcher requiredquery) exclude_docs in
          let* b := run_matcher (methods searcher optionalquery) exclude_docs in
          Ok (AndMaybeMatcher a b)
    | AndNot positive negative _ =>
        fun exclude_docs =>
          let* ids := run_docs (methods searcher negative) None in
          let notvector :=
            set_from (not_vector_start searcher exclude_docs) ids in
          run_matcher (methods searcher positive) (Some notvector)
    end in
  let docs_of : option BitVector -> result (list Z) :=
    match q with
    | NullQuery => fun _ => Ok []
    | Require scoredquery requiredquery _ =>
        fun exclude_docs =>
          Query_docs (compound ClsAnd [scoredquery; requiredquery]
                        default_boost exclude_docs)
    | AndMaybe requiredquery _ _ =>
        run_docs (methods searcher requiredquery)
    | _ => fun exclude_docs => Query_docs (matcher_of exclude_docs)
    end in
  {| run_matcher := matcher_of; run_docs := docs_of |}.

(** [q.matcher(searcher, exclude_docs=exclude_docs)] *)
Definition matcher `{Support} `{Matching} (searcher : Searcher) (q : Query)
  (exclude_docs : option BitVector) : result Matcher :=
  run_matcher (methods searcher q) exclude_docs.

(** [q.docs(searcher, exclude_docs=exclude_docs)] *)
Definition docs `{Support} `{Matching} (searcher : Searcher) (q : Query)
  (exclude_docs : option BitVector) : result (list Z) :=
  run_docs (methods searcher q) exclude_docs.

(** ** Multi-segment term statistics ([whoosh/reading.py]) *)

Module Reading.

(** [TermInfo]: the statistics of one term.  [_minlength] and [_minid]
    start as [None]. *)
Record TermInfo : Type := {
  _weight : Z;
  _df : Z;
  _minlength : option Z;
  _maxlength : Z;
  _maxweight : Z;
  _minid : option Z;
  _maxid : Z;
}.

(** [TermInfo()] with the defaults of [__init__]. *)
Definition TermInfo_default : TermInfo :=
  {| _weight := 0; _df := 0; _minlength := None; _maxlength := 0;
     _maxweight := 0; _minid := None; _maxid := 0 |}.

(** [TermInfo.add_posting(docnum, weight, length)] *)
Definition add_posting (ti : TermInfo) (docnum weight : Z)
  (length : option Z) : TermInfo :=
  {| _weight := _weight ti + weight;
     _df := _df ti + 1;
     _minlength :=
       match length with
       | None => _minlength ti
       | Some len =>
           match _minlength ti with
           | None => Some len
           | Some m => Some (Z.min m len)
           end
       end;
     _maxlength :=
       match length with
       | None => _maxlength ti
       | Some len => Z.max (_maxlength ti) len
       end;
     _maxweight := Z.max (_maxweight ti) weight;
     _minid := match _minid ti with None => Some docnum | Some i => Some i end;
     _maxid := docnum |}.

(** The value of a [schema] attribute: [None], or the schema of the
    index, taken by the names of its fields ([MultiReader] only copies
    the attribute). *)
Definition Schema : Type := list string.

(** A sub-reader of a [MultiReader], by the attribute and the three
    methods that [MultiReader.__init__] and [MultiReader.term_info]
    use. *)
Record IndexReader : Type := {
  contains : string * string -> bool;
  term_info : string -> string -> result TermInfo;
  doc_count_all : Z;
  schema : option Schema;
}.

(** The attributes of a [MultiReader]; [MultiReader_schema] is its
    [schema]. *)
Record MultiReader : Type := {
  readers : list IndexReader;
  _gen : option Z;
  MultiReader_schema : option Schema;
  doc_offsets : list Z;
  base : Z;
  is_closed : bool;
}.

(** The loop of [MultiReader.__init__]. *)
Fixpoint init_offsets (rs : list IndexReader) (doc_offsets : list Z)
  (base : Z) : list Z * Z :=
  match rs with
  | [] => (doc_offsets, base)
  | r :: rest => init_offsets rest (doc_offsets ++ [base])
                   (base + doc_count_all r)
  end.

(** [MultiReader(readers)], with the default [generation=None]:
    [self.schema = None; if readers: self.schema = readers[0].schema]. *)
Definition MultiReader_init (rs : list IndexReader) : MultiReader :=
  let '(offsets, b) := init_offsets rs [] 0 in
  {| readers := rs;
     _gen := None;
     MultiReader_schema := match rs with
                           | [] => None
                           | r :: _ => schema r
                           end;
     doc_offsets := offsets;
     base := b;
     is_closed := false |}.

(** [x + offset] where [x] may be [None]. *)
Definition add_offset (x : option Z) (offset : Z) : result Z :=
  match x with
  | Some i => Ok (i + offset)
  | None => Raise TypeError
  end.

(** [sum], [min] and [max] of a generator over at least two items;
    comparing [None] with a number raises [TypeError]. *)
Definition sum_of (l : list Z) : Z := List.fold_left Z.add l 0.

Definition min_of (l : list Z) : result Z :=
  match l with
  | [] => Raise ValueError
  | x :: rest => Ok (List.fold_left Z.min rest x)
  end.

Definition max_of (l : list Z) : result Z :=
  match l with
  | [] => Raise ValueError
  | x :: rest => Ok (List.fold_left Z.max rest x)
  end.

Definition min_of_optional (l : list (option Z)) : result (option Z) :=
  match l with
  | [] => Raise ValueError
  | [x] => Ok x
  | _ =>
      let* xs := mapM (fun x => match x with
                                | Some i => Ok i
                                | None => Raise TypeError
                                end) l in
      let* m := min_of xs in
      Ok (Some m)
  end.

(** The comprehension
    [[(r.term_info(fieldname, text), offset) for r, offset
      in zip_(self.readers, self.doc_offsets) if term in r]]. *)
Fixpoint collect_term_infos (fieldname text : string)
  (pairs : list (IndexReader * Z)) : result (list (TermInfo * Z)) :=
  match pairs with
  | [] => Ok []
  | (r, offset) :: rest =>
      if contains r (fieldname, text) then
        let* ti := term_info r fieldname text in
        let* tis := collect_term_infos fieldname text rest in
        Ok ((ti, offset) :: tis)
      else collect_term_infos fieldname text rest
  end.

(** [MultiReader.term_info] *)
Definition MultiReader_term_info (mr : MultiReader) (fieldname text : string)
  : result TermInfo :=
  let* tis := collect_term_infos fieldname text
                (List.combine (readers mr) (doc_offsets mr)) in
  match tis with
  | [] => Raise TermNotFound
  | [(ti, offset)] =>
      let* minid := add_offset (_minid ti) offset in
      Ok {| _weight := _weight ti; _df := _df ti;
            _minlength := _minlength ti; _maxlength := _maxlength ti;
            _maxweight := _maxweight ti;
            _minid := Some minid; _maxid := _maxid ti + offset |}
  | _ =>
      let w := sum_of (List.map (fun p => _weight (fst p)) tis) in
      let df := sum_of (List.map (fun p => _df (fst p)) tis) in
      let* ml := min_of_optional (List.map (fun p => _minlength (fst p)) tis) in
      let* xl := max_of (List.map (fun p => _maxlength (fst p)) tis) in
      let* xw := max_of (List.map (fun p => _maxweight (fst p)) tis) in
      let* mids := mapM (fun p => add_offset (_minid (fst p)) (snd p)) tis in
      let* mid := min_of mids in
      let* xid := max_of (List.map (fun p => _maxid (fst p) + snd p) tis) in
      Ok {| _weight := w; _df := df; _minlength := ml; _maxlength := xl;
            _maxweight := xw; _minid := Some mid; _maxid := xid |}
  end.

(** *** Vocabulary for the statements about [MultiReader.term_info] *)


(** The sum of a list of numbers. *)
Fixpoint total (l : list Z) : Z :=
  match l with
  | [] => 0
  | x :: rest => x + total rest
  end.

(** [m] is the least (greatest) number of [l]. *)
Definition is_least (m : Z) (l : list Z) : Prop :=
  List.In m l /\ forall x, List.In x l -> m <= x.

Definition is_greatest (m : Z) (l : list Z) : Prop :=
  List.In m l /\ forall x, List.In x l -> x <= m.




(** Two segments of ten documents each; the term is in both. *)
Definition segment_one : IndexReader :=
  {| contains := fun _ => true;
     term_info := fun _ _ =>
       Ok {| _weight := 3; _df := 2; _minlength := Some 4; _maxlength := 9;
             _maxweight := 2; _minid := Some 1; _maxid := 7 |};
     doc_count_all := 10;
     schema := Some ["f"] |}.

Definition segment_two : IndexReader :=
  {| contains := fun _ => true;
     term_info := fun _ _ =>
       Ok {| _weight := 5; _df := 1; _minlength := Some 6; _maxlength := 6;
             _maxweight := 5; _minid := Some 2; _maxid := 2 |};
     doc_count_all := 10;
     schema := Some ["f"] |}.

Definition two_segments : MultiReader :=
  MultiReader_init [segment_one; segment_two].


(** *** Document numbers and segments *)

(** [MultiReader.add_reader(reader)] *)
Definition add_reader (mr : MultiReader) (reader : IndexReader)
  : MultiReader :=
  {| readers := readers mr ++ [reader];
     _gen := _gen mr;
     MultiReader_schema := MultiReader_schema mr;
     doc_offsets := doc_offsets mr ++ [base mr];
     base := base mr + doc_count_all reader;
     is_closed := is_closed mr |}.

(** [MultiReader.doc_count_all()]:
    [sum(dr.doc_count_all() for dr in self.readers)] *)
Definition MultiReader_doc_count_all (mr : MultiReader) : Z :=
  sum_of (List.map doc_count_all (readers mr)).

(** [MultiReader.__contains__(term)]:
    [any(r.__contains__(term) for r in self.readers)] *)
Definition MultiReader_contains (mr : MultiReader) (term : string * string)
  : bool :=
  List.existsb (fun r => contains r term) (readers mr).

(** The loop of [bisect.bisect_right(a, x)] of the standard library:
    [while lo < hi: mid = (lo + hi) // 2;
       if x < a[mid]: hi = mid else: lo = mid + 1].
    Each turn shrinks [hi - lo], so [fuel] turns are enough when
    [hi - lo <= fuel]. *)
Fixpoint bisect_right_loop (fuel : nat) (a : list Z) (x : Z) (lo hi : nat)
  : nat :=
  match fuel with
  | O => lo
  | S fuel' =>
      if (lo <? hi)%nat then
        let mid := ((lo + hi) / 2)%nat in
        match List.nth_error a mid with
        | Some v =>
            if x <? v then bisect_right_loop fuel' a x lo mid
            else bisect_right_loop fuel' a x (mid + 1) hi
        | None => lo
        end
      else lo
  end.

(** [bisect_right(a, x)], with [lo = 0] and [hi = len(a)]. *)
Definition bisect_right (a : list Z) (x : Z) : nat :=
  bisect_right_loop (List.length a) a x 0 (List.length a).

(** [MultiReader._document_segment(docnum)]:
    [max(0, bisect_right(self.doc_offsets, docnum) - 1)] *)
Definition _document_segment (mr : MultiReader) (docnum : Z) : nat :=
  Z.to_nat (Z.max 0 (Z.of_nat (bisect_right (doc_offsets mr) docnum) - 1)).

(** [MultiReader._segment_and_docnum(docnum)]; [None] stands for the
    [IndexError] of [self.doc_offsets[segmentnum]]. *)
Definition _segment_and_docnum (mr : MultiReader) (docnum : Z)
  : option (nat * Z) :=
  let segmentnum := _document_segment mr docnum in
  match List.nth_error (doc_offsets mr) segmentnum with
  | Some offset => Some (segmentnum, docnum - offset)
  | None => None
  end.

(** The per-document methods of [MultiReader] ([is_deleted],
    [stored_fields], [doc_field_length], [has_vector], [vector],
    [vector_as]) all have the shape
    [segmentnum, segmentdoc = self._segment_and_docnum(docnum);
     return self.readers[segmentnum].method(segmentdoc, ...)];
    [None] stands for an [IndexError]. *)
Definition per_document {A : Type} (method : IndexReader -> Z -> A)
  (mr : MultiReader) (docnum : Z) : option A :=
  match _segment_and_docnum mr docnum with
  | Some (segmentnum, segmentdoc) =>
      match List.nth_error (readers mr) segmentnum with
      | Some r => Some (method r segmentdoc)
      | None => None
      end
  | None => None
  end.

(** The doc offsets of segments with the given document counts, the
    first one at [base]. *)
Fixpoint offsets_from (base : Z) (counts : list Z) : list Z :=
  match counts with
  | [] => []
  | c :: rest => base :: offsets_from (base + c) rest
  end.

(** *** Postings of a term *)

(** A sequence of calls [ti.add_posting(docnum, weight, length)]. *)
Definition add_postings (ti : TermInfo) (ps : list (Z * Z * option Z))
  : TermInfo :=
  List.fold_left (fun ti '(docnum, weight, length) =>
                    add_posting ti docnum weight length) ps ti.

(** *** Terms of a field ([IndexReader], the default implementations
    over [self.all_terms()]) *)

(** [IndexReader.terms_from(fieldname, prefix)]: the terms of
    [all_terms()] but those with [fname < fieldname or text < prefix]. *)
Definition terms_from (all_terms : list (string * string))
  (fieldname prefix : string) : list (string * string) :=
  List.filter (fun '(fname, text) =>
                 negb (String.ltb fname fieldname || String.ltb text prefix))
    all_terms.

(** The loop of [IndexReader.expand_prefix]: it returns at the first
    term of another field or without the prefix. *)
Fixpoint expand_prefix_loop (fieldname prefix : string)
  (terms : list (string * string)) : list string :=
  match terms with
  | [] => []
  | (fn, text) :: rest =>
      if negb (String.eqb fn fieldname) || negb (String.prefix prefix text)
      then []
      else text :: expand_prefix_loop fieldname prefix rest
  end.

(** [IndexReader.expand_prefix(fieldname, prefix)] *)
Definition expand_prefix (all_terms : list (string * string))
  (fieldname prefix : string) : list string :=
  expand_prefix_loop fieldname prefix (terms_from all_terms fieldname prefix).

(** The loop of [IndexReader.lexicon]. *)
Fixpoint lexicon_loop (fieldname : string) (terms : list (string * string))
  : list string :=
  match terms with
  | [] => []
  | (fn, btext) :: rest =>
      if negb (String.eqb fn fieldname) then []
      else btext :: lexicon_loop fieldname rest
  end.

(** [IndexReader.lexicon(fieldname)], with [emptybytes] the empty
    string. *)
Definition lexicon (all_terms : list (string * string)) (fieldname : string)
  : list string :=
  lexicon_loop fieldname (terms_from all_terms fieldname "").

(** The order of [(fieldname, text)] tuples. *)
Definition term_leb (a b : string * string) : bool :=
  String.ltb (fst a) (fst b)
  || (String.eqb (fst a) (fst b) && negb (String.ltb (snd b) (snd a))).

(** The terms of [all_terms()] come in the order of their tuples. *)
Fixpoint terms_in_order (terms : list (string * string)) : Prop :=
  match terms with
  | [] => True
  | a :: rest =>
      List.Forall (fun b => term_leb a b = true) rest /\ terms_in_order rest
  end.

(** The parts of a posting [(docnum, weight, length)]. *)
Definition posting_docnum (p : Z * Z * option Z) : Z := fst (fst p).
Definition posting_weight (p : Z * Z * option Z) : Z := snd (fst p).
Definition posting_length (p : Z * Z * option Z) : option Z := snd p.

(** The lengths that the postings give. *)
Fixpoint given_lengths (ps : list (Z * Z * option Z)) : list Z :=
  match ps with
  | [] => []
  | p :: rest =>
      match posting_length p with
      | Some len => len :: given_lengths rest
      | None => given_lengths rest
      end
  end.

(** Three terms in two fields. *)
Definition three_terms : list (string * string) :=
  [("f", "ab"); ("f", "ac"); ("g", "a")].

(** Three segments of four, no and three documents. *)
Definition segment_of (count : Z) : IndexReader :=
  {| contains := fun _ => false;
     term_info := fun _ _ => Raise TermNotFound;
     doc_count_all := count;
     schema := Some ["f"] |}.

Definition three_segments : MultiReader :=
  MultiReader_init [segment_of 4; segment_of 0; segment_of 3].


(** A segment whose postings of the term were added without a length:
    [ti = TermInfo(); ti.add_posting(3, 1)]. *)
Definition segment_without_lengths : IndexReader :=
  {| contains := fun _ => true;
     term_info := fun _ _ => Ok (add_posting TermInfo_default 3 1 None);
     doc_count_all := 10;
     schema := Some ["f"] |}.


End Reading.

(** ** Auxiliary definitions for the statements below *)

(** The loop of [CompoundQuery.normalize] as a function of its own. *)
Fixpoint normalize_loop (cls : CompoundClass) (subqueries subqs : list Query)
  (seenterms : gset (string * string)) : result (list Query) :=
  match subqueries with
  | [] => Ok subqs
  | s :: rest =>
      if is_NullQuery s then normalize_loop cls rest subqs seenterms
      else
        let* s' := normalize s in
        let '(subqs', seenterms') := normalize_step cls s' subqs seenterms in
        normalize_loop cls rest subqs' seenterms'
  end.

(** [self.__class__(subqueries, boost, ...)] for the three n-ary
    compounds. *)
Definition compound_query (cls : CompoundClass) (subqueries : list Query)
  (boost : float) (minmatch : Z) (tiebreak : float) : Query :=
  match cls with
  | ClsAnd => And subqueries boost
  | ClsOr => Or subqueries boost minmatch
  | ClsDisjunctionMax => DisjunctionMax subqueries boost tiebreak
  end.

(** What [Or.normalize] and [DisjunctionMax.normalize] do to the result
    of the inherited method. *)
Definition set_class_parameter (cls : CompoundClass) (norm : Query)
  (minmatch : Z) (tiebreak : float) : Query :=
  match cls with
  | ClsAnd => norm
  | ClsOr => Or_set_minmatch norm minmatch
  | ClsDisjunctionMax => DisjunctionMax_set_tiebreak norm tiebreak
  end.


(** ** Concrete inputs *)

Definition term_a : Query := Term "f" "a" default_boost.
Definition term_b : Query := Term "f" "b" default_boost.

(** [And([Term("f", "a"), And([Term("f", "a"), Term("f", "b")])])] *)
Definition nested_duplicate_And : Query :=
  And [term_a; And [term_a; term_b] default_boost] default_boost.

(** [Or([Or([Term("f", "a"), Term("f", "b")]), Term("f", "a")])] *)
Definition nested_duplicate_Or : Query :=
  Or [Or [term_a; term_b] default_boost default_minmatch; term_a]
    default_boost default_minmatch.

(** [Phrase("f", ["a", "b"])] *)
Definition phrase_ab : Query := Phrase "f" ["a"; "b"] default_slop default_boost.

Definition term_c : Query := Term "f" "c" default_boost.

(** [And([Term("f", "a"), Not(Term("f", "b"))])] *)
Definition a_and_not_b : Query := And [term_a; Not term_b default_boost] default_boost.

(** Collaborators for a one-field index that holds no term. *)
Definition no_support : Support :=
  {| fnmatch_match := fun _ _ => false;
     relative := fun _ _ => 0.0%float;
     variations := fun _ => [] |}.

Definition empty_reader : IndexReader :=
  {| fieldname_to_num := fun _ => Ok 0;
     reader_contains := fun _ _ => false;
     expand_prefix := fun _ _ => [];
     lexicon := fun _ => [];
     iter_from := fun _ _ => [];
     doc_frequency := fun _ _ => 0;
     doc_count := 0;
     doc_count_all := 0;
     is_deleted := fun _ => false |}.

(** A reader that does not know the field: [fieldname_to_num] raises
    [TermNotFound]. *)
Definition unknown_field_reader : IndexReader :=
  {| fieldname_to_num := fun _ => Raise TermNotFound;
     reader_contains := fun _ _ => false;
     expand_prefix := fun _ _ => [];
     lexicon := fun _ => [];
     iter_from := fun _ _ => [];
     doc_frequency := fun _ _ => 0;
     doc_count := 0;
     doc_count_all := 0;
     is_deleted := fun _ => false |}.

Definition plain_matching : Matching :=
  {| make_tree := fun cls ms =>
       match ms with
       | [] => NullMatcher
       | m :: rest => List.fold_left cls rest m
       end;
     all_ids := fun _ => [];
     Or_of_matchers := fun ms _ =>
       Ok match ms with
          | [] => NullMatcher
          | m :: rest => List.fold_left UnionMatcher rest m
          end |}.

(** A searcher over the empty index: [postings] raises [TermNotFound]
    for every term. *)
Definition empty_searcher : Searcher :=
  {| reader := empty_reader;
     postings := fun _ _ _ => Raise TermNotFound |}.

Definition unknown_field_searcher : Searcher :=
  {| reader := unknown_field_reader;
     postings := fun _ _ _ => Raise TermNotFound |}.

(** The classes that inherit [Query.docs]: all but [NullQuery],
    [Require] and [AndMaybe], which define their own. *)
Definition inherits_Query_docs (q : Query) : bool :=
  match q with
  | NullQuery | Require _ _ _ | AndMaybe _ _ _ => false
  | _ => true
  end.

(** The loop of [CompoundQuery._all_terms] as a function of its own. *)
Fixpoint all_terms_each (subqueries : list Query)
  (termset : gset TermsetItem) (phrases : bool)
  : result (gset TermsetItem) :=
  match subqueries with
  | [] => Ok termset
  | s :: rest =>
      let* termset' := all_terms_into s termset phrases in
      all_terms_each rest termset' phrases
  end.

(** The text that an item of the term set carries. *)
Definition item_text (i : TermsetItem) : string :=
  match i with TermPair _ t => t | BareText t => t end.

(** Whether a [Variations] query occurs in the tree. *)
Fixpoint has_Variations (q : Query) : bool :=
  match q with
  | Variations _ _ _ => true
  | And qs _ | Or qs _ _ | DisjunctionMax qs _ _ =>
      List.existsb has_Variations qs
  | Not q' _ => has_Variations q'
  | Require a b _ | AndMaybe a b _ | AndNot a b _ =>
      has_Variations a || has_Variations b
  | _ => false
  end.

(** [FuzzyTerm("f", "a")] *)
Definition fuzzy_a : Query :=
  FuzzyTerm "f" "a" default_boost 0.5%float 1.

(** The list [subqs] that the loop of [CompoundQuery.normalize] leaves:
    the surviving children. *)
Definition surviving_children (cls : CompoundClass) (subqueries : list Query)
  : result (list Query) :=
  normalize_loop cls subqueries [] ∅.

(** [isinstance(q, cls)] *)
Definition is_instance (cls : CompoundClass) (q : Query) : bool :=
  match isinstance_compound cls q with Some _ => true | None => false end.

(** An n-ary compound at the root has at least two children, none of
    them of its own class, and so on through the n-ary compounds below
    it. *)
Fixpoint flattened (q : Query) : bool :=
  match q with
  | And qs _ =>
      (2 <=? List.length qs)%nat
      && List.forallb (fun c => negb (is_instance ClsAnd c) && flattened c) qs
  | Or qs _ _ =>
      (2 <=? List.length qs)%nat
      && List.forallb (fun c => negb (is_instance ClsOr c) && flattened c) qs
  | DisjunctionMax qs _ _ =>
      (2 <=? List.length qs)%nat
      && List.forallb
           (fun c => negb (is_instance ClsDisjunctionMax c) && flattened c) qs
  | _ => true
  end.

(** [Or([Term("f", "a"), NullQuery, Term("f", "a")], boost=2.0, minmatch=3)] *)
Definition boosted_single : Query :=
  Or [term_a; NullQuery; term_a] 2.0%float 3.

(** ** Further functions and methods of [query.py] *)

(** [BooleanQuery(required, should, prohibited)]:
    [AndNot(AndMaybe(And(required), Or(should)), Or(prohibited)).normalize()] *)
Definition BooleanQuery (required should prohibited : list Query)
  : result Query :=
  normalize
    (AndNot
       (AndMaybe (And required default_boost)
                 (Or should default_boost default_minmatch) default_boost)
       (Or prohibited default_boost default_minmatch) default_boost).

(** [Query.__or__], [Query.__and__] and [Query.__sub__]:
    [self | query], [self & query] and [self - query]. *)
Definition Query_or (self query : Query) : result Query :=
  normalize (Or [self; query] default_boost default_minmatch).

Definition Query_and (self query : Query) : result Query :=
  normalize (And [self; query] default_boost).

Definition Query_sub (self query : Query) : result Query :=
  normalize (And [self; Not query default_boost] default_boost).

(** The local function [rep] of [Phrase.replace]. *)
Definition rep (oldtext newtext w : string) : string :=
  if String.eqb w oldtext then newtext else w.

(** [q.replace(oldtext, newtext)].  [Prefix], [Wildcard], [FuzzyTerm],
    [Every] and [NullQuery] inherit [Query.replace], which returns
    [self]; [And], [Or], [DisjunctionMax], [Require] and [AndMaybe]
    inherit [CompoundQuery.replace], whose call
    [self.__class__(..., boost=self.boost)] leaves the other keyword
    argument at its default and, for the two binary classes, raises
    [TypeError].  The inner [replace_each] is the comprehension over
    the subqueries. *)
Fixpoint replace (q : Query) (oldtext newtext : string) : result Query :=
  let replace_each :=
    fix replace_each (subqueries : list Query) : result (list Query) :=
      match subqueries with
      | [] => Ok []
      | s :: rest =>
          let* s' := replace s oldtext newtext in
          let* rest' := replace_each rest in
          Ok (s' :: rest')
      end in
  match q with
  | Term fieldname text boost =>
      if String.eqb text oldtext then Ok (Term fieldname newtext boost)
      else Ok q
  | And subqueries boost =>
      let* qs := replace_each subqueries in
      construct_simplified (SimplifyNary ClsAnd) qs boost
  | Or subqueries boost _ =>
      let* qs := replace_each subqueries in
      construct_simplified (SimplifyNary ClsOr) qs boost
  | DisjunctionMax subqueries boost _ =>
      let* qs := replace_each subqueries in
      construct_simplified (SimplifyNary ClsDisjunctionMax) qs boost
  | Require a b boost | AndMaybe a b boost =>
      let* qs := replace_each [a; b] in
      construct_simplified SimplifyBinary qs boost
  | Not query boost =>
      let* query' := replace query oldtext newtext in
      Ok (Not query' boost)
  | TermRange fieldname start end_ startexcl endexcl boost =>
      if String.eqb start oldtext
      then Ok (TermRange fieldname newtext end_ startexcl endexcl boost)
      else if String.eqb end_ oldtext
      then Ok (TermRange fieldname start newtext startexcl endexcl boost)
      else Ok q
  | Variations fieldname text boost =>
      if String.eqb oldtext text then Ok (Variations fieldname newtext boost)
      else Ok q
  | Phrase fieldname ws slop boost =>
      Ok (Phrase fieldname (List.map (rep oldtext newtext) ws) slop boost)
  | AndNot positive negative boost =>
      let* positive' := replace positive oldtext newtext in
      let* negative' := replace negative oldtext newtext in
      Ok (AndNot positive' negative' boost)
  | Prefix _ _ _ | Wildcard _ _ _ | FuzzyTerm _ _ _ _ _ | Every | NullQuery =>
      Ok q
  end.

(** [contains = t in ixreader; if reverse: contains = not contains;
     if contains: termset.add((fieldname, word))] *)
Definition add_existing (ixreader : IndexReader) (key : FieldKey)
  (fieldname : string) (reverse : bool) (termset : gset TermsetItem)
  (word : string) : gset TermsetItem :=
  let contains := reader_contains ixreader key word in
  let contains := if reverse then negb contains else contains in
  if contains then {[ TermPair fieldname word ]} ∪ termset else termset.

(** [q.existing_terms(ixreader, termset, reverse=reverse,
    phrases=phrases)] with a set given: the call of
    [self._existing_terms(...)], returning the set it has updated.
    [Term] and [Phrase] look the term up by field number, the
    multi-term classes by field name.  [Every] and [NullQuery] neither
    define nor inherit [_existing_terms]. *)
Fixpoint existing_terms_into `{Support} (ixreader : IndexReader) (q : Query)
  (termset : gset TermsetItem) (reverse phrases : bool)
  : result (gset TermsetItem) :=
  let each :=
    fix each (subqueries : list Query) (termset : gset TermsetItem)
      : result (gset TermsetItem) :=
      match subqueries with
      | [] => Ok termset
      | s :: rest =>
          let* termset' :=
            existing_terms_into ixreader s termset reverse phrases in
          each rest termset'
      end in
  match q with
  | Term fieldname text _ =>
      let* fieldnum := fieldname_to_num ixreader fieldname in
      Ok (add_existing ixreader (ByNum fieldnum) fieldname reverse termset text)
  | And subqueries _ | Or subqueries _ _ | DisjunctionMax subqueries _ _ =>
      each subqueries termset
  | Require a b _ | AndMaybe a b _ => each [a; b] termset
  | Not query _ => existing_terms_into ixreader query termset reverse phrases
  | Prefix fieldname _ _ | Wildcard fieldname _ _
  | FuzzyTerm fieldname _ _ _ _ | TermRange fieldname _ _ _ _ _
  | Variations fieldname _ _ =>
      let* ws := words ixreader q in
      Ok (List.fold_left
            (add_existing ixreader (ByName fieldname) fieldname reverse)
            ws termset)
  | Phrase fieldname ws _ _ =>
      if phrases then
        let* fieldnum := fieldname_to_num ixreader fieldname in
        Ok (List.fold_left
              (add_existing ixreader (ByNum fieldnum) fieldname reverse)
              ws termset)
      else Ok termset
  | AndNot positive _ _ =>
      existing_terms_into ixreader positive termset reverse phrases
  | Every | NullQuery => Raise AttributeError
  end.

(** [q.existing_terms(ixreader, termset=None, reverse=False,
    phrases=True)] *)
Definition existing_terms `{Support} (ixreader : IndexReader) (q : Query)
  (termset : option (gset TermsetItem)) (reverse phrases : bool)
  : result (gset TermsetItem) :=
  existing_terms_into ixreader q
    (match termset with Some ts => ts | None => ∅ end) reverse phrases.

(** ** Vocabulary for the statements about normal forms *)

(** Whether the tree holds a [Wildcard] whose text is the glob ["*"]. *)
Fixpoint has_glob_star (q : Query) : bool :=
  match q with
  | Wildcard _ text _ => String.eqb text "*"
  | And qs _ | Or qs _ _ | DisjunctionMax qs _ _ =>
      List.existsb has_glob_star qs
  | Not q' _ => has_glob_star q'
  | Require a b _ | AndMaybe a b _ | AndNot a b _ =>
      has_glob_star a || has_glob_star b
  | _ => false
  end.

(** Whether [NullQuery] occurs in the tree, the root included. *)
Fixpoint mentions_NullQuery (q : Query) : bool :=
  match q with
  | NullQuery => true
  | And qs _ | Or qs _ _ | DisjunctionMax qs _ _ =>
      List.existsb mentions_NullQuery qs
  | Not q' _ => mentions_NullQuery q'
  | Require a b _ | AndMaybe a b _ | AndNot a b _ =>
      mentions_NullQuery a || mentions_NullQuery b
  | _ => false
  end.

(** [isinstance(q, Term)] *)
Definition is_Term (q : Query) : bool :=
  match as_Term q with Some _ => true | None => false end.

(** Whether [Every] or [NullQuery] occurs where [all_terms] goes:
    everywhere but in the negative side of an [AndNot]. *)
Fixpoint reaches_termless (q : Query) : bool :=
  match q with
  | Every | NullQuery => true
  | And qs _ | Or qs _ _ | DisjunctionMax qs _ _ =>
      List.existsb reaches_termless qs
  | Not q' _ => reaches_termless q'
  | Require a b _ | AndMaybe a b _ => reaches_termless a || reaches_termless b
  | AndNot positive _ _ => reaches_termless positive
  | _ => false
  end.

(** [isinstance(q, Not)] *)
Definition is_Not (q : Query) : bool :=
  match as_Not q with Some _ => true | None => false end.

(** Outside of a [Not] and of an [AndNot] the tree is made of [Term],
    [Every], [NullQuery] and of [And], [Or] and [DisjunctionMax] with no
    [Not] child: it holds no multi-term query, [Phrase], [Require] or
    [AndMaybe] there. *)
Fixpoint simplified_shape (q : Query) : bool :=
  match q with
  | Term _ _ _ | Not _ _ | AndNot _ _ _ | Every | NullQuery => true
  | And qs _ | Or qs _ _ | DisjunctionMax qs _ _ =>
      List.forallb (fun c => negb (is_Not c) && simplified_shape c) qs
  | _ => false
  end.

(** A one-field index of three documents with the terms ["ab"] (in two
    documents) and ["ac"] (in one). *)
Definition small_reader : IndexReader :=
  {| fieldname_to_num := fun _ => Ok 0;
     reader_contains := fun _ t => String.eqb t "ab" || String.eqb t "ac";
     expand_prefix := fun _ p => List.filter (String.prefix p) ["ab"; "ac"];
     lexicon := fun _ => ["ab"; "ac"];
     iter_from := fun _ _ => [(0, "ab"); (0, "ac")];
     doc_frequency := fun _ t =>
       if String.eqb t "ab" then 2 else if String.eqb t "ac" then 1 else 0;
     doc_count := 3;
     doc_count_all := 3;
     is_deleted := fun _ => false |}.

(** [And([Term("f", "a"), Prefix("f", "a")])] *)
Definition a_and_prefix_a : Query :=
  And [term_a; Prefix "f" "a" default_boost] default_boost.

(** The loop of [CompoundQuery._existing_terms] as a function of its
    own. *)
Fixpoint existing_terms_each `{Support} (ixreader : IndexReader)
  (subqueries : list Query) (termset : gset TermsetItem)
  (reverse phrases : bool) : result (gset TermsetItem) :=
  match subqueries with
  | [] => Ok termset
  | s :: rest =>
      let* termset' :=
        existing_terms_into ixreader s termset reverse phrases in
      existing_terms_each ixreader rest termset' reverse phrases
  end.

(** Where [all_terms] and [existing_terms] go, the leaves of the tree
    are [Term] and [Phrase] queries. *)
Fixpoint leaves_are_terms (q : Query) : bool :=
  match q with
  | Term _ _ _ | Phrase _ _ _ _ => true
  | And qs _ | Or qs _ _ | DisjunctionMax qs _ _ =>
      List.forallb leaves_are_terms qs
  | Not q' _ => leaves_are_terms q'
  | Require a b _ | AndMaybe a b _ => leaves_are_terms a && leaves_are_terms b
  | AndNot positive _ _ => leaves_are_terms positive
  | _ => false
  end.

(** The reader holds the term of a [(fieldname, text)] item, looked up
    by the number of its field. *)
Definition held_by (ixreader : IndexReader) (i : TermsetItem) : bool :=
  match i with
  | TermPair fieldname text =>
      match fieldname_to_num ixreader fieldname with
      | Ok fieldnum => reader_contains ixreader (ByNum fieldnum) text
      | Raise _ => false
      end
  | BareText _ => false
  end.

(** The three sets that [all_terms], [existing_terms] and
    [existing_terms] with [reverse=True] work on: the first is the union
    of the other two, whose items the reader holds and does not hold. *)
Definition partitioned (ixreader : IndexReader)
  (tsA tsE tsM : gset TermsetItem) : Prop :=
  tsA = tsE ∪ tsM
  /\ (forall i, i ∈ tsE -> held_by ixreader i = true)
  /\ (forall i, i ∈ tsM -> held_by ixreader i = false).

(** Whether a [Require] or an [AndMaybe] occurs in the tree. *)
Fixpoint has_binary_compound (q : Query) : bool :=
  match q with
  | Require _ _ _ | AndMaybe _ _ _ => true
  | And qs _ | Or qs _ _ | DisjunctionMax qs _ _ =>
      List.existsb has_binary_compound qs
  | Not q' _ => has_binary_compound q'
  | AndNot a b _ => has_binary_compound a || has_binary_compound b
  | _ => false
  end.

(** The texts of the [Term] and [Variations] queries and the words of
    the [Phrase] queries of the tree, from left to right. *)
Fixpoint replaceable_texts (q : Query) : list string :=
  match q with
  | Term _ text _ | Variations _ text _ => [text]
  | Phrase _ ws _ _ => ws
  | And qs _ | Or qs _ _ | DisjunctionMax qs _ _ =>
      List.flat_map replaceable_texts qs
  | Not q' _ => replaceable_texts q'
  | Require a b _ | AndMaybe a b _ | AndNot a b _ =>
      replaceable_texts a ++ replaceable_texts b
  | _ => []
  end.




(** Whether a call raised the exception [e]. *)
Definition raises {A : Type} (e : exn) (m : result A) : bool :=
  match m with
  | Ok _ => false
  | Raise e' => bool_decide (e' = e)
  end.

(** The classes whose [estimate_size] raises whatever the reader is:
    [Require], [AndMaybe] and [AndNot] inherit [Query.estimate_size]
    ([NotImplementedError]), and [DisjunctionMax.estimate_size] calls
    the method of [Or] on a [DisjunctionMax] ([TypeError]). *)
Definition lacks_estimate (q : Query) : bool :=
  match q with
  | Require _ _ _ | AndMaybe _ _ _ | AndNot _ _ _
  | DisjunctionMax _ _ _ => true
  | _ => false
  end.

(** [And([Term("f", "a"), AndNot(Term("f", "b"), Term("f", "c"))])] *)
Definition a_and_b_andnot_c : Query :=
  And [term_a; AndNot term_b term_c default_boost] default_boost.

(** A searcher over [small_reader] whose [postings] gives the documents
    0, 1 and 2 for every term, leaving out those of [exclude_docs]. *)
Definition posting_searcher : Searcher :=
  {| reader := small_reader;
     postings := fun _ _ exclude_docs =>
       Ok (PostingMatcher
             (List.filter
                (fun d => match exclude_docs with
                          | Some v => negb (bool_decide (d ∈ bv_bits v))
                          | None => true
                          end) [0; 1; 2])) |}.

(** The bit vector of size three in which document 1 is set. *)
Definition exclude_one : BitVector := set_from (BitVector_new 3) [1].

(** The classes that inherit [MultiTerm.matcher]; [Phrase] has its
    own. *)
Definition inherits_MultiTerm_matcher (q : Query) : bool :=
  match q with
  | Prefix _ _ _ | Wildcard _ _ _ | FuzzyTerm _ _ _ _ _
  | TermRange _ _ _ _ _ _ | Variations _ _ _ => true
  | _ => false
  end.

(** The classes that inherit [MultiTerm.simplify]: those of
    [MultiTerm.matcher], and [Phrase]. *)
Definition inherits_MultiTerm_simplify (q : Query) : bool :=
  match q with
  | Phrase _ _ _ _ => true
  | _ => inherits_MultiTerm_matcher q
  end.

(** The loop of [_not_vector] over the children of a compound, as a
    function of its own: [nvector.set_from(nquery.docs(searcher))] for
    the inner query of each [Not] child. *)
Fixpoint not_vector_loop `{Support} `{Matching} (searcher : Searcher)
  (subqueries : list Query) (nvector : BitVector) : result BitVector :=
  match subqueries with
  | [] => Ok nvector
  | s :: rest =>
      match s with
      | Not nquery _ =>
          let* ids := docs searcher nquery None in
          not_vector_loop searcher rest (set_from nvector ids)
      | _ => not_vector_loop searcher rest nvector
      end
  end.

(** A call that raises nothing but [TermNotFound], if it raises. *)
Definition raises_at_most_TermNotFound {A : Type} (m : result A) : Prop :=
  forall e, m = Raise e -> e = TermNotFound.

(** [q.fieldname], for the classes whose [__init__] sets it. *)
Definition fieldname_of (q : Query) : option string :=
  match q with
  | Term f _ _ | Prefix f _ _ | Wildcard f _ _ | FuzzyTerm f _ _ _ _
  | TermRange f _ _ _ _ _ | Variations f _ _ | Phrase f _ _ _ => Some f
  | _ => None
  end.

(** A [TermNotFound] that the call [sub] raises inside the operation
    [whole] reaches the caller of [whole]. *)
Definition propagates {A B : Type} (sub : result A) (whole : result B)
  : Prop :=
  sub = Raise TermNotFound -> whole = Raise TermNotFound.

(** * Properties *)

(** ** Reasoning about the result monad *)

Lemma bind_Ok_inv {A B : Type} (m : result A) (k : A -> result B) (b : B) :
  bind m k = Ok b -> exists a, m = Ok a /\ k a = Ok b.
Proof. destruct m as [a|e]; simpl; [eauto | discriminate]. Qed.

Lemma mapM_length {A B : Type} (f : A -> result B) (l : list A) (r : list B) :
  mapM f l = Ok r -> length r = length l.
Proof.
  revert r; induction l as [|x l IH]; simpl; intros r Hr.
  - inversion Hr; reflexivity.
  - destruct (f x) as [y|e]; simpl in Hr; [|discriminate].
    destruct (mapM f l) as [ys|e]; simpl in Hr; [|discriminate].
    inversion Hr; subst; simpl. f_equal. apply IH. reflexivity.
Qed.

(** ** Structural induction over query trees *)

Lemma Query_tree_ind (P : Query -> Prop)
  (HTerm : forall f t b, P (Term f t b))
  (HAnd : forall qs b, List.Forall P qs -> P (And qs b))
  (HOr : forall qs b m, List.Forall P qs -> P (Or qs b m))
  (HDisMax : forall qs b t, List.Forall P qs -> P (DisjunctionMax qs b t))
  (HNot : forall q b, P q -> P (Not q b))
  (HPrefix : forall f t b, P (Prefix f t b))
  (HWildcard : forall f t b, P (Wildcard f t b))
  (HFuzzy : forall f t b m p, P (FuzzyTerm f t b m p))
  (HRange : forall f s e se ee b, P (TermRange f s e se ee b))
  (HVariations : forall f t b, P (Variations f t b))
  (HPhrase : forall f ws s b, P (Phrase f ws s b))
  (HEvery : P Every)
  (HNull : P NullQuery)
  (HRequire : forall a b bo, P a -> P b -> P (Require a b bo))
  (HAndMaybe : forall a b bo, P a -> P b -> P (AndMaybe a b bo))
  (HAndNot : forall a b bo, P a -> P b -> P (AndNot a b bo)) :
  forall q, P q.
Proof.
  fix IH 1.
  assert (Hall : forall qs, List.Forall P qs).
  { fix IHl 1. intros [|s rest]; constructor; [apply IH | apply IHl]. }
  intros [f t b|qs b|qs b m|qs b t|q b|f t b|f t b|f t b m p|f s e se ee b
          |f t b|f ws s b| | |a b bo|a b bo|a b bo].
  - apply HTerm.
  - apply HAnd, Hall.
  - apply HOr, Hall.
  - apply HDisMax, Hall.
  - apply HNot, IH.
  - apply HPrefix.
  - apply HWildcard.
  - apply HFuzzy.
  - apply HRange.
  - apply HVariations.
  - apply HPhrase.
  - apply HEvery.
  - apply HNull.
  - apply HRequire; apply IH.
  - apply HAndMaybe; apply IH.
  - apply HAndNot; apply IH.
Qed.

(** ** Normalization: unfolding the compound case *)

Lemma normalize_compound (cls : CompoundClass) (qs : list Query)
  (b : float) (m : Z) (t : float) :
  normalize (compound_query cls qs b m t) =
  let* subqs := normalize_loop cls qs [] ∅ in
  Ok (set_class_parameter cls (normalize_finish cls subqs b) m t).
Proof.
  assert (Hloop : forall c l subqs seen,
    (fix loop (subqueries subqs : list Query)
         (seenterms : gset (string * string)) {struct subqueries}
       : result (list Query) :=
       match subqueries with
       | [] => Ok subqs
       | s :: rest =>
           if is_NullQuery s then loop rest subqs seenterms
           else
             let* s' := normalize s in
             let '(subqs', seenterms') :=
               normalize_step c s' subqs seenterms in
             loop rest subqs' seenterms'
       end) l subqs seen = normalize_loop c l subqs seen).
  { intros c l; induction l as [|s rest IH]; intros subqs seen; simpl.
    - reflexivity.
    - destruct (is_NullQuery s); [apply IH|].
      destruct (normalize s) as [s'|e]; simpl; [|reflexivity].
      destruct (normalize_step c s' subqs seen). apply IH. }
  destruct cls; simpl; rewrite Hloop; reflexivity.
Qed.

(** ** Idempotence of normalization *)

(** C1 (the code breaks it): normalizing twice is not the same as
    normalizing once.  For an [And] (and for an [Or]) with a nested
    compound of the same class that holds a [Term] equal to a sibling
    [Term], the first [normalize] flattens the nested compound without
    checking its terms against [seenterms] and leaves the duplicate; the
    second removes it, so the two results differ. *)
Theorem normalize_nested_duplicate_not_idempotent :
  normalize nested_duplicate_And
    = Ok (And [term_a; term_a; term_b] default_boost)
  /\ normalize (And [term_a; term_a; term_b] default_boost)
    = Ok (And [term_a; term_b] default_boost)
  /\ And [term_a; term_a; term_b] default_boost
     <> And [term_a; term_b] default_boost
  /\ normalize nested_duplicate_Or
    = Ok (Or [term_a; term_b; term_a] default_boost default_minmatch)
  /\ normalize (Or [term_a; term_b; term_a] default_boost default_minmatch)
    = Ok (Or [term_a; term_b] default_boost default_minmatch)
  /\ Or [term_a; term_b; term_a] default_boost default_minmatch
     <> Or [term_a; term_b] default_boost default_minmatch.
Proof.
  repeat split; try (vm_compute; reflexivity); intros H; inversion H.
Qed.

(** ** Equality of phrases *)

Lemma Phrase_eq_Phrase (f : string) (ws : list string) (s : Z) (b : float)
  (f' : string) (ws' : list string) (s' : Z) (b' : float) :
  Phrase_eq f ws s b (Phrase f' ws' s' b')
  = if String.eqb f f' then Raise AttributeError else Ok false.
Proof. reflexivity. Qed.

(** C2 (the code breaks it): comparing a [Phrase] with a [Phrase] of the
    same field never answers: it raises [AttributeError] at
    [other.word], whatever the words, slop and boost are.  In
    particular [p == p] raises for every phrase [p], and no comparison
    of two phrases returns [True]. *)
Theorem Phrase_eq_never_true (f : string) (ws : list string) (s : Z)
  (b : float) :
  Phrase_eq_query (Phrase f ws s b) (Phrase f ws s b) = Raise AttributeError
  /\ (forall ws' s' b',
        Phrase_eq_query (Phrase f ws s b) (Phrase f ws' s' b')
        = Raise AttributeError)
  /\ (forall other, Phrase_eq_query (Phrase f ws s b) other <> Ok true).
Proof.
  split; [|split].
  - simpl. rewrite String.eqb_refl. reflexivity.
  - intros ws' s' b'. simpl. rewrite String.eqb_refl. reflexivity.
  - intros other. destruct other; simpl; try discriminate.
    destruct (String.eqb f fieldname); discriminate.
Qed.

(** ** Normalization of wildcards *)

(** C5 (the code breaks it): for the glob ["*"] the code calls
    [Every(boost=self.boost)]; [Every] has no [__init__] taking a boost,
    so [normalize] raises [TypeError] and returns no [Every]. *)
Theorem Wildcard_star_normalize_raises (f : string) (b : float) :
  normalize (Wildcard f "*" b) = Raise TypeError.
Proof. reflexivity. Qed.

(** The other three cases of [Wildcard.normalize], on the texts of the
    specification. *)
Lemma Wildcard_plain_normalize (f : string) (b : float) :
  normalize (Wildcard f "abc" b) = Ok (Term f "abc" b).
Proof. reflexivity. Qed.

Lemma Wildcard_trailing_star_normalize (f : string) (b : float) :
  normalize (Wildcard f "abc*" b) = Ok (Prefix f "abc" b).
Proof. reflexivity. Qed.

Lemma Wildcard_inner_star_normalize (f : string) (b : float) :
  normalize (Wildcard f "a*b" b) = Ok (Wildcard f "a*b" b).
Proof. reflexivity. Qed.

Lemma Wildcard_no_metacharacter (f text : string) (b : float) :
  str_contains star text = false -> str_contains qmark text = false ->
  normalize (Wildcard f text b) = Ok (Term f text b).
Proof.
  intros Hs Hq. simpl. unfold Wildcard_normalize.
  destruct (String.eqb_spec text "*") as [->|_]; [discriminate Hs|].
  rewrite Hs, Hq. reflexivity.
Qed.

(** ** When [normalize] raises *)

Lemma normalize_loop_glob_star (cls : CompoundClass) (qs : list Query) :
  List.Forall (fun q => if has_glob_star q
                        then normalize q = Raise TypeError
                        else exists nq, normalize q = Ok nq) qs ->
  forall subqs seen,
    if List.existsb has_glob_star qs
    then normalize_loop cls qs subqs seen = Raise TypeError
    else exists r, normalize_loop cls qs subqs seen = Ok r.
Proof.
  induction 1 as [|s rest Hs _ IH]; intros subqs seen;
    cbn [normalize_loop List.existsb].
  - eauto.
  - destruct (is_NullQuery s) eqn:Hnull.
    + destruct s; try discriminate Hnull. cbn [has_glob_star orb]. apply IH.
    + destruct (has_glob_star s); cbn [orb].
      * rewrite Hs. reflexivity.
      * destruct Hs as [nq ->]. cbn [bind].
        destruct (normalize_step cls nq subqs seen) as [subqs' seen'].
        apply IH.
Qed.

Lemma normalize_compound_glob_star (cls : CompoundClass) (qs : list Query)
  (b : float) (m : Z) (t : float) :
  List.Forall (fun q => if has_glob_star q
                        then normalize q = Raise TypeError
                        else exists nq, normalize q = Ok nq) qs ->
  if List.existsb has_glob_star qs
  then normalize (compound_query cls qs b m t) = Raise TypeError
  else exists nq, normalize (compound_query cls qs b m t) = Ok nq.
Proof.
  intros Hall. rewrite normalize_compound.
  pose proof (normalize_loop_glob_star cls qs Hall [] ∅) as Hloop.
  destruct (List.existsb has_glob_star qs).
  - rewrite Hloop. reflexivity.
  - destruct Hloop as [r ->]. cbn [bind]. eauto.
Qed.

(** [normalize] raises on the trees that hold the glob ["*"], and on
    no other tree. *)
Lemma normalize_glob_star (q : Query) :
  if has_glob_star q then normalize q = Raise TypeError
  else exists nq, normalize q = Ok nq.
Proof.
  induction q using Query_tree_ind; try (cbn; eauto; fail).
  - apply (normalize_compound_glob_star ClsAnd qs b 0 0%float H).
  - apply (normalize_compound_glob_star ClsOr qs b m 0%float H).
  - apply (normalize_compound_glob_star ClsDisjunctionMax qs b 0 t H).
  - cbn [has_glob_star normalize]. destruct (has_glob_star q).
    + rewrite IHq. reflexivity.
    + destruct IHq as [nq ->]. cbn [bind]. destruct (is_NullQuery nq); eauto.
  - cbn [has_glob_star normalize]. unfold Wildcard_normalize, Every_with_boost.
    destruct (String.eqb t "*"); [reflexivity|].
    repeat match goal with |- context [if ?c then _ else _] => destruct c end;
      eauto.
  - cbn [has_glob_star normalize].
    destruct (has_glob_star q1); cbn [orb].
    + rewrite IHq1. reflexivity.
    + destruct IHq1 as [a' ->]. cbn [bind]. destruct (has_glob_star q2).
      * rewrite IHq2. reflexivity.
      * destruct IHq2 as [b' ->]. cbn [bind].
        destruct (is_NullQuery a' || is_NullQuery b'); eauto.
  - cbn [has_glob_star normalize].
    destruct (has_glob_star q1); cbn [orb].
    + rewrite IHq1. reflexivity.
    + destruct IHq1 as [a' ->]. cbn [bind]. destruct (has_glob_star q2).
      * rewrite IHq2. reflexivity.
      * destruct IHq2 as [b' ->]. cbn [bind].
        destruct (is_NullQuery a'); [eauto|].
        destruct (is_NullQuery b'); eauto.
  - cbn [has_glob_star normalize].
    destruct (has_glob_star q1); cbn [orb].
    + rewrite IHq1. reflexivity.
    + destruct IHq1 as [a' ->]. cbn [bind]. destruct (has_glob_star q2).
      * rewrite IHq2. reflexivity.
      * destruct IHq2 as [b' ->]. cbn [bind].
        destruct (is_NullQuery a'); [eauto|].
        destruct (is_NullQuery b'); eauto.
Qed.

(** ** Null absorption in the binary queries *)

(** C6 (the code breaks it): [AndNot(x, NullQuery)] and
    [AndMaybe(x, NullQuery)] behave as [x.normalize()] does, for every
    [x].  [AndNot(NullQuery, x)], [AndMaybe(NullQuery, x)] and
    [Require(x, NullQuery)] normalize to [NullQuery] for every [x]
    that holds no [Wildcard] with the text ["*"]; for an [x] that holds
    one they raise the [TypeError] of [Every(boost=...)] and return no
    [NullQuery], because they normalize [x] before they look at the
    [NullQuery]. *)
Theorem binary_null_absorption (x : Query) (b : float) :
  normalize (AndNot x NullQuery b) = normalize x
  /\ normalize (AndMaybe x NullQuery b) = normalize x
  /\ (if has_glob_star x
      then normalize (AndNot NullQuery x b) = Raise TypeError
           /\ normalize (AndMaybe NullQuery x b) = Raise TypeError
           /\ normalize (Require x NullQuery b) = Raise TypeError
      else normalize (AndNot NullQuery x b) = Ok NullQuery
           /\ normalize (AndMaybe NullQuery x b) = Ok NullQuery
           /\ normalize (Require x NullQuery b) = Ok NullQuery).
Proof.
  pose proof (normalize_glob_star x) as Hx.
  split; [|split].
  - cbn [normalize]. destruct (normalize x) as [nx|e]; cbn [bind];
      [|reflexivity].
    destruct nx; reflexivity.
  - cbn [normalize]. destruct (normalize x) as [nx|e]; cbn [bind];
      [|reflexivity].
    destruct nx; reflexivity.
  - cbn [normalize bind]. destruct (has_glob_star x).
    + rewrite Hx. repeat split.
    + destruct Hx as [nx ->]. cbn [bind is_NullQuery orb].
      repeat split. rewrite orb_true_r. reflexivity.
Qed.

(** ** The matcher of [Not] *)

(** C10: [Not(q).matcher(searcher, exclude_docs)] does not depend on
    [exclude_docs].  Whenever the child builds a matcher with no
    exclusion, the result is the [InverseMatcher] over that matcher,
    with [doc_count_all] as the limit and the reader's [is_deleted] as
    [missing], whatever [exclude_docs] is; so the matcher of
    [Not(NullQuery)] is the [InverseMatcher] over [NullMatcher], and
    that of [Not(Every())] the one over an [EveryMatcher] that excludes
    nothing.  When the child's [matcher] raises, [Not]'s raises the
    same. *)
Theorem Not_matcher_ignores_exclude_docs `{Support} `{Matching}
  (searcher : Searcher) (q : Query) (b : float)
  (e1 e2 : option BitVector) :
  matcher searcher (Not q b) e1 = matcher searcher (Not q b) e2
  /\ (forall child,
        matcher searcher q None = Ok child ->
        matcher searcher (Not q b) e1
        = Ok (InverseMatcher child (doc_count_all (reader searcher))
                (is_deleted (reader searcher))))
  /\ (forall err,
        matcher searcher q None = Raise err ->
        matcher searcher (Not q b) e1 = Raise err)
  /\ matcher searcher (Not NullQuery b) e1
     = Ok (InverseMatcher NullMatcher (doc_count_all (reader searcher))
             (is_deleted (reader searcher)))
  /\ matcher searcher (Not Every b) e1
     = Ok (InverseMatcher
             (EveryMatcher (doc_count_all (reader searcher)) ∅)
             (doc_count_all (reader searcher))
             (is_deleted (reader searcher))).
Proof.
  assert (Hnot : forall e,
    matcher searcher (Not q b) e
    = (let* child := matcher searcher q None in
       Ok (InverseMatcher child (doc_count_all (reader searcher))
             (is_deleted (reader searcher))))) by reflexivity.
  split; [rewrite !Hnot; reflexivity|].
  split; [intros child Hq; rewrite Hnot, Hq; reflexivity|].
  split; [intros err Hq; rewrite Hnot, Hq; reflexivity|].
  split; reflexivity.
Qed.

(** With postings that honour [exclude_docs]: the matcher of the term
    leaves document 1 out, the matcher of its [Not] is built over all
    three documents. *)
Lemma Not_matcher_ignores_exclude_docs_witness :
  @matcher no_support plain_matching posting_searcher term_a
    (Some exclude_one) = Ok (PostingMatcher [0; 2])
  /\ @matcher no_support plain_matching posting_searcher
       (Not term_a default_boost) (Some exclude_one)
     = Ok (InverseMatcher (PostingMatcher [0; 1; 2]) 3
             (is_deleted small_reader)).
Proof.
  split; [vm_compute; reflexivity|].
  apply (proj1 (proj2 (@Not_matcher_ignores_exclude_docs no_support
                         plain_matching posting_searcher term_a
                         default_boost (Some exclude_one) None))).
  vm_compute. reflexivity.
Defined.

(** ** Simplification of compounds with [Not] children *)

Lemma simplify_compound `{Support} (ixreader : IndexReader)
  (cls : CompoundClass) (qs : list Query) (b : float) (m : Z) (t : float) :
  simplify ixreader (compound_query cls qs b m t) =
  let* simplified := mapM (simplify ixreader) (split_subs qs) in
  CompoundQuery_simplify_finish (SimplifyNary cls) simplified
    (split_nots qs) b.
Proof.
  assert (Hgo : forall l,
    (fix go (subqueries : list Query) : result (list Query) :=
       match subqueries with
       | [] => Ok []
       | subq :: rest =>
           match as_Not subq with
           | Some _ => go rest
           | None =>
               let* s := simplify ixreader subq in
               let* r := go rest in
               Ok (s :: r)
           end
       end) l = mapM (simplify ixreader) (split_subs l)).
  { induction l as [|s rest IH]; [reflexivity|].
    unfold split_subs; simpl. destruct (as_Not s); [apply IH|].
    simpl. destruct (simplify ixreader s); simpl; [|reflexivity].
    rewrite IH. reflexivity. }
  destruct cls; simpl; rewrite Hgo; reflexivity.
Qed.

Lemma normalize_loop_raises_only_TypeError (cls : CompoundClass)
  (qs subqs : list Query) (seen : gset (string * string)) (e : exn) :
  List.Forall (fun q => forall e', normalize q = Raise e' -> e' = TypeError) qs ->
  normalize_loop cls qs subqs seen = Raise e -> e = TypeError.
Proof.
  intros Hall. revert subqs seen.
  induction Hall as [|s rest Hs _ IH]; intros subqs seen; simpl.
  - discriminate.
  - destruct (is_NullQuery s); [apply IH|].
    destruct (normalize s) as [s'|e'] eqn:Hn; simpl.
    + destruct (normalize_step cls s' subqs seen). apply IH.
    + intros [= <-]. apply Hs. reflexivity.
Qed.

(** The only exception that [normalize] raises is the [TypeError] of
    [Every(boost=...)]. *)
Lemma normalize_raises_only_TypeError (q : Query) (e : exn) :
  normalize q = Raise e -> e = TypeError.
Proof.
  revert e.
  assert (Hcompound : forall cls qs b m t e,
    List.Forall (fun q => forall e', normalize q = Raise e' -> e' = TypeError) qs ->
    normalize (compound_query cls qs b m t) = Raise e -> e = TypeError).
  { intros cls qs b m t e Hall. rewrite normalize_compound.
    destruct (normalize_loop cls qs [] ∅) as [subqs|e'] eqn:Hl; simpl.
    - discriminate.
    - intros [= <-]. eapply normalize_loop_raises_only_TypeError; eassumption. }
  induction q using Query_tree_ind; intros e0; try (simpl; discriminate).
  - apply (Hcompound ClsAnd qs b 0 0%float e0 H).
  - apply (Hcompound ClsOr qs b m 0%float e0 H).
  - apply (Hcompound ClsDisjunctionMax qs b 0 t e0 H).
  - simpl. destruct (normalize q) as [q'|e'] eqn:Hq; simpl.
    + destruct (is_NullQuery q'); discriminate.
    + intros [= <-]. apply IHq. reflexivity.
  - simpl. unfold Wildcard_normalize, Every_with_boost.
    repeat match goal with |- context [if ?c then _ else _] => destruct c end;
      try discriminate. intros [= <-]. reflexivity.
  - simpl. destruct (normalize q1) as [a'|e1] eqn:H1; simpl.
    + destruct (normalize q2) as [b'|e2] eqn:H2; simpl.
      * destruct (is_NullQuery a' || is_NullQuery b'); discriminate.
      * intros [= <-]. apply IHq2. reflexivity.
    + intros [= <-]. apply IHq1. reflexivity.
  - simpl. destruct (normalize q1) as [a'|e1] eqn:H1; simpl.
    + destruct (normalize q2) as [b'|e2] eqn:H2; simpl.
      * destruct (is_NullQuery a'); [discriminate|].
        destruct (is_NullQuery b'); discriminate.
      * intros [= <-]. apply IHq2. reflexivity.
    + intros [= <-]. apply IHq1. reflexivity.
  - simpl. destruct (normalize q1) as [a'|e1] eqn:H1; simpl.
    + destruct (normalize q2) as [b'|e2] eqn:H2; simpl.
      * destruct (is_NullQuery a'); [discriminate|].
        destruct (is_NullQuery b'); discriminate.
      * intros [= <-]. apply IHq2. reflexivity.
    + intros [= <-]. apply IHq1. reflexivity.
Qed.

Lemma split_subs_mapM_nonempty {B : Type} (f : Query -> result B)
  (qs : list Query) (r : list B) :
  split_subs qs <> [] -> mapM f (split_subs qs) = Ok r -> r <> [].
Proof.
  intros Hne Hr Heq. subst r. apply mapM_length in Hr.
  destruct (split_subs qs); [congruence | discriminate].
Qed.

(** C3 (the code breaks it): for an [And], [Or] or [DisjunctionMax]
    with at least one child that is not a [Not] and at least one [Not]
    child, [simplify(reader)] returns no query at all: it raises.  When
    the positive children simplify, the exception is the [TypeError] of
    the call [Or(nots).normalize().simplify()], which passes no reader.
    With no child that is not a [Not] the result is [NullQuery]. *)
Theorem simplify_with_Not_children_raises `{Support} (ixreader : IndexReader)
  (cls : CompoundClass) (qs : list Query) (b : float) (m : Z) (t : float) :
  (split_subs qs <> [] -> split_nots qs <> [] ->
   (exists e, simplify ixreader (compound_query cls qs b m t) = Raise e)
   /\ (forall simplified,
         mapM (simplify ixreader) (split_subs qs) = Ok simplified ->
         simplify ixreader (compound_query cls qs b m t) = Raise TypeError))
  /\ (split_subs qs = [] ->
      simplify ixreader (compound_query cls qs b m t) = Ok NullQuery).
Proof.
  rewrite simplify_compound. split.
  - intros Hsubs Hnots.
    assert (Hraise : forall simplified,
      mapM (simplify ixreader) (split_subs qs) = Ok simplified ->
      CompoundQuery_simplify_finish (SimplifyNary cls) simplified
        (split_nots qs) b = Raise TypeError).
    { intros simplified Hs.
      pose proof (split_subs_mapM_nonempty _ _ _ Hsubs Hs) as Hne.
      unfold CompoundQuery_simplify_finish.
      destruct simplified as [|s0 srest]; [congruence|].
      destruct (split_nots qs) as [|n0 nrest] eqn:Hn; [congruence|].
      remember (normalize (Or (n0 :: nrest) default_boost default_minmatch))
        as nr eqn:Hnorm.
      destruct nr as [n|e]; cbn [construct_simplified bind];
        [reflexivity|].
      f_equal. eapply normalize_raises_only_TypeError. symmetry; eassumption. }
    split.
    + destruct (mapM (simplify ixreader) (split_subs qs)) as [simplified|e]
        eqn:Hs; simpl; [|eauto].
      exists TypeError. apply Hraise. reflexivity.
    + intros simplified Hs. rewrite Hs. simpl. apply Hraise. assumption.
  - intros ->. reflexivity.
Qed.

Lemma simplify_with_Not_children_raises_witness :
  split_subs [term_a; Not term_b default_boost] <> []
  /\ split_nots [term_a; Not term_b default_boost] <> []
  /\ @simplify no_support empty_reader a_and_not_b = Raise TypeError.
Proof.
  assert (H1 : split_subs [term_a; Not term_b default_boost] <> [])
    by discriminate.
  assert (H2 : split_nots [term_a; Not term_b default_boost] <> [])
    by discriminate.
  split; [exact H1|]. split; [exact H2|].
  exact (proj2 (proj1 (@simplify_with_Not_children_raises no_support
                         empty_reader ClsAnd
                         [term_a; Not term_b default_boost]
                         default_boost 0 default_tiebreak) H1 H2)
           [term_a] eq_refl).
Defined.

(** ** Where [TermNotFound] is caught *)

Lemma docs_inherited `{Support} `{Matching} (searcher : Searcher) (q : Query)
  (e : option BitVector) :
  inherits_Query_docs q = true ->
  docs searcher q e = Query_docs (matcher searcher q e).
Proof. destruct q; simpl; try discriminate; reflexivity. Qed.

(** ** Term extraction *)

Lemma all_terms_into_compound (qs : list Query) (ts : gset TermsetItem)
  (phrases : bool) :
  (forall b, all_terms_into (And qs b) ts phrases
             = all_terms_each qs ts phrases)
  /\ (forall b m, all_terms_into (Or qs b m) ts phrases
                  = all_terms_each qs ts phrases)
  /\ (forall b t, all_terms_into (DisjunctionMax qs b t) ts phrases
                  = all_terms_each qs ts phrases).
Proof.
  assert (Heach : forall l ts0,
    (fix each (subqueries : list Query) (termset : gset TermsetItem)
       : result (gset TermsetItem) :=
       match subqueries with
       | [] => Ok termset
       | s :: rest =>
           let* termset' := all_terms_into s termset phrases in
           each rest termset'
       end) l ts0 = all_terms_each l ts0 phrases).
  { induction l as [|s rest IH]; intros ts0; simpl; [reflexivity|].
    destruct (all_terms_into s ts0 phrases); simpl; [apply IH | reflexivity]. }
  repeat split; intros; simpl; apply Heach.
Qed.

Lemma add_words_pairs (f : string) (ws : list string)
  (ts : gset TermsetItem) :
  (forall i, i ∈ ts -> is_pair i = true) ->
  forall i, i ∈ add_words f ws ts -> is_pair i = true.
Proof.
  unfold add_words. revert ts.
  induction ws as [|w rest IH]; intros ts Hts i; simpl; [apply Hts|].
  apply IH. intros j Hj.
  apply elem_of_union in Hj as [Hj|Hj]; [|apply Hts; exact Hj].
  apply elem_of_singleton in Hj. subst j. reflexivity.
Qed.

Lemma all_terms_into_pairs (q : Query) :
  has_Variations q = false ->
  forall (phrases : bool) (ts ts' : gset TermsetItem),
    (forall i, i ∈ ts -> is_pair i = true) ->
    all_terms_into q ts phrases = Ok ts' ->
    forall i, i ∈ ts' -> is_pair i = true.
Proof.
  assert (Heach : forall qs phrases,
    List.Forall (fun q => has_Variations q = false ->
      forall (ts ts' : gset TermsetItem),
        (forall i, i ∈ ts -> is_pair i = true) ->
        all_terms_into q ts phrases = Ok ts' ->
        forall i, i ∈ ts' -> is_pair i = true) qs ->
    List.existsb has_Variations qs = false ->
    forall ts ts',
      (forall i, i ∈ ts -> is_pair i = true) ->
      all_terms_each qs ts phrases = Ok ts' ->
      forall i, i ∈ ts' -> is_pair i = true).
  { intros qs phrases Hall. induction Hall as [|s rest Hs _ IH];
      intros Hv ts ts' Hts; simpl.
    - intros [= <-]. exact Hts.
    - simpl in Hv. apply orb_false_elim in Hv as [Hv1 Hv2].
      destruct (all_terms_into s ts phrases) as [ts1|e] eqn:H1; simpl;
        [|discriminate].
      apply (IH Hv2). eapply Hs; eassumption. }
  assert (Hadd : forall f t (ts : gset TermsetItem),
    (forall i, i ∈ ts -> is_pair i = true) ->
    forall i, i ∈ ({[ TermPair f t ]} ∪ ts : gset TermsetItem) ->
              is_pair i = true).
  { intros f t ts Hts i Hi.
    apply elem_of_union in Hi as [Hi|Hi]; [|apply Hts; exact Hi].
    apply elem_of_singleton in Hi. subst i. reflexivity. }
  induction q using Query_tree_ind; intros Hv phrases ts ts' Hts;
    try discriminate Hv;
    try (cbn [all_terms_into];
         lazymatch goal with
         | |- Ok (_ ∪ _) = Ok _ -> _ => intros [= <-]; apply Hadd; exact Hts
         | |- Ok ts = Ok _ -> _ => intros [= <-]; exact Hts
         | |- Raise _ = Ok _ -> _ => discriminate
         end).
  - rewrite (proj1 (all_terms_into_compound qs ts phrases)).
    apply Heach; [|exact Hv|exact Hts].
    eapply List.Forall_impl; [|exact H]. intros a Ha Hva; apply Ha, Hva.
  - rewrite (proj1 (proj2 (all_terms_into_compound qs ts phrases))).
    apply Heach; [|exact Hv|exact Hts].
    eapply List.Forall_impl; [|exact H]. intros a Ha Hva; apply Ha, Hva.
  - rewrite (proj2 (proj2 (all_terms_into_compound qs ts phrases))).
    apply Heach; [|exact Hv|exact Hts].
    eapply List.Forall_impl; [|exact H]. intros a Ha Hva; apply Ha, Hva.
  - simpl. apply IHq; [exact Hv|exact Hts].
  - simpl. destruct phrases; intros [= <-]; [|exact Hts].
    apply add_words_pairs; exact Hts.
  - simpl in Hv. apply orb_false_elim in Hv as [Hv1 Hv2]. simpl.
    destruct (all_terms_into q1 ts phrases) as [ts1|e] eqn:H1; simpl;
      [|discriminate].
    destruct (all_terms_into q2 ts1 phrases) as [ts2|e] eqn:H2; simpl;
      [|discriminate].
    intros [= <-]. eapply IHq2; [exact Hv2| |exact H2].
    eapply IHq1; [exact Hv1|exact Hts|exact H1].
  - simpl in Hv. apply orb_false_elim in Hv as [Hv1 Hv2]. simpl.
    destruct (all_terms_into q1 ts phrases) as [ts1|e] eqn:H1; simpl;
      [|discriminate].
    destruct (all_terms_into q2 ts1 phrases) as [ts2|e] eqn:H2; simpl;
      [|discriminate].
    intros [= <-]. eapply IHq2; [exact Hv2| |exact H2].
    eapply IHq1; [exact Hv1|exact Hts|exact H1].
  - simpl in Hv. apply orb_false_elim in Hv as [Hv1 Hv2]. simpl.
    apply IHq1; [exact Hv1|exact Hts].
Qed.

(** C7, as the code has it: [Prefix], [Wildcard] and [TermRange] add
    nothing to the term set; [FuzzyTerm] adds its own
    [(fieldname, text)]; a [Variations] leaf adds one item, which
    carries the user-supplied text; and for a tree with no [Variations]
    in it, a set that held only [(field, text)] pairs still holds only
    such pairs when [all_terms] returns. *)
Theorem all_terms_of_multiterm_leaves (ts : gset TermsetItem)
  (phrases : bool) :
  (forall f t b, all_terms_into (Prefix f t b) ts phrases = Ok ts)
  /\ (forall f t b, all_terms_into (Wildcard f t b) ts phrases = Ok ts)
  /\ (forall f s e se ee b,
        all_terms_into (TermRange f s e se ee b) ts phrases = Ok ts)
  /\ (forall f t b m p,
        all_terms_into (FuzzyTerm f t b m p) ts phrases
        = Ok ({[ TermPair f t ]} ∪ ts))
  /\ (forall f t b, exists item,
        all_terms_into (Variations f t b) ts phrases = Ok ({[ item ]} ∪ ts)
        /\ item_text item = t)
  /\ (forall q ts',
        has_Variations q = false ->
        (forall i, i ∈ ts -> is_pair i = true) ->
        all_terms_into q ts phrases = Ok ts' ->
        forall i, i ∈ ts' -> is_pair i = true).
Proof.
  repeat split.
  - intros f t b. exists (BareText t). split; reflexivity.
  - intros q ts' Hv Hts Hq. eapply all_terms_into_pairs; eassumption.
Qed.

Lemma all_terms_of_multiterm_leaves_witness :
  all_terms (And [term_a; Prefix "f" "b" default_boost] default_boost)
    None true = Ok {[ TermPair "f" "a" ]}
  /\ forall i, i ∈ ({[ TermPair "f" "a" ]} : gset TermsetItem) ->
               is_pair i = true.
Proof.
  split; [vm_compute; reflexivity|].
  pose proof (all_terms_of_multiterm_leaves ∅ true) as (_ & _ & _ & _ & _ & Hp).
  apply (Hp (And [term_a; Prefix "f" "b" default_boost] default_boost)).
  - reflexivity.
  - intros i Hi. apply not_elem_of_empty in Hi. destruct Hi.
  - vm_compute. reflexivity.
Defined.

(** C7, as stated, fails: [all_terms] on a [FuzzyTerm] adds the term
    [(fieldname, text)] to the set. *)
Lemma FuzzyTerm_all_terms_adds_its_term :
  all_terms fuzzy_a None true = Ok {[ TermPair "f" "a" ]}
  /\ TermPair "f" "a" ∈ ({[ TermPair "f" "a" ]} : gset TermsetItem)
  /\ TermPair "f" "a" ∉ (∅ : gset TermsetItem).
Proof.
  split; [vm_compute; reflexivity|]. split.
  - apply elem_of_singleton. reflexivity.
  - apply not_elem_of_empty.
Qed.

(** ** A compound with one surviving child *)

Lemma flattened_compound (cls : CompoundClass) (q : Query) (cs : list Query) :
  isinstance_compound cls q = Some cs ->
  flattened q
  = (2 <=? List.length cs)%nat
    && List.forallb (fun c => negb (is_instance cls c) && flattened c) cs.
Proof.
  destruct cls, q; simpl; try discriminate; intros [= <-]; reflexivity.
Qed.

Lemma flattened_make_compound (cls : CompoundClass) (cs : list Query)
  (b : float) :
  flattened (make_compound cls cs b)
  = (2 <=? List.length cs)%nat
    && List.forallb (fun c => negb (is_instance cls c) && flattened c) cs.
Proof. destruct cls; reflexivity. Qed.

Lemma flattened_set_class_parameter (cls : CompoundClass) (q : Query)
  (m : Z) (t : float) :
  flattened (set_class_parameter cls q m t) = flattened q.
Proof. destruct cls, q; reflexivity. Qed.

Lemma set_class_parameter_other (cls : CompoundClass) (q : Query)
  (m : Z) (t : float) :
  is_instance cls q = false -> set_class_parameter cls q m t = q.
Proof. destruct cls, q; simpl; try reflexivity; discriminate. Qed.

(** One turn of the loop keeps the children flattened and not of the
    compound's class. *)
Lemma normalize_step_flattened (cls : CompoundClass) (s : Query)
  (subqs : list Query) (seen : gset (string * string)) :
  flattened s = true ->
  List.forallb (fun c => negb (is_instance cls c) && flattened c) subqs = true ->
  List.forallb (fun c => negb (is_instance cls c) && flattened c)
    (fst (normalize_step cls s subqs seen)) = true.
Proof.
  intros Hs Hsubqs. unfold normalize_step.
  destruct (is_NullQuery s); [exact Hsubqs|].
  destruct (match as_Term s with
            | Some term =>
                if bool_decide (term ∈ seen) then None
                else Some ({[term]} ∪ seen)
            | None => Some seen
            end) as [seen'|]; [|exact Hsubqs].
  destruct (isinstance_compound cls s) as [children|] eqn:Hi; simpl.
  - rewrite List.forallb_app, Hsubqs. simpl.
    rewrite (flattened_compound cls s children Hi) in Hs.
    apply andb_prop in Hs as [_ Hs]. exact Hs.
  - rewrite List.forallb_app, Hsubqs. simpl.
    unfold is_instance. rewrite Hi, Hs. reflexivity.
Qed.

Lemma normalize_loop_flattened (cls : CompoundClass) (qs : list Query) :
  List.Forall (fun q => forall nq, normalize q = Ok nq -> flattened nq = true)
    qs ->
  forall subqs seen r,
    List.forallb (fun c => negb (is_instance cls c) && flattened c) subqs
    = true ->
    normalize_loop cls qs subqs seen = Ok r ->
    List.forallb (fun c => negb (is_instance cls c) && flattened c) r = true.
Proof.
  induction 1 as [|s rest Hs _ IH]; intros subqs seen r Hsubqs; simpl.
  - intros [= <-]. exact Hsubqs.
  - destruct (is_NullQuery s); [apply IH; exact Hsubqs|].
    destruct (normalize s) as [s'|e] eqn:Hn; simpl; [|discriminate].
    pose proof (normalize_step_flattened cls s' subqs seen (Hs s' eq_refl)
                  Hsubqs) as Hstep.
    destruct (normalize_step cls s' subqs seen) as [subqs' seen'].
    apply IH. exact Hstep.
Qed.

(** What [normalize] returns is flattened. *)
Lemma normalize_flattened (q nq : Query) :
  normalize q = Ok nq -> flattened nq = true.
Proof.
  revert nq.
  assert (Hcompound : forall cls qs b m t nq,
    List.Forall (fun q => forall nq, normalize q = Ok nq -> flattened nq = true)
      qs ->
    normalize (compound_query cls qs b m t) = Ok nq -> flattened nq = true).
  { intros cls qs b m t nq Hall. rewrite normalize_compound.
    destruct (normalize_loop cls qs [] ∅) as [subqs|e] eqn:Hl; simpl;
      [|discriminate].
    intros [= <-]. rewrite flattened_set_class_parameter.
    pose proof (normalize_loop_flattened cls qs Hall [] ∅ subqs eq_refl Hl)
      as Hr.
    destruct subqs as [|c [|c' rest]]; [reflexivity| |].
    - simpl in Hr |- *. rewrite andb_true_r in Hr.
      apply andb_prop in Hr as [_ Hr]. exact Hr.
    - unfold normalize_finish. rewrite flattened_make_compound, Hr.
      reflexivity. }
  induction q using Query_tree_ind; intros nq;
    try (simpl; intros [= <-]; reflexivity).
  - apply (Hcompound ClsAnd qs b 0 0%float nq H).
  - apply (Hcompound ClsOr qs b m 0%float nq H).
  - apply (Hcompound ClsDisjunctionMax qs b 0 t nq H).
  - simpl. destruct (normalize q) as [q'|e]; simpl; [|discriminate].
    destruct (is_NullQuery q'); intros [= <-]; reflexivity.
  - simpl. unfold Wildcard_normalize, Every_with_boost.
    repeat match goal with |- context [if ?c then _ else _] => destruct c end;
      try discriminate; intros [= <-]; reflexivity.
  - simpl. unfold TermRange_normalize.
    destruct (String.eqb s e); intros [= <-]; reflexivity.
  - simpl. unfold Phrase_normalize.
    destruct ws as [|w [|w' rest]]; intros [= <-]; reflexivity.
  - simpl. destruct (normalize q1) as [a'|e1]; simpl; [|discriminate].
    destruct (normalize q2) as [b'|e2]; simpl; [|discriminate].
    destruct (is_NullQuery a' || is_NullQuery b'); intros [= <-]; reflexivity.
  - simpl. destruct (normalize q1) as [a'|e1] eqn:H1; simpl; [|discriminate].
    destruct (normalize q2) as [b'|e2]; simpl; [|discriminate].
    destruct (is_NullQuery a'); [intros [= <-]; reflexivity|].
    destruct (is_NullQuery b'); intros [= <-]; [|reflexivity].
    apply IHq1. reflexivity.
  - simpl. destruct (normalize q1) as [a'|e1] eqn:H1; simpl; [|discriminate].
    destruct (normalize q2) as [b'|e2]; simpl; [|discriminate].
    destruct (is_NullQuery a'); [intros [= <-]; reflexivity|].
    destruct (is_NullQuery b'); intros [= <-]; [|reflexivity].
    apply IHq1. reflexivity.
Qed.

(** A single survivor is the normalized form of one of the children. *)
Lemma normalize_loop_single (cls : CompoundClass) (qs : list Query)
  (c : Query) :
  forall subqs seen,
    normalize_loop cls qs subqs seen = Ok [c] ->
    subqs = [c]
    \/ (subqs = [] /\ exists s, List.In s qs /\ normalize s = Ok c).
Proof.
  induction qs as [|s rest IH]; intros subqs seen; simpl.
  - intros [= ->]. left; reflexivity.
  - destruct (is_NullQuery s) eqn:Hnull.
    { intros Hl. destruct (IH _ _ Hl) as [->|[-> (s0 & Hin & Hs0)]];
        [left; reflexivity|].
      right. split; [reflexivity|]. exists s0. auto. }
    destruct (normalize s) as [s'|e] eqn:Hn; simpl; [|discriminate].
    pose proof (normalize_flattened s s' Hn) as Hflat.
    unfold normalize_step.
    destruct (is_NullQuery s').
    { intros Hl. destruct (IH _ _ Hl) as [->|[-> (s0 & Hin & Hs0)]];
        [left; reflexivity|].
      right. split; [reflexivity|]. exists s0. auto. }
    destruct (match as_Term s' with
              | Some term =>
                  if bool_decide (term ∈ seen) then None
                  else Some ({[term]} ∪ seen)
              | None => Some seen
              end) as [seen'|].
    2:{ intros Hl. destruct (IH _ _ Hl) as [->|[-> (s0 & Hin & Hs0)]];
          [left; reflexivity|].
        right. split; [reflexivity|]. exists s0. auto. }
    destruct (isinstance_compound cls s') as [children|] eqn:Hi.
    + intros Hl. destruct (IH _ _ Hl) as [Heq|[Heq (s0 & Hin & Hs0)]].
      * rewrite (flattened_compound cls s' children Hi) in Hflat.
        apply andb_prop in Hflat as [Hlen _].
        apply Nat.leb_le in Hlen.
        apply (f_equal (@List.length Query)) in Heq.
        rewrite List.length_app in Heq. simpl in Heq. lia.
      * apply List.app_eq_nil in Heq as [-> _].
        right. split; [reflexivity|]. exists s0. auto.
    + intros Hl. destruct (IH _ _ Hl) as [Heq|[Heq (s0 & Hin & Hs0)]].
      * destruct subqs as [|x [|y l]]; simpl in Heq.
        -- injection Heq as ->. right. split; [reflexivity|].
           exists s. split; [left; reflexivity|exact Hn].
        -- discriminate.
        -- discriminate.
      * apply List.app_eq_nil in Heq as [-> _].
        right. split; [reflexivity|]. exists s0. auto.
Qed.

(** C9: when the loop of [CompoundQuery.normalize] leaves exactly one
    surviving child [c] in an [And], [Or] or [DisjunctionMax], then
    [normalize] returns [c], whatever the compound's boost, [minmatch]
    or [tiebreak]: none of them is applied to or recorded on the
    result; and [c] is the normalized form of one of the children. *)
Theorem single_survivor_is_returned (cls : CompoundClass) (qs : list Query)
  (c : Query) :
  surviving_children cls qs = Ok [c] ->
  (forall b m t, normalize (compound_query cls qs b m t) = Ok c)
  /\ (exists s, List.In s qs /\ normalize s = Ok c).
Proof.
  unfold surviving_children. intros Hl. split.
  - intros b m t. rewrite normalize_compound, Hl. simpl.
    f_equal. apply set_class_parameter_other.
    assert (Hall : List.Forall
      (fun q => forall nq, normalize q = Ok nq -> flattened nq = true) qs).
    { apply List.Forall_forall. intros q _ nq. apply normalize_flattened. }
    pose proof (normalize_loop_flattened cls qs Hall [] ∅ [c] eq_refl Hl)
      as Hr.
    simpl in Hr. rewrite andb_true_r in Hr.
    apply andb_prop in Hr as [Hr _].
    destruct (is_instance cls c); [discriminate|reflexivity].
  - destruct (normalize_loop_single cls qs c [] ∅ Hl)
      as [Heq|[_ Hex]]; [discriminate|exact Hex].
Qed.

Lemma single_survivor_is_returned_witness :
  surviving_children ClsOr [term_a; NullQuery; term_a] = Ok [term_a]
  /\ normalize boosted_single = Ok term_a.
Proof.
  assert (Hs : surviving_children ClsOr [term_a; NullQuery; term_a]
               = Ok [term_a]) by (vm_compute; reflexivity).
  split; [exact Hs|].
  exact (proj1 (single_survivor_is_returned ClsOr _ term_a Hs)
           2.0%float 3 default_tiebreak).
Defined.

(** ** Merging term statistics across segments *)

Module ReadingProperties.
Import Reading.

Lemma sum_of_total (l : list Z) : sum_of l = total l.
Proof.
  unfold sum_of.
  assert (H : forall acc, List.fold_left Z.add l acc = acc + total l).
  { induction l as [|x rest IH]; intros acc; simpl; [lia|].
    rewrite IH. lia. }
  rewrite H. lia.
Qed.













(** A single segment whose postings have no length: its statistics
    come back with the minimal length unset and the ids moved by the
    doc offset. *)
Lemma single_segment_without_lengths :
  MultiReader_term_info (MultiReader_init [segment_without_lengths]) "f" "a"
  = Ok {| _weight := 1; _df := 1; _minlength := None; _maxlength := 0;
          _maxweight := 1; _minid := Some 3; _maxid := 3 |}.
Proof. reflexivity. Qed.


End ReadingProperties.

(** * Further properties of the query module *)

(** ** When [normalize] raises *)

(** X1: [normalize] raises exactly on the trees that hold a [Wildcard]
    with the text ["*"], and what it raises is the [TypeError] of
    [Every(boost=...)]; on every other tree it returns a query. *)
Theorem normalize_raises_on_glob_star (q : Query) :
  if has_glob_star q then normalize q = Raise TypeError
  else exists nq, normalize q = Ok nq.
Proof. apply normalize_glob_star. Qed.

(** ** The shape of a normal form *)

Lemma existsb_false_forallb {A : Type} (f : A -> bool) (l : list A) :
  List.existsb f l = false -> List.forallb (fun x => negb (f x)) l = true.
Proof.
  induction l as [|x rest IH]; cbn; [reflexivity|].
  intros H. apply orb_false_elim in H as [-> H]. cbn. apply IH, H.
Qed.

Lemma forallb_existsb_false {A : Type} (f : A -> bool) (l : list A) :
  List.forallb (fun x => negb (f x)) l = true -> List.existsb f l = false.
Proof.
  induction l as [|x rest IH]; cbn; [reflexivity|].
  intros H. apply andb_prop in H as [Hx H].
  apply negb_true_iff in Hx. rewrite Hx. cbn. apply IH, H.
Qed.

Lemma mentions_NullQuery_children (cls : CompoundClass) (s : Query)
  (children : list Query) :
  isinstance_compound cls s = Some children ->
  mentions_NullQuery s = List.existsb mentions_NullQuery children.
Proof. destruct cls, s; cbn; try discriminate; intros [= <-]; reflexivity. Qed.

Lemma mentions_NullQuery_root (q : Query) :
  mentions_NullQuery q = false -> is_NullQuery q = false.
Proof. destruct q; cbn; congruence. Qed.

Lemma normalize_step_null_free (cls : CompoundClass) (s : Query)
  (subqs : list Query) (seen : gset (string * string)) :
  is_NullQuery s || negb (mentions_NullQuery s) = true ->
  List.forallb (fun c => negb (mentions_NullQuery c)) subqs = true ->
  List.forallb (fun c => negb (mentions_NullQuery c))
    (fst (normalize_step cls s subqs seen)) = true.
Proof.
  intros Hs Hsubqs. unfold normalize_step.
  destruct (is_NullQuery s); [exact Hsubqs|]. cbn [orb] in Hs.
  apply negb_true_iff in Hs.
  destruct (match as_Term s with
            | Some term =>
                if bool_decide (term ∈ seen) then None
                else Some ({[term]} ∪ seen)
            | None => Some seen
            end) as [seen'|]; [|exact Hsubqs].
  destruct (isinstance_compound cls s) as [children|] eqn:Hi; cbn [fst];
    rewrite List.forallb_app, Hsubqs; cbn [andb].
  - apply existsb_false_forallb.
    rewrite <- (mentions_NullQuery_children cls s children Hi). exact Hs.
  - cbn. rewrite Hs. reflexivity.
Qed.

Lemma normalize_loop_null_free (cls : CompoundClass) (qs : list Query) :
  List.Forall
    (fun q => forall nq, normalize q = Ok nq ->
                         is_NullQuery nq || negb (mentions_NullQuery nq) = true)
    qs ->
  forall subqs seen r,
    List.forallb (fun c => negb (mentions_NullQuery c)) subqs = true ->
    normalize_loop cls qs subqs seen = Ok r ->
    List.forallb (fun c => negb (mentions_NullQuery c)) r = true.
Proof.
  induction 1 as [|s rest Hs _ IH]; intros subqs seen r Hsubqs;
    cbn [normalize_loop].
  - intros [= <-]. exact Hsubqs.
  - destruct (is_NullQuery s); [apply IH; exact Hsubqs|].
    destruct (normalize s) as [s'|e] eqn:Hn; cbn [bind]; [|discriminate].
    pose proof (normalize_step_null_free cls s' subqs seen (Hs s' eq_refl)
                  Hsubqs) as Hstep.
    destruct (normalize_step cls s' subqs seen) as [subqs' seen'].
    apply IH. exact Hstep.
Qed.

Lemma mentions_NullQuery_set_class_parameter (cls : CompoundClass)
  (q : Query) (m : Z) (t : float) :
  mentions_NullQuery (set_class_parameter cls q m t) = mentions_NullQuery q.
Proof. destruct cls, q; reflexivity. Qed.

Lemma is_NullQuery_set_class_parameter (cls : CompoundClass)
  (q : Query) (m : Z) (t : float) :
  is_NullQuery (set_class_parameter cls q m t) = is_NullQuery q.
Proof. destruct cls, q; reflexivity. Qed.

Lemma mentions_NullQuery_make_compound (cls : CompoundClass)
  (qs : list Query) (b : float) :
  mentions_NullQuery (make_compound cls qs b)
  = List.existsb mentions_NullQuery qs.
Proof. destruct cls; reflexivity. Qed.

(** What [normalize] returns is [NullQuery] or a tree that holds no
    [NullQuery]. *)
Lemma normalize_null_free (q nq : Query) :
  normalize q = Ok nq ->
  is_NullQuery nq || negb (mentions_NullQuery nq) = true.
Proof.
  revert nq.
  assert (Hcompound : forall cls qs b m t nq,
    List.Forall
      (fun q => forall nq, normalize q = Ok nq ->
                           is_NullQuery nq || negb (mentions_NullQuery nq) = true)
      qs ->
    normalize (compound_query cls qs b m t) = Ok nq ->
    is_NullQuery nq || negb (mentions_NullQuery nq) = true).
  { intros cls qs b m t nq Hall. rewrite normalize_compound.
    destruct (normalize_loop cls qs [] ∅) as [subqs|e] eqn:Hl; cbn [bind];
      [|discriminate].
    intros [= <-].
    rewrite is_NullQuery_set_class_parameter,
      mentions_NullQuery_set_class_parameter.
    pose proof (normalize_loop_null_free cls qs Hall [] ∅ subqs eq_refl Hl)
      as Hr.
    destruct subqs as [|c [|c' rest]]; [reflexivity| |].
    - cbn in Hr |- *. rewrite andb_true_r in Hr. rewrite Hr.
      apply orb_true_r.
    - unfold normalize_finish. rewrite mentions_NullQuery_make_compound.
      rewrite (forallb_existsb_false _ _ Hr). apply orb_true_r. }
  assert (Hnonnull : forall x, is_NullQuery x = false ->
    is_NullQuery x || negb (mentions_NullQuery x) = true ->
    mentions_NullQuery x = false).
  { intros x Hx H. rewrite Hx in H. cbn in H. apply negb_true_iff, H. }
  induction q using Query_tree_ind; intros nq;
    try (cbn; intros [= <-]; reflexivity).
  - apply (Hcompound ClsAnd qs b 0 0%float nq H).
  - apply (Hcompound ClsOr qs b m 0%float nq H).
  - apply (Hcompound ClsDisjunctionMax qs b 0 t nq H).
  - cbn [normalize]. destruct (normalize q) as [q'|e]; cbn [bind];
      [|discriminate].
    destruct (is_NullQuery q') eqn:Hq; intros [= <-]; [reflexivity|].
    cbn. rewrite (Hnonnull q' Hq (IHq q' eq_refl)). reflexivity.
  - cbn [normalize]. unfold Wildcard_normalize, Every_with_boost.
    repeat match goal with |- context [if ?c then _ else _] => destruct c end;
      try discriminate; intros [= <-]; reflexivity.
  - cbn [normalize]. unfold TermRange_normalize.
    destruct (String.eqb s e); intros [= <-]; reflexivity.
  - cbn [normalize]. unfold Phrase_normalize.
    destruct ws as [|w [|w' rest]]; intros [= <-]; reflexivity.
  - cbn [normalize]. destruct (normalize q1) as [a'|e1]; cbn [bind];
      [|discriminate].
    destruct (normalize q2) as [b'|e2]; cbn [bind]; [|discriminate].
    destruct (is_NullQuery a') eqn:Ha; cbn [orb];
      [intros [= <-]; reflexivity|].
    destruct (is_NullQuery b') eqn:Hb; intros [= <-]; [reflexivity|].
    cbn. rewrite (Hnonnull a' Ha (IHq1 a' eq_refl)),
      (Hnonnull b' Hb (IHq2 b' eq_refl)). reflexivity.
  - cbn [normalize]. destruct (normalize q1) as [a'|e1]; cbn [bind];
      [|discriminate].
    destruct (normalize q2) as [b'|e2]; cbn [bind]; [|discriminate].
    destruct (is_NullQuery a') eqn:Ha; [intros [= <-]; reflexivity|].
    destruct (is_NullQuery b') eqn:Hb; intros [= <-].
    + apply IHq1. reflexivity.
    + cbn. rewrite (Hnonnull a' Ha (IHq1 a' eq_refl)),
        (Hnonnull b' Hb (IHq2 b' eq_refl)). reflexivity.
  - cbn [normalize]. destruct (normalize q1) as [a'|e1]; cbn [bind];
      [|discriminate].
    destruct (normalize q2) as [b'|e2]; cbn [bind]; [|discriminate].
    destruct (is_NullQuery a') eqn:Ha; [intros [= <-]; reflexivity|].
    destruct (is_NullQuery b') eqn:Hb; intros [= <-].
    + apply IHq1. reflexivity.
    + cbn. rewrite (Hnonnull a' Ha (IHq1 a' eq_refl)),
        (Hnonnull b' Hb (IHq2 b' eq_refl)). reflexivity.
Qed.

(** X2: a query that [normalize] returns is either [NullQuery] itself
    or a tree in which [NullQuery] does not occur, and each [And], [Or]
    and [DisjunctionMax] that it reaches from the root through such
    compounds has at least two children, none of them of its own
    class. *)
Theorem normalize_result_shape (q nq : Query) :
  normalize q = Ok nq ->
  (nq = NullQuery \/ mentions_NullQuery nq = false)
  /\ flattened nq = true.
Proof.
  intros Hn. split; [|exact (normalize_flattened q nq Hn)].
  pose proof (normalize_null_free q nq Hn) as H.
  destruct (is_NullQuery nq) eqn:Hnull.
  - left. destruct nq; try discriminate Hnull. reflexivity.
  - right. cbn in H. apply negb_true_iff, H.
Qed.

Lemma normalize_result_shape_witness :
  normalize (And [term_a; NullQuery; And [term_b; term_c] 2.0%float;
                  Phrase "f" [] default_slop default_boost] default_boost)
  = Ok (And [term_a; term_b; term_c] default_boost)
  /\ mentions_NullQuery (And [term_a; term_b; term_c] default_boost) = false
  /\ flattened (And [term_a; term_b; term_c] default_boost) = true.
Proof.
  assert (Hn : normalize (And [term_a; NullQuery;
                               And [term_b; term_c] 2.0%float;
                               Phrase "f" [] default_slop default_boost]
                            default_boost)
               = Ok (And [term_a; term_b; term_c] default_boost))
    by (vm_compute; reflexivity).
  split; [exact Hn|].
  destruct (normalize_result_shape _ _ Hn) as [[Hnull|Hfree] Hflat].
  - discriminate Hnull.
  - split; assumption.
Defined.

(** ** Compounds nested in a compound of their own class *)

Lemma normalize_all_flattened (qs : list Query) :
  List.Forall
    (fun q => forall nq, normalize q = Ok nq -> flattened nq = true) qs.
Proof. apply List.Forall_forall. intros q _ nq. apply normalize_flattened. Qed.

Lemma normalize_all_null_free (qs : list Query) :
  List.Forall
    (fun q => forall nq, normalize q = Ok nq ->
                         is_NullQuery nq || negb (mentions_NullQuery nq) = true)
    qs.
Proof. apply List.Forall_forall. intros q _ nq. apply normalize_null_free. Qed.

(** A query that is neither [NullQuery] nor of the compound's class is
    appended by one turn of the loop that starts with nothing seen. *)
Lemma normalize_step_first (cls : CompoundClass) (c : Query) :
  is_NullQuery c = false -> is_instance cls c = false ->
  fst (normalize_step cls c [] ∅) = [c].
Proof.
  intros Hnull Hinst. unfold normalize_step. rewrite Hnull.
  unfold is_instance in Hinst.
  destruct (as_Term c) as [term|].
  - rewrite bool_decide_eq_false_2 by apply not_elem_of_empty.
    destruct (isinstance_compound cls c); [discriminate|reflexivity].
  - destruct (isinstance_compound cls c); [discriminate|reflexivity].
Qed.

(** X3: an [And] whose only child is an [And] (an [Or] in an [Or], a
    [DisjunctionMax] in a [DisjunctionMax]) normalizes as the outer
    compound would with the inner children as its own: the boost,
    [minmatch] and [tiebreak] of the inner compound are discarded. *)
Theorem nested_same_class_compound (cls : CompoundClass) (qs : list Query)
  (b' b : float) (m' m : Z) (t' t : float) :
  normalize (compound_query cls [compound_query cls qs b' m' t'] b m t)
  = normalize (compound_query cls qs b m t).
Proof.
  rewrite (normalize_compound cls [compound_query cls qs b' m' t']).
  cbn [normalize_loop].
  replace (is_NullQuery (compound_query cls qs b' m' t')) with false
    by (destruct cls; reflexivity).
  rewrite !normalize_compound.
  destruct (normalize_loop cls qs [] ∅) as [subqs|e] eqn:Hl; cbn [bind];
    [|reflexivity].
  pose proof (normalize_loop_flattened cls qs (normalize_all_flattened qs)
                [] ∅ subqs eq_refl Hl) as Hflat.
  pose proof (normalize_loop_null_free cls qs (normalize_all_null_free qs)
                [] ∅ subqs eq_refl Hl) as Hfree.
  destruct subqs as [|c [|c' rest]].
  - destruct cls; reflexivity.
  - cbn in Hflat, Hfree. rewrite andb_true_r in Hflat, Hfree.
    apply andb_prop in Hflat as [Hinst _].
    apply negb_true_iff in Hinst, Hfree.
    cbn [normalize_finish].
    rewrite (set_class_parameter_other cls c m' t' Hinst).
    pose proof (normalize_step_first cls c
                  (mentions_NullQuery_root c Hfree) Hinst) as Hstep.
    destruct (normalize_step cls c [] ∅) as [subqs' seen'].
    cbn [fst] in Hstep. subst subqs'. reflexivity.
  - cbn [normalize_finish].
    assert (Hstep : fst (normalize_step cls
                (set_class_parameter cls
                   (make_compound cls (c :: c' :: rest) b') m' t') [] ∅)
              = c :: c' :: rest) by (destruct cls; reflexivity).
    destruct (normalize_step cls _ [] ∅) as [subqs' seen'].
    cbn [fst] in Hstep. subst subqs'. reflexivity.
Qed.

(** ** Children that normalize to [NullQuery] *)

Lemma normalize_step_NullQuery (cls : CompoundClass) (subqs : list Query)
  (seen : gset (string * string)) :
  normalize_step cls NullQuery subqs seen = (subqs, seen).
Proof. reflexivity. Qed.

Lemma normalize_loop_drop_null (cls : CompoundClass) (s : Query)
  (l1 l2 : list Query) :
  normalize s = Ok NullQuery ->
  forall subqs seen,
    normalize_loop cls (l1 ++ s :: l2) subqs seen
    = normalize_loop cls (l1 ++ l2) subqs seen.
Proof.
  intros Hs. induction l1 as [|x l1 IH]; intros subqs seen;
    cbn [app normalize_loop].
  - destruct (is_NullQuery s); [reflexivity|].
    rewrite Hs. cbn [bind]. rewrite normalize_step_NullQuery. reflexivity.
  - destruct (is_NullQuery x); [apply IH|].
    destruct (normalize x) as [x'|e]; cbn [bind]; [|reflexivity].
    destruct (normalize_step cls x' subqs seen) as [subqs' seen'].
    apply IH.
Qed.

Lemma normalize_compound_drop_null (cls : CompoundClass) (s : Query)
  (l1 l2 : list Query) (b : float) (m : Z) (t : float) :
  normalize s = Ok NullQuery ->
  normalize (compound_query cls (l1 ++ s :: l2) b m t)
  = normalize (compound_query cls (l1 ++ l2) b m t).
Proof.
  intros Hs. rewrite !normalize_compound.
  rewrite (normalize_loop_drop_null cls s l1 l2 Hs). reflexivity.
Qed.

(** X4: a child whose own normal form is [NullQuery] (the [NullQuery]
    object, an empty [And], a [Phrase] with no word, ...) has no effect
    on the normal form of an [And], [Or] or [DisjunctionMax]: the
    compound normalizes as it does without that child. *)
Theorem null_children_are_dropped (cls : CompoundClass) (s : Query)
  (l1 l2 : list Query) (b : float) (m : Z) (t : float) :
  normalize s = Ok NullQuery ->
  normalize (compound_query cls (l1 ++ s :: l2) b m t)
  = normalize (compound_query cls (l1 ++ l2) b m t).
Proof.
  apply normalize_compound_drop_null.
Qed.

Lemma null_children_are_dropped_witness :
  normalize (Or [term_a; Phrase "f" [] default_slop default_boost; term_b]
               default_boost 2)
  = normalize (Or [term_a; term_b] default_boost 2).
Proof.
  exact (null_children_are_dropped ClsOr
           (Phrase "f" [] default_slop default_boost) [term_a] [term_b]
           default_boost 2 default_tiebreak eq_refl).
Defined.

(** ** The operators [&], [|] and [-] *)

Lemma normalize_single_child (cls : CompoundClass) (q nq : Query)
  (b : float) (m : Z) (t : float) :
  normalize q = Ok nq -> is_instance cls nq = false ->
  normalize (compound_query cls [q] b m t) = Ok nq.
Proof.
  intros Hq Hinst. rewrite normalize_compound. cbn [normalize_loop].
  destruct (is_NullQuery q) eqn:Hnull.
  - destruct q; try discriminate Hnull. cbn in Hq. injection Hq as <-.
    destruct cls; reflexivity.
  - rewrite Hq. cbn [bind].
    destruct (is_NullQuery nq) eqn:Hnq.
    + destruct nq; try discriminate Hnq. cbn. destruct cls; reflexivity.
    + pose proof (normalize_step_first cls nq Hnq Hinst) as Hstep.
      destruct (normalize_step cls nq [] ∅) as [subqs' seen'].
      cbn [fst] in Hstep. subst subqs'. cbn [bind normalize_finish].
      rewrite (set_class_parameter_other cls nq m t Hinst). reflexivity.
Qed.

(** X5: [NullQuery] is neutral for the operators.  For a query [q]
    whose normal form [nq] is not an [And], both [q & NullQuery] and
    [NullQuery & q] are [nq], and so is [q - NullQuery]; when [nq] is
    not an [Or], [q | NullQuery] and [NullQuery | q] are [nq]; and
    [NullQuery - q] is [Not(nq)], or [NullQuery] when [nq] is. *)
Theorem NullQuery_is_neutral_for_operators (q nq : Query) :
  normalize q = Ok nq ->
  (is_instance ClsAnd nq = false ->
   Query_and q NullQuery = Ok nq /\ Query_and NullQuery q = Ok nq
   /\ Query_sub q NullQuery = Ok nq)
  /\ (is_instance ClsOr nq = false ->
      Query_or q NullQuery = Ok nq /\ Query_or NullQuery q = Ok nq)
  /\ Query_sub NullQuery q
     = Ok (if is_NullQuery nq then NullQuery else Not nq default_boost).
Proof.
  intros Hq. split; [|split].
  - intros Hinst. unfold Query_and, Query_sub.
    pose proof (normalize_single_child ClsAnd q nq default_boost 0
                  default_tiebreak Hq Hinst) as Hone.
    cbn [compound_query] in Hone.
    split; [|split].
    + rewrite <- Hone.
      exact (normalize_compound_drop_null ClsAnd NullQuery [q] []
               default_boost 0 default_tiebreak eq_refl).
    + rewrite <- Hone.
      exact (normalize_compound_drop_null ClsAnd NullQuery [] [q]
               default_boost 0 default_tiebreak eq_refl).
    + rewrite <- Hone.
      exact (normalize_compound_drop_null ClsAnd (Not NullQuery default_boost)
               [q] [] default_boost 0 default_tiebreak eq_refl).
  - intros Hinst. unfold Query_or.
    pose proof (normalize_single_child ClsOr q nq default_boost
                  default_minmatch default_tiebreak Hq Hinst) as Hone.
    cbn [compound_query] in Hone.
    split.
    + rewrite <- Hone.
      exact (normalize_compound_drop_null ClsOr NullQuery [q] []
               default_boost default_minmatch default_tiebreak eq_refl).
    + rewrite <- Hone.
      exact (normalize_compound_drop_null ClsOr NullQuery [] [q]
               default_boost default_minmatch default_tiebreak eq_refl).
  - unfold Query_sub.
    assert (Hnot : normalize (Not q default_boost)
                   = Ok (if is_NullQuery nq then NullQuery
                         else Not nq default_boost)).
    { cbn [normalize]. rewrite Hq. cbn [bind].
      destruct (is_NullQuery nq); reflexivity. }
    pose proof (normalize_compound_drop_null ClsAnd NullQuery []
                  [Not q default_boost] default_boost 0 default_tiebreak
                  eq_refl) as Hdrop.
    cbn [app compound_query] in Hdrop. rewrite Hdrop.
    apply (normalize_single_child ClsAnd (Not q default_boost) _
             default_boost 0 default_tiebreak Hnot).
    destruct (is_NullQuery nq); reflexivity.
Qed.

Lemma NullQuery_is_neutral_for_operators_witness :
  Query_and term_a NullQuery = Ok term_a
  /\ Query_or NullQuery term_a = Ok term_a
  /\ Query_sub NullQuery term_a = Ok (Not term_a default_boost).
Proof.
  destruct (NullQuery_is_neutral_for_operators term_a term_a eq_refl)
    as (Hand & Hor & Hsub).
  destruct (Hand eq_refl) as (H1 & _ & _).
  destruct (Hor eq_refl) as (_ & H2).
  split; [exact H1|]. split; [exact H2|exact Hsub].
Defined.

(** ** [BooleanQuery] *)

(** X6: [BooleanQuery] with no required clause is [NullQuery], whatever
    the optional and the prohibited clauses are (unless their
    normalization raises); with only required clauses it is the normal
    form of their [And]. *)
Theorem BooleanQuery_edge_cases :
  (forall should prohibited : list Query,
      BooleanQuery [] should prohibited
      = (let* _ := normalize (Or should default_boost default_minmatch) in
         let* _ := normalize (Or prohibited default_boost default_minmatch) in
         Ok NullQuery))
  /\ (forall required : list Query,
        BooleanQuery required [] []
        = normalize (And required default_boost)).
Proof.
  split.
  - intros should prohibited. unfold BooleanQuery.
    change (normalize (AndNot ?p ?n ?b))
      with (let* pos := normalize p in
            let* neg := normalize n in
            if is_NullQuery pos then Ok NullQuery
            else if is_NullQuery neg then Ok pos
            else Ok (AndNot pos neg b)).
    change (normalize (AndMaybe ?r ?o ?b))
      with (let* required := normalize r in
            let* optional := normalize o in
            if is_NullQuery required then Ok NullQuery
            else if is_NullQuery optional then Ok required
            else Ok (AndMaybe required optional b)).
    change (normalize (And [] default_boost)) with (Ok NullQuery).
    cbn [bind].
    destruct (normalize (Or should default_boost default_minmatch));
      cbn [bind is_NullQuery]; [|reflexivity].
    destruct (normalize (Or prohibited default_boost default_minmatch));
      reflexivity.
  - intros required. unfold BooleanQuery.
    change (normalize (AndNot ?p ?n ?b))
      with (let* pos := normalize p in
            let* neg := normalize n in
            if is_NullQuery pos then Ok NullQuery
            else if is_NullQuery neg then Ok pos
            else Ok (AndNot pos neg b)).
    change (normalize (AndMaybe ?r ?o ?b))
      with (let* required := normalize r in
            let* optional := normalize o in
            if is_NullQuery required then Ok NullQuery
            else if is_NullQuery optional then Ok required
            else Ok (AndMaybe required optional b)).
    change (normalize (Or [] default_boost default_minmatch))
      with (Ok NullQuery).
    destruct (normalize (And required default_boost)) as [r|e];
      cbn [bind is_NullQuery]; [|reflexivity].
    destruct (is_NullQuery r) eqn:Hr; cbn [bind is_NullQuery].
    + destruct r; try discriminate Hr. reflexivity.
    + rewrite Hr. reflexivity.
Qed.

(** ** Duplicate terms *)

Lemma is_Term_inv (q : Query) :
  is_Term q = true -> exists f t b, q = Term f t b.
Proof. destruct q; try discriminate. eauto. Qed.

Lemma normalize_loop_Terms (cls : CompoundClass) (qs : list Query) :
  List.Forall (fun q => is_Term q = true) qs ->
  forall subqs seen,
  exists r,
    normalize_loop cls qs subqs seen = Ok (subqs ++ r)
    /\ sublist r qs
    /\ List.NoDup (List.map as_Term r)
    /\ (forall q' k, List.In q' r -> as_Term q' = Some k -> k ∉ seen)
    /\ (forall q, List.In q qs ->
          (exists k, as_Term q = Some k /\ k ∈ seen)
          \/ exists q', List.In q' r /\ as_Term q' = as_Term q)
    /\ (forall q', List.In q' r ->
          exists l1 l2, qs = l1 ++ q' :: l2
                        /\ forall x, List.In x l1 -> as_Term x <> as_Term q').
Proof.
  induction 1 as [|s rest Hs Hrest IH]; intros subqs seen.
  - exists []. cbn [normalize_loop]. rewrite List.app_nil_r.
    repeat split; try constructor; intros; contradiction.
  - destruct (is_Term_inv s Hs) as (f & t & b & ->).
    cbn [normalize_loop is_NullQuery normalize bind].
    unfold normalize_step. cbn [is_NullQuery as_Term].
    destruct (bool_decide (((f, t) : string * string) ∈ seen)) eqn:Hseen.
    + apply bool_decide_eq_true in Hseen.
      destruct (IH subqs seen) as (r & Hl & Hsub & Hnd & Hfresh & Hcov & Hfirst).
      exists r. split; [exact Hl|]. split; [apply sublist_cons, Hsub|].
      split; [exact Hnd|]. split; [exact Hfresh|]. split.
      * intros q [<-|Hq]; [left; exists (f, t); split; [reflexivity|exact Hseen]|].
        apply Hcov, Hq.
      * intros q' Hq'. destruct (Hfirst q' Hq') as (l1 & l2 & -> & Hl1).
        exists (Term f t b :: l1), l2. split; [reflexivity|].
        intros x [<-|Hx]; [|apply Hl1, Hx].
        cbn [as_Term]. intros Heq.
        apply (Hfresh q' (f, t) Hq'); [symmetry; exact Heq|exact Hseen].
    + apply bool_decide_eq_false in Hseen.
      replace (isinstance_compound cls (Term f t b)) with (@None (list Query))
        by (destruct cls; reflexivity).
      destruct (IH (subqs ++ [Term f t b]) ({[(f, t)]} ∪ seen))
        as (r & Hl & Hsub & Hnd & Hfresh & Hcov & Hfirst).
      exists (Term f t b :: r).
      split; [rewrite Hl, <- List.app_assoc; reflexivity|].
      split; [apply sublist_skip, Hsub|].
      split.
      { cbn [List.map as_Term]. constructor; [|exact Hnd].
        intros Hin. apply List.in_map_iff in Hin as (q' & Hk & Hq').
        apply (Hfresh q' (f, t) Hq' Hk). set_solver. }
      split.
      { intros q' k [<-|Hq'] Hk.
        - cbn in Hk. injection Hk as <-. exact Hseen.
        - pose proof (Hfresh q' k Hq' Hk). set_solver. }
      split.
      { intros q [<-|Hq].
        - right. exists (Term f t b). split; [left; reflexivity|reflexivity].
        - destruct (Hcov q Hq) as [(k & Hk & Hin)|(q' & Hq' & Heq)].
          + apply elem_of_union in Hin as [Hin|Hin].
            * apply elem_of_singleton in Hin. subst k. right.
              exists (Term f t b). split; [left; reflexivity|].
              rewrite Hk. reflexivity.
            * left. exists k. split; assumption.
          + right. exists q'. split; [right; exact Hq'|exact Heq]. }
      intros q' [<-|Hq'].
      * exists [], rest. split; [reflexivity|]. intros x [].
      * destruct (Hfirst q' Hq') as (l1 & l2 & -> & Hl1).
        exists (Term f t b :: l1), l2. split; [reflexivity|].
        intros x [<-|Hx]; [|apply Hl1, Hx].
        cbn [as_Term]. intros Heq.
        apply (Hfresh q' (f, t) Hq'); [symmetry; exact Heq|]. set_solver.
Qed.

(** X7: when every child of an [And], [Or] or [DisjunctionMax] is a
    [Term], the loop of [normalize] keeps, in their order, exactly the
    first [Term] of each [(fieldname, text)]: the survivors are a
    subsequence of the children, no two of them have the same
    [(fieldname, text)], every child's [(fieldname, text)] is that of a
    survivor, and no child before a survivor has its
    [(fieldname, text)].  The boost plays no part in the comparison. *)
Theorem duplicate_Terms_keep_the_first (cls : CompoundClass)
  (qs : list Query) :
  List.Forall (fun q => is_Term q = true) qs ->
  exists r,
    surviving_children cls qs = Ok r
    /\ sublist r qs
    /\ List.NoDup (List.map as_Term r)
    /\ (forall q, List.In q qs ->
          exists q', List.In q' r /\ as_Term q' = as_Term q)
    /\ (forall q', List.In q' r ->
          exists l1 l2, qs = l1 ++ q' :: l2
                        /\ forall x, List.In x l1 -> as_Term x <> as_Term q').
Proof.
  intros Hall.
  destruct (normalize_loop_Terms cls qs Hall [] ∅)
    as (r & Hl & Hsub & Hnd & _ & Hcov & Hfirst).
  exists r. split; [exact Hl|]. split; [exact Hsub|]. split; [exact Hnd|].
  split; [|exact Hfirst].
  intros q Hq. destruct (Hcov q Hq) as [(k & _ & Hin)|Hex]; [|exact Hex].
  apply not_elem_of_empty in Hin. destruct Hin.
Qed.

Lemma duplicate_Terms_keep_the_first_witness :
  exists r,
    surviving_children ClsAnd
      [Term "f" "a" 2.0%float; term_b; Term "f" "a" 3.0%float] = Ok r
    /\ sublist r [Term "f" "a" 2.0%float; term_b; Term "f" "a" 3.0%float]
    /\ List.NoDup (List.map as_Term r)
    /\ (forall q,
          List.In q [Term "f" "a" 2.0%float; term_b; Term "f" "a" 3.0%float] ->
          exists q', List.In q' r /\ as_Term q' = as_Term q)
    /\ (forall q', List.In q' r ->
          exists l1 l2,
            [Term "f" "a" 2.0%float; term_b; Term "f" "a" 3.0%float]
            = l1 ++ q' :: l2
            /\ forall x, List.In x l1 -> as_Term x <> as_Term q').
Proof.
  apply (duplicate_Terms_keep_the_first ClsAnd
           [Term "f" "a" 2.0%float; term_b; Term "f" "a" 3.0%float]).
  repeat constructor.
Defined.

(** ** Where [all_terms] fails *)

Lemma all_terms_each_termless (phrases : bool) (qs : list Query) :
  List.Forall
    (fun q => forall ts,
       if reaches_termless q
       then all_terms_into q ts phrases = Raise AttributeError
       else exists ts', all_terms_into q ts phrases = Ok ts') qs ->
  forall ts,
    if List.existsb reaches_termless qs
    then all_terms_each qs ts phrases = Raise AttributeError
    else exists ts', all_terms_each qs ts phrases = Ok ts'.
Proof.
  induction 1 as [|s rest Hs _ IH]; intros ts;
    cbn [all_terms_each List.existsb].
  - eauto.
  - specialize (Hs ts). destruct (reaches_termless s); cbn [orb].
    + rewrite Hs. reflexivity.
    + destruct Hs as [ts' ->]. cbn [bind]. apply IH.
Qed.

(** X8: [all_terms] raises [AttributeError] exactly on the trees in
    which an [Every] or a [NullQuery] occurs outside the negative side
    of an [AndNot] (neither class has an [_all_terms] method); on
    every other tree it returns a set. *)
Theorem all_terms_fails_on_Every_and_NullQuery (q : Query)
  (ts : gset TermsetItem) (phrases : bool) :
  if reaches_termless q
  then all_terms_into q ts phrases = Raise AttributeError
  else exists ts', all_terms_into q ts phrases = Ok ts'.
Proof.
  revert ts.
  induction q using Query_tree_ind; intros ts;
    try (cbn [reaches_termless all_terms_into]; eauto; fail).
  - rewrite (proj1 (all_terms_into_compound qs ts phrases)).
    apply all_terms_each_termless, H.
  - rewrite (proj1 (proj2 (all_terms_into_compound qs ts phrases))).
    apply all_terms_each_termless, H.
  - rewrite (proj2 (proj2 (all_terms_into_compound qs ts phrases))).
    apply all_terms_each_termless, H.
  - cbn [reaches_termless all_terms_into]. apply IHq.
  - cbn [reaches_termless all_terms_into]. destruct phrases; eauto.
  - cbn [reaches_termless all_terms_into].
    specialize (IHq1 ts). destruct (reaches_termless q1); cbn [orb].
    + rewrite IHq1. reflexivity.
    + destruct IHq1 as [ts1 ->]. cbn [bind].
      specialize (IHq2 ts1). destruct (reaches_termless q2).
      * rewrite IHq2. reflexivity.
      * destruct IHq2 as [ts2 ->]. cbn [bind]. eauto.
  - cbn [reaches_termless all_terms_into].
    specialize (IHq1 ts). destruct (reaches_termless q1); cbn [orb].
    + rewrite IHq1. reflexivity.
    + destruct IHq1 as [ts1 ->]. cbn [bind].
      specialize (IHq2 ts1). destruct (reaches_termless q2).
      * rewrite IHq2. reflexivity.
      * destruct IHq2 as [ts2 ->]. cbn [bind]. eauto.
  - cbn [reaches_termless all_terms_into]. apply IHq1.
Qed.

(** ** The shape of a simplified query *)

Lemma simplified_shape_make_compound (cls : CompoundClass) (qs : list Query)
  (b : float) :
  simplified_shape (make_compound cls qs b)
  = List.forallb (fun c => negb (is_Not c) && simplified_shape c) qs.
Proof. destruct cls; reflexivity. Qed.

Lemma simplify_finish_shape (cls : SimplifyClass) (simplified nots : list Query)
  (b : float) (q' : Query) :
  List.forallb (fun c => negb (is_Not c) && simplified_shape c) simplified
  = true ->
  CompoundQuery_simplify_finish cls simplified nots b = Ok q' ->
  simplified_shape q' = true /\ is_Not q' = false.
Proof.
  intros Hall. unfold CompoundQuery_simplify_finish.
  destruct simplified as [|s0 rest]; [intros [= <-]; split; reflexivity|].
  destruct cls as [cls|]; cbn [construct_simplified bind]; [|discriminate].
  destruct nots as [|n0 nrest].
  - intros [= <-]. rewrite simplified_shape_make_compound.
    split; [exact Hall|destruct cls; reflexivity].
  - destruct (normalize (Or (n0 :: nrest) default_boost default_minmatch));
      cbn [bind simplify_without_reader]; discriminate.
Qed.

Lemma simplify_subs_shape `{Support} (ixreader : IndexReader)
  (qs : list Query) :
  List.Forall
    (fun q => forall q', simplify ixreader q = Ok q' ->
                         simplified_shape q' = true
                         /\ (is_Not q = false -> is_Not q' = false)) qs ->
  forall simplified,
    mapM (simplify ixreader) (split_subs qs) = Ok simplified ->
    List.forallb (fun c => negb (is_Not c) && simplified_shape c) simplified
    = true.
Proof.
  induction 1 as [|s rest Hs _ IH]; intros simplified.
  - intros [= <-]. reflexivity.
  - unfold split_subs. cbn [List.filter].
    destruct (as_Not s) eqn:Hnot; [apply IH|].
    cbn [mapM].
    destruct (simplify ixreader s) as [s'|e] eqn:Hsimp; cbn [bind];
      [|discriminate].
    fold (split_subs rest).
    destruct (mapM (simplify ixreader) (split_subs rest)) as [r|e];
      cbn [bind]; [|discriminate].
    intros [= <-]. cbn [List.forallb].
    destruct (Hs s' eq_refl) as [Hshape Hn].
    rewrite Hshape, Hn, (IH r eq_refl); [reflexivity|].
    unfold is_Not. rewrite Hnot. reflexivity.
Qed.

Lemma simplify_shape `{Support} (ixreader : IndexReader) (q q' : Query) :
  simplify ixreader q = Ok q' ->
  simplified_shape q' = true /\ (is_Not q = false -> is_Not q' = false).
Proof.
  revert q'.
  assert (Hcompound : forall cls qs b m t q',
    List.Forall
      (fun q => forall q', simplify ixreader q = Ok q' ->
                           simplified_shape q' = true
                           /\ (is_Not q = false -> is_Not q' = false)) qs ->
    simplify ixreader (compound_query cls qs b m t) = Ok q' ->
    simplified_shape q' = true /\ is_Not q' = false).
  { intros cls qs b m t q' Hall. rewrite simplify_compound.
    destruct (mapM (simplify ixreader) (split_subs qs)) as [simplified|e]
      eqn:Hs; cbn [bind]; [|discriminate].
    apply simplify_finish_shape.
    apply (simplify_subs_shape ixreader qs Hall simplified Hs). }
  assert (Hbinary : forall m nots b q',
    (let* simplified := m in
     CompoundQuery_simplify_finish SimplifyBinary simplified nots b) = Ok q' ->
    simplified_shape q' = true /\ is_Not q' = false).
  { intros m nots b q'. destruct m as [[|s0 rest]|e]; cbn; try discriminate.
    intros [= <-]. split; reflexivity. }
  assert (Hmulti : forall q0 f b q',
    MultiTerm_simplify ixreader q0 f b = Ok q' ->
    simplified_shape q' = true /\ is_Not q' = false).
  { intros q0 f b q'. unfold MultiTerm_simplify.
    destruct (words ixreader q0) as [ws|e]; cbn [bind]; [|discriminate].
    intros [= <-]. split; [|reflexivity]. cbn [simplified_shape].
    induction ws as [|w ws IH]; [reflexivity|]. cbn. exact IH. }
  induction q using Query_tree_ind; intros q';
    try (cbn [simplify]; intros [= <-]; split; [reflexivity|intros Hn; exact Hn]);
    try (cbn [simplify]; intros Hq; destruct (Hmulti _ _ _ _ Hq); split; auto).
  - intros Hq. destruct (Hcompound ClsAnd qs b 0 0%float q' H0 Hq). split; auto.
  - intros Hq. destruct (Hcompound ClsOr qs b m 0%float q' H0 Hq). split; auto.
  - intros Hq. destruct (Hcompound ClsDisjunctionMax qs b 0 t q' H0 Hq).
    split; auto.
  - cbn [simplify]. intros Hq. destruct (Hbinary _ _ _ _ Hq). split; auto.
  - cbn [simplify]. intros Hq. destruct (Hbinary _ _ _ _ Hq). split; auto.
Qed.

(** X9: a query that [simplify] returns holds, outside of its [Not] and
    [AndNot] nodes (into which [simplify] does not go), no multi-term
    query, no [Phrase], no [Require] and no [AndMaybe], and no [Not] as
    a child of an [And], [Or] or [DisjunctionMax]: only [Term], [Every],
    [NullQuery] and such compounds. *)
Theorem simplify_result_shape `{Support} (ixreader : IndexReader)
  (q q' : Query) :
  simplify ixreader q = Ok q' -> simplified_shape q' = true.
Proof. intros Hq. apply (simplify_shape ixreader q q' Hq). Qed.

Lemma simplify_result_shape_witness :
  @simplify no_support small_reader a_and_prefix_a
  = Ok (And [term_a;
             Or [Term "f" "ab" default_boost; Term "f" "ac" default_boost]
                default_boost default_minmatch] default_boost)
  /\ simplified_shape
       (And [term_a;
             Or [Term "f" "ab" default_boost; Term "f" "ac" default_boost]
                default_boost default_minmatch] default_boost) = true.
Proof.
  assert (Hs : @simplify no_support small_reader a_and_prefix_a
               = Ok (And [term_a;
                          Or [Term "f" "ab" default_boost;
                              Term "f" "ac" default_boost]
                             default_boost default_minmatch] default_boost))
    by reflexivity.
  split; [exact Hs|].
  exact (@simplify_result_shape no_support small_reader _ _ Hs).
Defined.

(** ** Size estimates *)

Lemma estimate_size_compound `{Support} (ixreader : IndexReader)
  (qs : list Query) :
  (forall b, estimate_size ixreader (And qs b)
             = let* ns := mapM (estimate_size ixreader) qs in py_min ns)
  /\ (forall b m, estimate_size ixreader (Or qs b m)
                  = let* ns := mapM (estimate_size ixreader) qs in
                    Ok (py_sum ns))
  /\ (forall b t, estimate_size ixreader (DisjunctionMax qs b t)
                  = Raise TypeError).
Proof.
  assert (Hsizes : forall l,
    (fix sizes (subqueries : list Query) : result (list Z) :=
       match subqueries with
       | [] => Ok []
       | s :: rest =>
           let* n := estimate_size ixreader s in
           let* ns := sizes rest in
           Ok (n :: ns)
       end) l = mapM (estimate_size ixreader) l).
  { induction l as [|s rest IH]; [reflexivity|]. cbn [mapM].
    rewrite IH. reflexivity. }
  repeat split; intros; cbn [estimate_size]; rewrite ?Hsizes; reflexivity.
Qed.

Lemma py_sum_acc (l : list Z) (acc : Z) :
  List.fold_left Z.add l acc = acc + py_sum l.
Proof.
  unfold py_sum. revert acc.
  induction l as [|x rest IH]; intros acc; cbn [List.fold_left]; [lia|].
  rewrite IH, (IH (0 + x)). lia.
Qed.

Lemma py_sum_cons (x : Z) (l : list Z) : py_sum (x :: l) = x + py_sum l.
Proof. unfold py_sum at 1. cbn [List.fold_left]. rewrite py_sum_acc. lia. Qed.

Lemma py_sum_nonneg (l : list Z) :
  List.Forall (fun x => 0 <= x) l -> 0 <= py_sum l.
Proof.
  induction 1 as [|x rest Hx _ IH]; [reflexivity|].
  rewrite py_sum_cons. lia.
Qed.

Lemma py_sum_above (l : list Z) (x : Z) :
  List.Forall (fun y => 0 <= y) l -> List.In x l -> x <= py_sum l.
Proof.
  induction 1 as [|y rest Hy Hrest IH]; [intros []|].
  rewrite py_sum_cons. intros [<-|Hx].
  - pose proof (py_sum_nonneg rest Hrest). lia.
  - specialize (IH Hx). lia.
Qed.

Lemma fold_min_below (l : list Z) (x : Z) :
  List.fold_left Z.min l x <= x
  /\ (forall y, List.In y l -> List.fold_left Z.min l x <= y)
  /\ (List.fold_left Z.min l x = x \/ List.In (List.fold_left Z.min l x) l).
Proof.
  revert x. induction l as [|y rest IH]; intros x; cbn [List.fold_left].
  - split; [lia|]. split; [intros z []|left; reflexivity].
  - destruct (IH (Z.min x y)) as (H1 & H2 & H3). split; [lia|]. split.
    + intros z [<-|Hz]; [lia|apply H2, Hz].
    + destruct H3 as [H3|H3]; [|right; right; exact H3].
      rewrite H3. destruct (Z.min_spec x y) as [[_ ->]|[_ ->]];
        [left; reflexivity|right; left; reflexivity].
Qed.

Lemma py_min_least (l : list Z) (n : Z) :
  py_min l = Ok n -> List.In n l /\ forall y, List.In y l -> n <= y.
Proof.
  destruct l as [|x rest]; [discriminate|]. intros [= <-].
  destruct (fold_min_below rest x) as (H1 & H2 & H3). split.
  - destruct H3 as [->|H3]; [left; reflexivity|right; exact H3].
  - intros y [<-|Hy]; [exact H1|apply H2, Hy].
Qed.

Lemma mapM_Forall {A B : Type} (f : A -> result B) (P : B -> Prop)
  (l : list A) (r : list B) :
  List.Forall (fun x => forall y, f x = Ok y -> P y) l ->
  mapM f l = Ok r -> List.Forall P r.
Proof.
  intros Hall. revert r. induction Hall as [|x rest Hx _ IH]; intros r.
  - intros [= <-]. constructor.
  - cbn [mapM]. destruct (f x) as [y|e] eqn:Hf; cbn [bind]; [|discriminate].
    destruct (mapM f rest) as [ys|e]; cbn [bind]; [|discriminate].
    intros [= <-]. constructor; [apply Hx; reflexivity|apply IH; reflexivity].
Qed.

Lemma mapM_In {A B : Type} (f : A -> result B) (l : list A) (r : list B)
  (x : A) (y : B) :
  mapM f l = Ok r -> List.In x l -> f x = Ok y -> List.In y r.
Proof.
  revert r. induction l as [|a rest IH]; intros r; [intros _ []|].
  cbn [mapM]. destruct (f a) as [b|e] eqn:Hf; cbn [bind]; [|discriminate].
  destruct (mapM f rest) as [ys|e]; cbn [bind]; [|discriminate].
  intros [= <-] [<-|Hx] Hy.
  - left. congruence.
  - right. apply (IH ys eq_refl Hx Hy).
Qed.

Section SizeEstimates.

Context `{Support} (ixreader : IndexReader).
Hypothesis doc_frequency_nonneg :
  forall fieldnum text, 0 <= doc_frequency ixreader fieldnum text.
Hypothesis doc_count_nonneg : 0 <= doc_count ixreader.

Lemma estimate_size_nonneg (q : Query) (n : Z) :
  estimate_size ixreader q = Ok n -> 0 <= n.
Proof.
  revert n.
  assert (Hmulti : forall q0 f n,
    (let* fieldnum := fieldname_to_num ixreader f in
     let* ws := words ixreader q0 in
     Ok (py_sum (List.map (doc_frequency ixreader fieldnum) ws))) = Ok n ->
    0 <= n).
  { intros q0 f n. destruct (fieldname_to_num ixreader f) as [fieldnum|e];
      cbn [bind]; [|discriminate].
    destruct (words ixreader q0) as [ws|e]; cbn [bind]; [|discriminate].
    intros [= <-]. apply py_sum_nonneg, List.Forall_map, List.Forall_forall.
    intros w _. apply doc_frequency_nonneg. }
  assert (Hterm : forall f t n, Term_estimate_size ixreader f t = Ok n ->
                                0 <= n).
  { intros f t n. unfold Term_estimate_size.
    destruct (fieldname_to_num ixreader f); cbn [bind]; [|discriminate].
    intros [= <-]. apply doc_frequency_nonneg. }
  induction q using Query_tree_ind; intros n;
    try (cbn [estimate_size]; apply Hmulti);
    try (cbn [estimate_size]; intros [= <-]; first [exact doc_count_nonneg|lia]);
    try (cbn [estimate_size]; discriminate).
  - apply Hterm.
  - rewrite (proj1 (estimate_size_compound ixreader qs)).
    destruct (mapM (estimate_size ixreader) qs) as [ns|e] eqn:Hm;
      cbn [bind]; [|discriminate].
    intros Hmin. apply py_min_least in Hmin as [Hin _].
    pose proof (mapM_Forall _ (fun x => 0 <= x) qs ns H0 Hm) as Hall.
    rewrite List.Forall_forall in Hall. apply Hall, Hin.
  - rewrite (proj1 (proj2 (estimate_size_compound ixreader qs))).
    destruct (mapM (estimate_size ixreader) qs) as [ns|e] eqn:Hm;
      cbn [bind]; [|discriminate].
    intros [= <-]. apply py_sum_nonneg.
    apply (mapM_Forall _ (fun x => 0 <= x) qs ns H0 Hm).
  - cbn [estimate_size].
    destruct (mapM (Term_estimate_size ixreader f) ws) as [ns|e] eqn:Hm;
      cbn [bind]; [|discriminate].
    intros Hmin. apply py_min_least in Hmin as [Hin _].
    assert (Hall : List.Forall (fun x => 0 <= x) ns).
    { apply (mapM_Forall (Term_estimate_size ixreader f)
               (fun x => 0 <= x) ws ns); [|exact Hm].
      apply List.Forall_forall. intros w _ y. apply Hterm. }
    rewrite List.Forall_forall in Hall. apply Hall, Hin.
Qed.

(** X10: over a reader whose document frequencies and document count
    are not negative, every estimate that [estimate_size] returns is
    not negative. *)
Theorem estimate_size_is_not_negative (q : Query) (n : Z) :
  estimate_size ixreader q = Ok n -> 0 <= n.
Proof. apply estimate_size_nonneg. Qed.

(** X11: the estimate of an [And] is at most the estimate of each of
    its children, and (document frequencies and document count being
    not negative) the estimate of an [Or] is at least the estimate of
    each of its children. *)
Theorem And_estimate_below_Or_estimate (qs : list Query) (c : Query)
  (nc : Z) :
  List.In c qs -> estimate_size ixreader c = Ok nc ->
  (forall b n, estimate_size ixreader (And qs b) = Ok n -> n <= nc)
  /\ (forall b m n, estimate_size ixreader (Or qs b m) = Ok n -> nc <= n).
Proof.
  intros Hc Hnc. split.
  - intros b n. rewrite (proj1 (estimate_size_compound ixreader qs)).
    destruct (mapM (estimate_size ixreader) qs) as [ns|e] eqn:Hm;
      cbn [bind]; [|discriminate].
    intros Hq. apply py_min_least in Hq as [_ Hle].
    apply Hle. apply (mapM_In _ qs ns c nc Hm Hc Hnc).
  - intros b m n.
    rewrite (proj1 (proj2 (estimate_size_compound ixreader qs))).
    destruct (mapM (estimate_size ixreader) qs) as [ns|e] eqn:Hm;
      cbn [bind]; [|discriminate].
    intros [= <-]. apply py_sum_above.
    + apply (mapM_Forall (estimate_size ixreader)
               (fun x => 0 <= x) qs ns); [|exact Hm].
      apply List.Forall_forall. intros x _ y. apply estimate_size_nonneg.
    + apply (mapM_In _ qs ns c nc Hm Hc Hnc).
Qed.

End SizeEstimates.

Lemma small_reader_doc_frequency_nonneg (fieldnum : Z) (text : string) :
  0 <= doc_frequency small_reader fieldnum text.
Proof.
  cbn. destruct (String.eqb text "ab"); [lia|].
  destruct (String.eqb text "ac"); lia.
Defined.

Lemma estimate_size_is_not_negative_witness :
  @estimate_size no_support small_reader a_and_prefix_a = Ok 0 /\ 0 <= 0.
Proof.
  split; [reflexivity|].
  apply (@estimate_size_is_not_negative no_support small_reader
           small_reader_doc_frequency_nonneg ltac:(cbn; lia)
           a_and_prefix_a 0 eq_refl).
Defined.

Lemma And_estimate_below_Or_estimate_witness :
  @estimate_size no_support small_reader
    (And [Term "f" "ab" default_boost; Term "f" "ac" default_boost]
       default_boost) = Ok 1
  /\ 1 <= 2
  /\ @estimate_size no_support small_reader
       (Or [Term "f" "ab" default_boost; Term "f" "ac" default_boost]
          default_boost default_minmatch) = Ok 3
  /\ 2 <= 3.
Proof.
  destruct (@And_estimate_below_Or_estimate no_support small_reader
              small_reader_doc_frequency_nonneg ltac:(cbn; lia)
              [Term "f" "ab" default_boost; Term "f" "ac" default_boost]
              (Term "f" "ab" default_boost) 2
              ltac:(left; reflexivity) eq_refl) as (Hand & Hor).
  split; [reflexivity|]. split; [exact (Hand default_boost 1 eq_refl)|].
  split; [reflexivity|]. exact (Hor default_boost default_minmatch 3 eq_refl).
Defined.

(** ** Existing and missing terms *)

Lemma existing_terms_into_compound `{Support} (ixreader : IndexReader)
  (qs : list Query) (ts : gset TermsetItem) (reverse phrases : bool) :
  (forall b, existing_terms_into ixreader (And qs b) ts reverse phrases
             = existing_terms_each ixreader qs ts reverse phrases)
  /\ (forall b m, existing_terms_into ixreader (Or qs b m) ts reverse phrases
                  = existing_terms_each ixreader qs ts reverse phrases)
  /\ (forall b t,
        existing_terms_into ixreader (DisjunctionMax qs b t) ts reverse phrases
        = existing_terms_each ixreader qs ts reverse phrases).
Proof.
  assert (Heach : forall l ts0,
    (fix each (subqueries : list Query) (termset : gset TermsetItem)
       : result (gset TermsetItem) :=
       match subqueries with
       | [] => Ok termset
       | s :: rest =>
           let* termset' :=
             existing_terms_into ixreader s termset reverse phrases in
           each rest termset'
       end) l ts0 = existing_terms_each ixreader l ts0 reverse phrases).
  { induction l as [|s rest IH]; intros ts0; [reflexivity|].
    cbn [existing_terms_each].
    destruct (existing_terms_into ixreader s ts0 reverse phrases);
      cbn [bind]; [apply IH | reflexivity]. }
  repeat split; intros; cbn [existing_terms_into]; apply Heach.
Qed.

Section ExistingTerms.

Context `{Support} (ixreader : IndexReader).

Lemma partitioned_add (tsA tsE tsM : gset TermsetItem) (f w : string)
  (n : Z) :
  fieldname_to_num ixreader f = Ok n ->
  partitioned ixreader tsA tsE tsM ->
  partitioned ixreader ({[ TermPair f w ]} ∪ tsA)
    (add_existing ixreader (ByNum n) f false tsE w)
    (add_existing ixreader (ByNum n) f true tsM w).
Proof.
  intros Hn (HA & HE & HM). unfold add_existing.
  assert (Hheld : held_by ixreader (TermPair f w)
                  = reader_contains ixreader (ByNum n) w).
  { cbn [held_by]. rewrite Hn. reflexivity. }
  destruct (reader_contains ixreader (ByNum n) w) eqn:Hc; cbn [negb].
  - split; [rewrite HA; apply (assoc_L (∪))|]. split; [|exact HM].
    intros i Hi. apply elem_of_union in Hi as [Hi|Hi]; [|apply HE, Hi].
    apply elem_of_singleton in Hi. subst i. exact Hheld.
  - split.
    { rewrite HA, (assoc_L (∪)), (comm_L (∪) {[TermPair f w]} tsE),
        <- (assoc_L (∪)). reflexivity. }
    split; [exact HE|].
    intros i Hi. apply elem_of_union in Hi as [Hi|Hi]; [|apply HM, Hi].
    apply elem_of_singleton in Hi. subst i. exact Hheld.
Qed.

Lemma partitioned_add_words (f : string) (n : Z) (ws : list string) :
  fieldname_to_num ixreader f = Ok n ->
  forall tsA tsE tsM,
    partitioned ixreader tsA tsE tsM ->
    partitioned ixreader (add_words f ws tsA)
      (List.fold_left (add_existing ixreader (ByNum n) f false) ws tsE)
      (List.fold_left (add_existing ixreader (ByNum n) f true) ws tsM).
Proof.
  intros Hn. unfold add_words.
  induction ws as [|w rest IH]; intros tsA tsE tsM Hp; cbn [List.fold_left].
  - exact Hp.
  - apply IH. apply partitioned_add; assumption.
Qed.

Hypothesis fields_are_known :
  forall fieldname, exists fieldnum,
    fieldname_to_num ixreader fieldname = Ok fieldnum.

Lemma terms_partition_into (phrases : bool) (q : Query) :
  leaves_are_terms q = true ->
  forall tsA tsE tsM,
    partitioned ixreader tsA tsE tsM ->
    exists A E M,
      all_terms_into q tsA phrases = Ok A
      /\ existing_terms_into ixreader q tsE false phrases = Ok E
      /\ existing_terms_into ixreader q tsM true phrases = Ok M
      /\ partitioned ixreader A E M.
Proof.
  assert (Heach : forall qs,
    List.Forall
      (fun q => leaves_are_terms q = true ->
         forall tsA tsE tsM,
           partitioned ixreader tsA tsE tsM ->
           exists A E M,
             all_terms_into q tsA phrases = Ok A
             /\ existing_terms_into ixreader q tsE false phrases = Ok E
             /\ existing_terms_into ixreader q tsM true phrases = Ok M
             /\ partitioned ixreader A E M) qs ->
    List.forallb leaves_are_terms qs = true ->
    forall tsA tsE tsM,
      partitioned ixreader tsA tsE tsM ->
      exists A E M,
        all_terms_each qs tsA phrases = Ok A
        /\ existing_terms_each ixreader qs tsE false phrases = Ok E
        /\ existing_terms_each ixreader qs tsM true phrases = Ok M
        /\ partitioned ixreader A E M).
  { induction 1 as [|s rest Hs _ IH]; intros Hl tsA tsE tsM Hp.
    - exists tsA, tsE, tsM. repeat split; try reflexivity; apply Hp.
    - cbn [List.forallb] in Hl. apply andb_prop in Hl as [Hl1 Hl2].
      destruct (Hs Hl1 tsA tsE tsM Hp) as (A1 & E1 & M1 & HA & HE & HM & Hp1).
      cbn [all_terms_each existing_terms_each]. rewrite HA, HE, HM.
      cbn [bind]. apply (IH Hl2), Hp1. }
  induction q using Query_tree_ind; intros Hl tsA tsE tsM Hp;
    try discriminate Hl.
  - destruct (fields_are_known f) as [n Hn].
    cbn [all_terms_into existing_terms_into]. rewrite Hn. cbn [bind].
    eexists _, _, _. repeat split; try reflexivity;
      apply (partitioned_add tsA tsE tsM f t n Hn Hp).
  - rewrite (proj1 (all_terms_into_compound qs tsA phrases)),
      !(proj1 (existing_terms_into_compound ixreader qs _ _ phrases)).
    apply (Heach qs H0 Hl), Hp.
  - rewrite (proj1 (proj2 (all_terms_into_compound qs tsA phrases))),
      !(proj1 (proj2 (existing_terms_into_compound ixreader qs _ _ phrases))).
    apply (Heach qs H0 Hl), Hp.
  - rewrite (proj2 (proj2 (all_terms_into_compound qs tsA phrases))),
      !(proj2 (proj2 (existing_terms_into_compound ixreader qs _ _ phrases))).
    apply (Heach qs H0 Hl), Hp.
  - cbn [all_terms_into existing_terms_into]. apply IHq; assumption.
  - cbn [all_terms_into existing_terms_into]. destruct phrases.
    + destruct (fields_are_known f) as [n Hn]. rewrite Hn. cbn [bind].
      eexists _, _, _. repeat split; try reflexivity;
        apply (partitioned_add_words f n ws Hn tsA tsE tsM Hp).
    + exists tsA, tsE, tsM. repeat split; try reflexivity; apply Hp.
  - cbn [leaves_are_terms] in Hl. apply andb_prop in Hl as [Hl1 Hl2].
    cbn [all_terms_into existing_terms_into].
    destruct (IHq1 Hl1 tsA tsE tsM Hp) as (A1 & E1 & M1 & HA & HE & HM & Hp1).
    rewrite HA, HE, HM. cbn [bind].
    destruct (IHq2 Hl2 A1 E1 M1 Hp1) as (A2 & E2 & M2 & HA2 & HE2 & HM2 & Hp2).
    rewrite HA2, HE2, HM2. cbn [bind]. eauto 10.
  - cbn [leaves_are_terms] in Hl. apply andb_prop in Hl as [Hl1 Hl2].
    cbn [all_terms_into existing_terms_into].
    destruct (IHq1 Hl1 tsA tsE tsM Hp) as (A1 & E1 & M1 & HA & HE & HM & Hp1).
    rewrite HA, HE, HM. cbn [bind].
    destruct (IHq2 Hl2 A1 E1 M1 Hp1) as (A2 & E2 & M2 & HA2 & HE2 & HM2 & Hp2).
    rewrite HA2, HE2, HM2. cbn [bind]. eauto 10.
  - cbn [all_terms_into existing_terms_into]. apply IHq1; assumption.
Qed.

(** X12: over a reader that knows every field, and for a tree whose
    leaves (where the term collection goes) are [Term] and [Phrase]
    queries, [existing_terms] and [existing_terms] with [reverse=True]
    split the set of [all_terms] in two: each returns a set, their
    union is the set of [all_terms], the reader holds every term of the
    first and none of the second, and so no term is in both. *)
Theorem existing_and_missing_terms_partition (q : Query) (phrases : bool) :
  leaves_are_terms q = true ->
  exists A E M,
    all_terms q None phrases = Ok A
    /\ existing_terms ixreader q None false phrases = Ok E
    /\ existing_terms ixreader q None true phrases = Ok M
    /\ A = E ∪ M
    /\ E ∩ M = ∅
    /\ (forall i, i ∈ E -> held_by ixreader i = true)
    /\ (forall i, i ∈ M -> held_by ixreader i = false).
Proof.
  intros Hl.
  destruct (terms_partition_into phrases q Hl ∅ ∅ ∅)
    as (A & E & M & HA & HE & HM & Hunion & HheldE & HheldM).
  { split; [set_solver|]. split; intros i Hi; set_solver. }
  exists A, E, M. repeat split; try assumption.
  apply elem_of_equiv_empty_L. intros i Hi.
  apply elem_of_intersection in Hi as [Hi1 Hi2].
  pose proof (HheldE i Hi1). pose proof (HheldM i Hi2). congruence.
Qed.

End ExistingTerms.

Lemma existing_and_missing_terms_partition_witness :
  exists A E M,
    all_terms (And [Term "f" "ab" default_boost; Not term_a default_boost;
                    Phrase "f" ["ac"; "zz"] default_slop default_boost]
                 default_boost) None true = Ok A
    /\ @existing_terms no_support small_reader
         (And [Term "f" "ab" default_boost; Not term_a default_boost;
               Phrase "f" ["ac"; "zz"] default_slop default_boost]
            default_boost) None false true = Ok E
    /\ @existing_terms no_support small_reader
         (And [Term "f" "ab" default_boost; Not term_a default_boost;
               Phrase "f" ["ac"; "zz"] default_slop default_boost]
            default_boost) None true true = Ok M
    /\ A = E ∪ M
    /\ E ∩ M = ∅
    /\ (forall i, i ∈ E -> held_by small_reader i = true)
    /\ (forall i, i ∈ M -> held_by small_reader i = false).
Proof.
  apply (@existing_and_missing_terms_partition no_support small_reader
           (fun _ => ex_intro _ 0 eq_refl)).
  reflexivity.
Defined.

(** ** Replacing a text *)

Lemma replace_compound (qs : list Query) (oldtext newtext : string) :
  (forall b, replace (And qs b) oldtext newtext
             = let* qs' := mapM (fun s => replace s oldtext newtext) qs in
               Ok (And qs' b))
  /\ (forall b m, replace (Or qs b m) oldtext newtext
                  = let* qs' := mapM (fun s => replace s oldtext newtext) qs in
                    Ok (Or qs' b default_minmatch))
  /\ (forall b t, replace (DisjunctionMax qs b t) oldtext newtext
                  = let* qs' := mapM (fun s => replace s oldtext newtext) qs in
                    Ok (DisjunctionMax qs' b default_tiebreak)).
Proof.
  assert (Heach : forall l,
    (fix replace_each (subqueries : list Query) : result (list Query) :=
       match subqueries with
       | [] => Ok []
       | s :: rest =>
           let* s' := replace s oldtext newtext in
           let* rest' := replace_each rest in
           Ok (s' :: rest')
       end) l = mapM (fun s => replace s oldtext newtext) l).
  { induction l as [|s rest IH]; [reflexivity|]. cbn [mapM].
    rewrite IH. reflexivity. }
  repeat split; intros; cbn [replace]; rewrite Heach; reflexivity.
Qed.

Lemma replace_binary (a b : Query) (oldtext newtext : string) :
  (forall bo, replace (Require a b bo) oldtext newtext
              = let* a' := replace a oldtext newtext in
                let* b' := replace b oldtext newtext in
                Raise TypeError)
  /\ (forall bo, replace (AndMaybe a b bo) oldtext newtext
                 = let* a' := replace a oldtext newtext in
                   let* b' := replace b oldtext newtext in
                   Raise TypeError).
Proof.
  split; intros bo; cbn [replace];
    destruct (replace a oldtext newtext); cbn [bind]; try reflexivity;
    destruct (replace b oldtext newtext); reflexivity.
Qed.

Lemma replace_each_binary_compound (oldtext newtext : string)
  (qs : list Query) :
  List.Forall
    (fun q => if has_binary_compound q
              then replace q oldtext newtext = Raise TypeError
              else exists q', replace q oldtext newtext = Ok q') qs ->
  if List.existsb has_binary_compound qs
  then mapM (fun s => replace s oldtext newtext) qs = Raise TypeError
  else exists qs', mapM (fun s => replace s oldtext newtext) qs = Ok qs'.
Proof.
  induction 1 as [|s rest Hs _ IH]; cbn [mapM List.existsb].
  - eauto.
  - destruct (has_binary_compound s); cbn [orb].
    + rewrite Hs. reflexivity.
    + destruct Hs as [s' ->]. cbn [bind].
      destruct (List.existsb has_binary_compound rest).
      * rewrite IH. reflexivity.
      * destruct IH as [qs' ->]. cbn [bind]. eauto.
Qed.

(** X13: [replace] raises [TypeError] exactly on the trees in which a
    [Require] or an [AndMaybe] occurs (their inherited
    [CompoundQuery.replace] calls the two-query constructor with a
    list); on every other tree it returns a query. *)
Theorem replace_fails_on_Require_and_AndMaybe (q : Query)
  (oldtext newtext : string) :
  if has_binary_compound q
  then replace q oldtext newtext = Raise TypeError
  else exists q', replace q oldtext newtext = Ok q'.
Proof.
  induction q using Query_tree_ind;
    try (cbn [has_binary_compound replace]; eauto; fail).
  - cbn [has_binary_compound replace]. destruct (String.eqb t oldtext); eauto.
  - cbn [has_binary_compound].
    rewrite (proj1 (replace_compound qs oldtext newtext)).
    pose proof (replace_each_binary_compound oldtext newtext qs H) as Hqs.
    destruct (List.existsb has_binary_compound qs).
    + rewrite Hqs. reflexivity.
    + destruct Hqs as [qs' ->]. cbn [bind]. eauto.
  - cbn [has_binary_compound].
    rewrite (proj1 (proj2 (replace_compound qs oldtext newtext))).
    pose proof (replace_each_binary_compound oldtext newtext qs H) as Hqs.
    destruct (List.existsb has_binary_compound qs).
    + rewrite Hqs. reflexivity.
    + destruct Hqs as [qs' ->]. cbn [bind]. eauto.
  - cbn [has_binary_compound].
    rewrite (proj2 (proj2 (replace_compound qs oldtext newtext))).
    pose proof (replace_each_binary_compound oldtext newtext qs H) as Hqs.
    destruct (List.existsb has_binary_compound qs).
    + rewrite Hqs. reflexivity.
    + destruct Hqs as [qs' ->]. cbn [bind]. eauto.
  - cbn [has_binary_compound replace]. destruct (has_binary_compound q).
    + rewrite IHq. reflexivity.
    + destruct IHq as [q' ->]. cbn [bind]. eauto.
  - cbn [has_binary_compound replace].
    destruct (String.eqb s oldtext); [eauto|].
    destruct (String.eqb e oldtext); eauto.
  - cbn [has_binary_compound replace]. destruct (String.eqb oldtext t); eauto.
  - cbn [has_binary_compound].
    rewrite (proj1 (replace_binary q1 q2 oldtext newtext)).
    destruct (has_binary_compound q1).
    + rewrite IHq1. reflexivity.
    + destruct IHq1 as [a' ->]. cbn [bind]. destruct (has_binary_compound q2).
      * rewrite IHq2. reflexivity.
      * destruct IHq2 as [b' ->]. reflexivity.
  - cbn [has_binary_compound].
    rewrite (proj2 (replace_binary q1 q2 oldtext newtext)).
    destruct (has_binary_compound q1).
    + rewrite IHq1. reflexivity.
    + destruct IHq1 as [a' ->]. cbn [bind]. destruct (has_binary_compound q2).
      * rewrite IHq2. reflexivity.
      * destruct IHq2 as [b' ->]. reflexivity.
  - cbn [has_binary_compound replace]. destruct (has_binary_compound q1);
      cbn [orb].
    + rewrite IHq1. reflexivity.
    + destruct IHq1 as [a' ->]. cbn [bind]. destruct (has_binary_compound q2).
      * rewrite IHq2. reflexivity.
      * destruct IHq2 as [b' ->]. cbn [bind]. eauto.
Qed.

Lemma replace_each_texts (oldtext newtext : string) (qs : list Query) :
  List.Forall
    (fun q => forall q', replace q oldtext newtext = Ok q' ->
       replaceable_texts q'
       = List.map (rep oldtext newtext) (replaceable_texts q)) qs ->
  forall qs',
    mapM (fun s => replace s oldtext newtext) qs = Ok qs' ->
    List.flat_map replaceable_texts qs'
    = List.map (rep oldtext newtext) (List.flat_map replaceable_texts qs).
Proof.
  induction 1 as [|s rest Hs _ IH]; intros qs'; cbn [mapM].
  - intros [= <-]. reflexivity.
  - destruct (replace s oldtext newtext) as [s'|e]; cbn [bind];
      [|discriminate].
    destruct (mapM (fun s0 => replace s0 oldtext newtext) rest) as [r|e];
      cbn [bind]; [|discriminate].
    intros [= <-]. cbn [List.flat_map].
    rewrite List.map_app, (Hs s' eq_refl), (IH r eq_refl). reflexivity.
Qed.

Lemma replace_texts (q q' : Query) (oldtext newtext : string) :
  replace q oldtext newtext = Ok q' ->
  replaceable_texts q' = List.map (rep oldtext newtext) (replaceable_texts q).
Proof.
  revert q'.
  induction q using Query_tree_ind; intros q';
    try (cbn [replace]; intros [= <-]; reflexivity).
  - cbn [replace]. unfold rep. cbn [replaceable_texts List.map].
    destruct (String.eqb t oldtext); intros [= <-]; reflexivity.
  - rewrite (proj1 (replace_compound qs oldtext newtext)).
    destruct (mapM (fun s => replace s oldtext newtext) qs) as [qs'|e] eqn:Hm;
      cbn [bind]; [|discriminate].
    intros [= <-]. apply (replace_each_texts oldtext newtext qs H qs' Hm).
  - rewrite (proj1 (proj2 (replace_compound qs oldtext newtext))).
    destruct (mapM (fun s => replace s oldtext newtext) qs) as [qs'|e] eqn:Hm;
      cbn [bind]; [|discriminate].
    intros [= <-]. apply (replace_each_texts oldtext newtext qs H qs' Hm).
  - rewrite (proj2 (proj2 (replace_compound qs oldtext newtext))).
    destruct (mapM (fun s => replace s oldtext newtext) qs) as [qs'|e] eqn:Hm;
      cbn [bind]; [|discriminate].
    intros [= <-]. apply (replace_each_texts oldtext newtext qs H qs' Hm).
  - cbn [replace]. destruct (replace q oldtext newtext) as [q0|e];
      cbn [bind]; [|discriminate].
    intros [= <-]. cbn [replaceable_texts]. apply IHq. reflexivity.
  - cbn [replace]. destruct (String.eqb s oldtext); [intros [= <-]; reflexivity|].
    destruct (String.eqb e oldtext); intros [= <-]; reflexivity.
  - cbn [replace]. unfold rep. cbn [replaceable_texts List.map].
    rewrite (String.eqb_sym t oldtext).
    destruct (String.eqb oldtext t); intros [= <-]; reflexivity.
  - rewrite (proj1 (replace_binary q1 q2 oldtext newtext)).
    destruct (replace q1 oldtext newtext); cbn [bind]; [|discriminate].
    destruct (replace q2 oldtext newtext); discriminate.
  - rewrite (proj2 (replace_binary q1 q2 oldtext newtext)).
    destruct (replace q1 oldtext newtext); cbn [bind]; [|discriminate].
    destruct (replace q2 oldtext newtext); discriminate.
  - cbn [replace]. destruct (replace q1 oldtext newtext) as [a'|e];
      cbn [bind]; [|discriminate].
    destruct (replace q2 oldtext newtext) as [b'|e]; cbn [bind];
      [|discriminate].
    intros [= <-]. cbn [replaceable_texts].
    rewrite List.map_app, (IHq1 a' eq_refl), (IHq2 b' eq_refl). reflexivity.
Qed.

(** X14: in the query that [replace] returns, the texts of the [Term]
    and [Variations] queries and the words of the [Phrase] queries are
    those of the original, in the same order, with every one equal to
    [oldtext] turned into [newtext]; so when the two texts differ,
    [oldtext] is no longer the text of any of them. *)
Theorem replace_renames_every_text (q q' : Query) (oldtext newtext : string) :
  replace q oldtext newtext = Ok q' ->
  replaceable_texts q' = List.map (rep oldtext newtext) (replaceable_texts q)
  /\ (oldtext <> newtext -> ~ List.In oldtext (replaceable_texts q')).
Proof.
  intros Hq. pose proof (replace_texts q q' oldtext newtext Hq) as Hmap.
  split; [exact Hmap|].
  intros Hne Hin. rewrite Hmap in Hin.
  apply List.in_map_iff in Hin as (w & Hw & _). unfold rep in Hw.
  destruct (String.eqb_spec w oldtext); congruence.
Qed.

Lemma replace_renames_every_text_witness :
  replace (Or [term_a; Not phrase_ab default_boost; Prefix "f" "a" default_boost]
             default_boost 2) "a" "z"
  = Ok (Or [Term "f" "z" default_boost;
            Not (Phrase "f" ["z"; "b"] default_slop default_boost) default_boost;
            Prefix "f" "a" default_boost] default_boost default_minmatch)
  /\ ~ List.In "a"
         (replaceable_texts
            (Or [Term "f" "z" default_boost;
                 Not (Phrase "f" ["z"; "b"] default_slop default_boost)
                   default_boost;
                 Prefix "f" "a" default_boost] default_boost default_minmatch)).
Proof.
  assert (Hr : replace (Or [term_a; Not phrase_ab default_boost;
                            Prefix "f" "a" default_boost] default_boost 2)
                 "a" "z"
               = Ok (Or [Term "f" "z" default_boost;
                         Not (Phrase "f" ["z"; "b"] default_slop default_boost)
                           default_boost;
                         Prefix "f" "a" default_boost]
                       default_boost default_minmatch)) by reflexivity.
  split; [exact Hr|].
  apply (proj2 (replace_renames_every_text _ _ "a" "z" Hr)). discriminate.
Defined.

(** ** Globs with a trailing star *)

Lemma string_app_nil (s : string) : ("" ++ s)%string = s.
Proof. reflexivity. Qed.

Lemma string_app_cons (a : ascii) (p s : string) :
  (String a p ++ s)%string = String a (p ++ s)%string.
Proof. reflexivity. Qed.

Lemma str_contains_app (c : ascii) (p s : string) :
  str_contains c (p ++ s)%string = str_contains c p || str_contains c s.
Proof.
  induction p as [|a p IH];
    rewrite ?string_app_nil, ?string_app_cons; cbn [str_contains];
    [reflexivity|].
  destruct (Ascii.eqb a c); [reflexivity|exact IH].
Qed.

Lemma str_find_cons (c a : ascii) (s : string) :
  str_find c (String a s)
  = if Ascii.eqb a c then 0
    else if str_find c s <? 0 then -1 else str_find c s + 1.
Proof.
  unfold str_find. simpl.
  destruct (ascii_dec c a) as [->|Hne].
  - rewrite Ascii.eqb_refl. destruct s; reflexivity.
  - destruct (Ascii.eqb_spec a c) as [->|_]; [congruence|].
    destruct (String.index 0 (String c "") s) as [i|]; [|reflexivity].
    destruct (Z.ltb_spec (Z.of_nat i) 0); lia.
Qed.

Lemma str_find_app_fresh (c : ascii) (p s : string) :
  str_contains c p = false ->
  str_find c (p ++ String c s)%string = Z.of_nat (String.length p).
Proof.
  induction p as [|a p IH];
    rewrite ?string_app_nil, ?string_app_cons;
    cbn [str_contains String.length].
  - intros _. rewrite str_find_cons, Ascii.eqb_refl. reflexivity.
  - destruct (Ascii.eqb a c) eqn:Ha; [discriminate|]. intros Hp.
    rewrite str_find_cons, Ha, (IH Hp).
    destruct (Z.ltb_spec (Z.of_nat (String.length p)) 0); lia.
Qed.

Lemma string_length_app (p s : string) :
  String.length (p ++ s)%string = (String.length p + String.length s)%nat.
Proof.
  induction p as [|a p IH]; rewrite ?string_app_nil, ?string_app_cons;
    cbn [String.length plus]; [reflexivity|].
  rewrite IH. reflexivity.
Qed.

Lemma string_get_app_left (p s : string) (n : nat) :
  (n < String.length p)%nat -> String.get n (p ++ s)%string = String.get n p.
Proof.
  revert n. induction p as [|a p IH]; intros n; cbn [String.length].
  - lia.
  - rewrite string_app_cons.
    destruct n as [|n]; cbn [String.get]; [reflexivity|].
    intros Hn. apply IH. lia.
Qed.

Lemma string_get_app_at (p s : string) (c : ascii) :
  String.get (String.length p) (p ++ String c s)%string = Some c.
Proof.
  induction p as [|a p IH]; rewrite ?string_app_nil, ?string_app_cons;
    cbn [String.length String.get]; [reflexivity|exact IH].
Qed.

Lemma string_substring_app (p s : string) :
  String.substring 0 (String.length p) (p ++ s)%string = p.
Proof.
  induction p as [|a p IH]; rewrite ?string_app_nil, ?string_app_cons;
    cbn [String.length String.substring].
  - destruct s; reflexivity.
  - rewrite IH. reflexivity.
Qed.

(** X15: a glob made of a non-empty text with no wildcard character
    followed by one ["*"] normalizes to the [Prefix] query of that text
    with the same boost, unless the text ends with a backslash (the
    star is escaped): then the [Wildcard] query is returned as it
    is. *)
Theorem Wildcard_trailing_star (f p : string) (b : float) :
  p <> "" ->
  str_contains star p = false -> str_contains qmark p = false ->
  normalize (Wildcard f (p ++ "*")%string b)
  = Ok (if str_endswith backslash p then Wildcard f (p ++ "*")%string b
        else Prefix f p b).
Proof.
  intros Hne Hstar Hqmark. cbn [normalize]. unfold Wildcard_normalize.
  assert (Hlen : String.length (p ++ "*")%string
                 = S (String.length p)).
  { rewrite string_length_app. cbn. lia. }
  assert (Hpos : (0 < String.length p)%nat).
  { destruct p; [congruence|cbn; lia]. }
  replace (String.eqb (p ++ "*")%string "*") with false.
  2:{ symmetry. apply String.eqb_neq. intros Heq.
      apply (f_equal String.length) in Heq. rewrite Hlen in Heq.
      cbn in Heq. lia. }
  rewrite !str_contains_app, Hstar, Hqmark. cbn [orb negb andb].
  replace (str_contains star "*") with true by reflexivity.
  replace (str_contains qmark "*") with false by reflexivity.
  cbn [negb andb].
  replace (str_endswith star (p ++ "*")%string) with true.
  2:{ unfold str_endswith. rewrite Hlen.
      replace (S (String.length p) - 1)%nat with (String.length p) by lia.
      rewrite (string_get_app_at p "" "*"%char). reflexivity. }
  change (str_find star (p ++ "*")%string)
    with (str_find star (p ++ String star "")%string).
  rewrite (str_find_app_fresh star p "" Hstar).
  unfold str_len. rewrite Hlen.
  replace (Z.of_nat (String.length p) =? Z.of_nat (S (String.length p)) - 1)
    with true by (symmetry; apply Z.eqb_eq; lia).
  replace (Z.of_nat (S (String.length p)) <? 2) with false
    by (symmetry; apply Z.ltb_ge; lia).
  cbn [andb orb].
  unfold str_get_neg2. rewrite Hlen.
  replace (2 <=? S (String.length p))%nat with true
    by (symmetry; apply Nat.leb_le; lia).
  replace (S (String.length p) - 2)%nat with (String.length p - 1)%nat by lia.
  rewrite string_get_app_left by lia.
  unfold str_endswith, str_drop_last. rewrite Hlen.
  replace (S (String.length p) - 1)%nat with (String.length p) by lia.
  rewrite string_substring_app.
  destruct (String.get (String.length p - 1) p) as [a|]; [|reflexivity].
  destruct (Ascii.eqb a backslash); reflexivity.
Qed.

Lemma Wildcard_trailing_star_witness :
  normalize (Wildcard "f" "render*" 2.0%float)
  = Ok (Prefix "f" "render" 2.0%float).
Proof.
  apply (Wildcard_trailing_star "f" "render" 2.0%float);
    [discriminate|reflexivity|reflexivity].
Defined.

(** ** The words of a range *)

Lemma TermRange_words_loop_sound (fieldnum : Z) (start end_ : string)
  (startexcl endexcl : bool) (items : list (Z * string)) (w : string) :
  List.In w (TermRange_words_loop fieldnum start end_ startexcl endexcl items) ->
  List.In (fieldnum, w) items
  /\ String.ltb end_ w = false
  /\ (endexcl = true -> w <> end_)
  /\ (startexcl = true -> w <> start).
Proof.
  induction items as [|[fnum t] rest IH]; cbn [TermRange_words_loop];
    [intros []|].
  destruct (Z.eqb_spec fnum fieldnum) as [->|Hne]; cbn [negb];
    [|intros []].
  destruct (String.eqb t start && startexcl) eqn:Hs.
  { intros Hw. destruct (IH Hw) as (H1 & H2). split; [right; exact H1|exact H2]. }
  destruct (String.eqb t end_ && endexcl) eqn:He; [intros []|].
  destruct (String.ltb end_ t) eqn:Hlt; [intros []|].
  intros [<-|Hw].
  - split; [left; reflexivity|]. split; [exact Hlt|]. split.
    + intros -> ->. rewrite String.eqb_refl in He. discriminate He.
    + intros -> ->. rewrite String.eqb_refl in Hs. discriminate Hs.
  - destruct (IH Hw) as (H1 & H2). split; [right; exact H1|exact H2].
Qed.

(** X16: every word that [TermRange._words] yields was yielded by
    [iter_from] for the number of the query's field, is not above
    [end], is not [end] when the end is exclusive and not [start] when
    the start is exclusive. *)
Theorem TermRange_words_in_range `{Support} (ixreader : IndexReader)
  (f start end_ : string) (startexcl endexcl : bool) (b : float)
  (ws : list string) (w : string) :
  words ixreader (TermRange f start end_ startexcl endexcl b) = Ok ws ->
  List.In w ws ->
  exists fieldnum,
    fieldname_to_num ixreader f = Ok fieldnum
    /\ List.In (fieldnum, w) (iter_from ixreader fieldnum start)
    /\ String.ltb end_ w = false
    /\ (endexcl = true -> w <> end_)
    /\ (startexcl = true -> w <> start).
Proof.
  cbn [words].
  destruct (fieldname_to_num ixreader f) as [fieldnum|e]; cbn [bind];
    [|discriminate].
  intros [= <-] Hw. exists fieldnum. split; [reflexivity|].
  apply (TermRange_words_loop_sound _ _ _ _ _ _ _ Hw).
Qed.

Lemma TermRange_words_in_range_witness :
  exists fieldnum,
    fieldname_to_num small_reader "f" = Ok fieldnum
    /\ List.In (fieldnum, "ac") (iter_from small_reader fieldnum "ab")
    /\ String.ltb "ac" "ac" = false
    /\ (false = true -> "ac" <> "ac")
    /\ (true = true -> "ac" <> "ab").
Proof.
  apply (@TermRange_words_in_range no_support small_reader "f" "ab" "ac"
           true false default_boost ["ac"] "ac").
  - reflexivity.
  - left. reflexivity.
Defined.

(** ** The literal prefix of a glob *)

Lemma str_contains_split (c : ascii) (text : string) :
  str_contains c text = true ->
  exists pre post,
    text = (pre ++ String c post)%string /\ str_contains c pre = false.
Proof.
  induction text as [|a s IH]; cbn [str_contains]; [discriminate|].
  destruct (Ascii.eqb_spec a c) as [->|Hne].
  - intros _. exists "", s. split; reflexivity.
  - intros Hs. destruct (IH Hs) as (pre & post & -> & Hpre).
    exists (String a pre), post. split; [reflexivity|].
    cbn [str_contains]. destruct (Ascii.eqb_spec a c); [congruence|exact Hpre].
Qed.

Lemma str_find_absent (c : ascii) (text : string) :
  str_contains c text = false -> str_find c text = -1.
Proof.
  induction text as [|a s IH]; cbn [str_contains]; [reflexivity|].
  rewrite str_find_cons. destruct (Ascii.eqb a c); [discriminate|].
  intros Hs. rewrite (IH Hs). reflexivity.
Qed.

Lemma py_slice_to_app (pre s : string) :
  py_slice_to (Z.of_nat (String.length pre)) (pre ++ s)%string = pre.
Proof.
  unfold py_slice_to, str_take.
  replace (0 <=? Z.of_nat (String.length pre)) with true
    by (symmetry; apply Z.leb_le; lia).
  rewrite Nat2Z.id, string_length_app.
  replace (Nat.min (String.length pre) (String.length pre + String.length s))
    with (String.length pre) by lia.
  apply string_substring_app.
Qed.

Lemma string_app_split (p1 s1 p2 s2 : string) :
  (p1 ++ s1)%string = (p2 ++ s2)%string ->
  (String.length p1 <= String.length p2)%nat ->
  exists m, p2 = (p1 ++ m)%string.
Proof.
  revert p2. induction p1 as [|a p1 IH]; intros p2.
  - intros _ _. exists p2. reflexivity.
  - destruct p2 as [|b p2]; cbn [String.length]; [lia|].
    rewrite !string_app_cons. intros Heq Hlen. injection Heq as -> Heq.
    destruct (IH p2 Heq) as [m ->]; [lia|]. exists m. reflexivity.
Qed.

Lemma string_prefix_app (p s : string) : String.prefix p (p ++ s)%string = true.
Proof. apply String.prefix_correct, string_substring_app. Qed.

Lemma Wildcard_prefix_cases (text : string) :
  (str_contains star text = false /\ str_contains qmark text = false
   /\ Wildcard_prefix text = "")
  \/ exists c rest,
       text = (Wildcard_prefix text ++ String c rest)%string
       /\ (c = star \/ c = qmark)
       /\ str_contains star (Wildcard_prefix text) = false
       /\ str_contains qmark (Wildcard_prefix text) = false.
Proof.
  unfold Wildcard_prefix.
  destruct (str_contains star text) eqn:Hstar;
    destruct (str_contains qmark text) eqn:Hqmark.
  - right.
    destruct (str_contains_split star text Hstar) as (p1 & s1 & H1 & Hp1).
    destruct (str_contains_split qmark text Hqmark) as (p2 & s2 & H2 & Hp2).
    assert (Hst : str_find star text = Z.of_nat (String.length p1))
      by (rewrite H1 at 1; apply str_find_app_fresh, Hp1).
    assert (Hqm : str_find qmark text = Z.of_nat (String.length p2))
      by (rewrite H2 at 1; apply str_find_app_fresh, Hp2).
    rewrite Hst, Hqm.
    replace (Z.of_nat (String.length p2) <? 0) with false
      by (symmetry; apply Z.ltb_ge; lia).
    replace (Z.of_nat (String.length p1) <? 0) with false
      by (symmetry; apply Z.ltb_ge; lia).
    cbn [andb].
    destruct (Z.le_gt_cases (Z.of_nat (String.length p1))
                (Z.of_nat (String.length p2))) as [Hle|Hgt].
    + rewrite Z.min_l by exact Hle.
      assert (Hslice : py_slice_to (Z.of_nat (String.length p1)) text = p1)
        by (rewrite H1 at 1; apply py_slice_to_app).
      rewrite Hslice. exists star, s1. split; [exact H1|].
      split; [left; reflexivity|]. split; [exact Hp1|].
      destruct (string_app_split p1 (String star s1) p2 (String qmark s2))
        as [m Hm]; [congruence|lia|].
      rewrite Hm, str_contains_app in Hp2.
      apply orb_false_elim in Hp2 as [Hp2 _]. exact Hp2.
    + rewrite Z.min_r by lia.
      assert (Hslice : py_slice_to (Z.of_nat (String.length p2)) text = p2)
        by (rewrite H2 at 1; apply py_slice_to_app).
      rewrite Hslice. exists qmark, s2. split; [exact H2|].
      split; [right; reflexivity|]. split; [|exact Hp2].
      destruct (string_app_split p2 (String qmark s2) p1 (String star s1))
        as [m Hm]; [congruence|lia|].
      rewrite Hm, str_contains_app in Hp1.
      apply orb_false_elim in Hp1 as [Hp1 _]. exact Hp1.
  - right.
    destruct (str_contains_split star text Hstar) as (p1 & s1 & H1 & Hp1).
    assert (Hst : str_find star text = Z.of_nat (String.length p1))
      by (rewrite H1 at 1; apply str_find_app_fresh, Hp1).
    rewrite Hst, (str_find_absent qmark text Hqmark).
    replace (Z.of_nat (String.length p1) <? 0) with false
      by (symmetry; apply Z.ltb_ge; lia).
    cbn [Z.ltb Z.compare andb].
    assert (Hslice : py_slice_to (Z.of_nat (String.length p1)) text = p1)
      by (rewrite H1 at 1; apply py_slice_to_app).
    rewrite Hslice. exists star, s1. split; [exact H1|].
    split; [left; reflexivity|]. split; [exact Hp1|].
    rewrite H1, str_contains_app in Hqmark.
    apply orb_false_elim in Hqmark as [Hq _]. exact Hq.
  - right.
    destruct (str_contains_split qmark text Hqmark) as (p2 & s2 & H2 & Hp2).
    assert (Hqm : str_find qmark text = Z.of_nat (String.length p2))
      by (rewrite H2 at 1; apply str_find_app_fresh, Hp2).
    rewrite Hqm, (str_find_absent star text Hstar).
    replace (Z.of_nat (String.length p2) <? 0) with false
      by (symmetry; apply Z.ltb_ge; lia).
    cbn [Z.ltb Z.compare andb].
    assert (Hslice : py_slice_to (Z.of_nat (String.length p2)) text = p2)
      by (rewrite H2 at 1; apply py_slice_to_app).
    rewrite Hslice. exists qmark, s2. split; [exact H2|].
    split; [right; reflexivity|]. split; [|exact Hp2].
    rewrite H2, str_contains_app in Hstar.
    apply orb_false_elim in Hstar as [Hs _]. exact Hs.
  - left. rewrite (str_find_absent star text Hstar),
      (str_find_absent qmark text Hqmark). repeat split.
Qed.

(** X17: the [prefix] that [Wildcard.__init__] computes is the text
    before the first ["*"] or ["?"] of the glob: it is a prefix of the
    glob, holds no wildcard character, and is followed in the glob by
    one.  For a glob with no wildcard character at all it is the empty
    string (and not the glob). *)
Theorem Wildcard_prefix_is_literal_prefix (text : string) :
  String.prefix (Wildcard_prefix text) text = true
  /\ str_contains star (Wildcard_prefix text) = false
  /\ str_contains qmark (Wildcard_prefix text) = false
  /\ (if str_contains star text || str_contains qmark text
      then exists c rest,
             text = (Wildcard_prefix text ++ String c rest)%string
             /\ (c = star \/ c = qmark)
      else Wildcard_prefix text = "").
Proof.
  destruct (Wildcard_prefix_cases text)
    as [(Hs & Hq & Hp)|(c & rest & Htext & Hc & Hs & Hq)].
  - rewrite Hp, Hs, Hq. repeat split. destruct text; reflexivity.
  - split; [rewrite Htext at 2; apply string_prefix_app|].
    split; [exact Hs|]. split; [exact Hq|].
    assert (Hmeta : str_contains star text || str_contains qmark text = true).
    { rewrite Htext, !str_contains_app. cbn [str_contains].
      destruct Hc as [-> | ->].
      - rewrite Ascii.eqb_refl, orb_true_r. reflexivity.
      - rewrite Ascii.eqb_refl, !orb_true_r. reflexivity. }
    rewrite Hmeta. exists c, rest. split; assumption.
Qed.

(** * Further properties of the readers *)

Module MultiReaderProperties.
Import Reading.
Import ReadingProperties.

(** ** Doc offsets *)

Lemma init_offsets_spec (rs : list IndexReader) (acc : list Z) (b : Z) :
  init_offsets rs acc b
  = (acc ++ offsets_from b (List.map doc_count_all rs),
     b + total (List.map doc_count_all rs)).
Proof.
  revert acc b. induction rs as [|r rest IH]; intros acc b;
    cbn [init_offsets List.map offsets_from total].
  - f_equal; [symmetry; apply List.app_nil_r|lia].
  - rewrite IH, <- List.app_assoc. cbn [app]. f_equal. lia.
Qed.

Lemma MultiReader_init_spec (rs : list IndexReader) :
  MultiReader_init rs
  = {| readers := rs;
       _gen := None;
       MultiReader_schema := match rs with
                             | [] => None
                             | r :: _ => schema r
                             end;
       doc_offsets := offsets_from 0 (List.map doc_count_all rs);
       base := total (List.map doc_count_all rs);
       is_closed := false |}.
Proof. unfold MultiReader_init. rewrite init_offsets_spec. reflexivity. Qed.

Lemma offsets_from_length (b : Z) (counts : list Z) :
  List.length (offsets_from b counts) = List.length counts.
Proof.
  revert b. induction counts as [|c rest IH]; intros b; cbn; [reflexivity|].
  rewrite IH. reflexivity.
Qed.

Lemma offsets_from_nth (counts : list Z) (b : Z) (i : nat) (c : Z) :
  List.nth_error counts i = Some c ->
  List.nth_error (offsets_from b counts) i
  = Some (b + total (List.firstn i counts)).
Proof.
  revert b i. induction counts as [|c0 rest IH]; intros b i.
  - destruct i; discriminate.
  - destruct i as [|i]; cbn [List.nth_error offsets_from List.firstn total].
    + intros _. f_equal. lia.
    + intros Hc. rewrite (IH (b + c0) i Hc). f_equal. lia.
Qed.

Lemma offsets_from_app (b : Z) (counts : list Z) (c : Z) :
  offsets_from b (counts ++ [c])
  = offsets_from b counts ++ [b + total counts].
Proof.
  revert b. induction counts as [|c0 rest IH]; intros b;
    cbn [app offsets_from total].
  - f_equal. lia.
  - rewrite IH.
    replace (b + c0 + total rest) with (b + (c0 + total rest)) by lia.
    reflexivity.
Qed.

Lemma total_app (l1 l2 : list Z) : total (l1 ++ l2) = total l1 + total l2.
Proof. induction l1 as [|x l1 IH]; cbn [app total]; lia. Qed.

(** The doc offsets that [__init__] records. *)
Lemma init_doc_offsets (rs : list IndexReader) :
  List.length (doc_offsets (MultiReader_init rs)) = List.length rs
  /\ forall i r,
       List.nth_error rs i = Some r ->
       List.nth_error (doc_offsets (MultiReader_init rs)) i
       = Some (total (List.map doc_count_all (List.firstn i rs))).
Proof.
  rewrite MultiReader_init_spec. cbn [doc_offsets].
  split; [rewrite offsets_from_length; apply List.length_map|].
  intros i r Hr.
  rewrite (offsets_from_nth _ 0 i (doc_count_all r)).
  - rewrite List.firstn_map. reflexivity.
  - rewrite List.nth_error_map, Hr. reflexivity.
Qed.

(** What [add_reader] does to a [MultiReader] that [__init__] built. *)
Lemma add_reader_init (rs : list IndexReader) (r : IndexReader) :
  add_reader (MultiReader_init rs) r
  = {| readers := rs ++ [r];
       _gen := None;
       MultiReader_schema := MultiReader_schema (MultiReader_init rs);
       doc_offsets := doc_offsets (MultiReader_init (rs ++ [r]));
       base := base (MultiReader_init (rs ++ [r]));
       is_closed := false |}.
Proof.
  rewrite !MultiReader_init_spec. unfold add_reader.
  cbn [readers _gen MultiReader_schema doc_offsets base is_closed].
  rewrite List.map_app. cbn [List.map].
  rewrite offsets_from_app, total_app. cbn [total].
  replace (0 + total (List.map doc_count_all rs))
    with (total (List.map doc_count_all rs)) by lia.
  replace (doc_count_all r + 0) with (doc_count_all r) by lia.
  reflexivity.
Qed.

(** X18: [MultiReader.__init__] records one doc offset for each reader,
    the offset of a reader being the number of documents of the readers
    before it, and a [base] that is the number of all documents, which
    is what [doc_count_all()] returns.  [add_reader] keeps this: a
    [MultiReader] of one reader or more to which a reader is added is
    the [MultiReader] of the longer list.  Added to the [MultiReader]
    of no reader, a reader gives the readers, doc offsets and base of
    the [MultiReader] of that one reader, but the [schema] stays
    [None], where [__init__] takes the schema of the first reader. *)
Theorem MultiReader_init_offsets (rs : list IndexReader) :
  List.length (doc_offsets (MultiReader_init rs)) = List.length rs
  /\ base (MultiReader_init rs)
     = MultiReader_doc_count_all (MultiReader_init rs)
  /\ (forall i r,
        List.nth_error rs i = Some r ->
        List.nth_error (doc_offsets (MultiReader_init rs)) i
        = Some (total (List.map doc_count_all (List.firstn i rs))))
  /\ (forall r, match rs with
                | _ :: _ => add_reader (MultiReader_init rs) r
                            = MultiReader_init (rs ++ [r])
                | [] => add_reader (MultiReader_init rs) r
                        = {| readers := [r];
                             _gen := None;
                             MultiReader_schema := None;
                             doc_offsets := [0];
                             base := doc_count_all r;
                             is_closed := false |}
                        /\ MultiReader_schema (MultiReader_init [r])
                           = schema r
                end).
Proof.
  destruct (init_doc_offsets rs) as [Hlength Hnth].
  split; [exact Hlength|].
  split; [rewrite MultiReader_init_spec;
          unfold MultiReader_doc_count_all; cbn [readers base];
          rewrite sum_of_total; reflexivity|].
  split; [exact Hnth|].
  intros r. destruct rs as [|r0 rest].
  - split; reflexivity.
  - rewrite add_reader_init.
    rewrite (MultiReader_init_spec ((r0 :: rest) ++ [r])).
    cbn [doc_offsets base MultiReader_schema app].
    rewrite MultiReader_init_spec. reflexivity.
Qed.

(** ** From a document number to its segment *)

(** The loop of [bisect_right] on a sorted list keeps the items below
    [lo] at most [x] and the items from [hi] on above [x]; with enough
    fuel it ends with [lo = hi]. *)
Lemma bisect_right_loop_spec (a : list Z) (x : Z) :
  (forall i j u v,
      (i <= j)%nat -> List.nth_error a i = Some u ->
      List.nth_error a j = Some v -> u <= v) ->
  forall fuel lo hi,
    (hi - lo <= fuel)%nat -> (lo <= hi)%nat -> (hi <= List.length a)%nat ->
    (forall j v, (j < lo)%nat -> List.nth_error a j = Some v -> v <= x) ->
    (forall j v, (hi <= j)%nat -> List.nth_error a j = Some v -> x < v) ->
    (forall j v, (j < bisect_right_loop fuel a x lo hi)%nat ->
                 List.nth_error a j = Some v -> v <= x)
    /\ (forall j v, (bisect_right_loop fuel a x lo hi <= j)%nat ->
                    List.nth_error a j = Some v -> x < v)
    /\ (bisect_right_loop fuel a x lo hi <= List.length a)%nat.
Proof.
  intros Hsorted. induction fuel as [|fuel IH]; intros lo hi Hfuel Hlo Hhi Hbelow Habove;
    cbn [bisect_right_loop].
  - assert (lo = hi) by lia. subst hi. repeat split; auto; lia.
  - destruct (Nat.ltb_spec lo hi) as [Hlt|Hge].
    2:{ assert (lo = hi) by lia. subst hi. repeat split; auto; lia. }
    assert (Hmid : (lo <= (lo + hi) / 2 < hi)%nat).
    { split.
      - apply Nat.div_le_lower_bound; lia.
      - apply Nat.Div0.div_lt_upper_bound; lia. }
    destruct (List.nth_error a ((lo + hi) / 2)) as [v|] eqn:Hv.
    2:{ apply List.nth_error_None in Hv. lia. }
    destruct (Z.ltb_spec x v) as [Hxv|Hvx].
    + apply IH; [lia|lia|lia|exact Hbelow|].
      intros j w Hj Hw.
      pose proof (Hsorted _ _ _ _ Hj Hv Hw). lia.
    + apply IH; [lia|lia|lia| |exact Habove].
      intros j w Hj Hw.
      assert (Hle : (j <= (lo + hi) / 2)%nat) by lia.
      pose proof (Hsorted _ _ _ _ Hle Hw Hv). lia.
Qed.

Lemma bisect_right_spec (a : list Z) (x : Z) :
  (forall i j u v,
      (i <= j)%nat -> List.nth_error a i = Some u ->
      List.nth_error a j = Some v -> u <= v) ->
  (forall j v, (j < bisect_right a x)%nat ->
               List.nth_error a j = Some v -> v <= x)
  /\ (forall j v, (bisect_right a x <= j)%nat ->
                  List.nth_error a j = Some v -> x < v)
  /\ (bisect_right a x <= List.length a)%nat.
Proof.
  intros Hsorted. unfold bisect_right.
  apply (bisect_right_loop_spec a x Hsorted); try lia.
  intros j v Hj Hv.
  assert (List.nth_error a j = None) by (apply List.nth_error_None; lia).
  congruence.
Qed.

Lemma offsets_from_sorted (counts : list Z) :
  List.Forall (fun c => 0 <= c) counts ->
  forall b,
    (forall j v, List.nth_error (offsets_from b counts) j = Some v -> b <= v)
    /\ (forall i j u v,
          (i <= j)%nat ->
          List.nth_error (offsets_from b counts) i = Some u ->
          List.nth_error (offsets_from b counts) j = Some v -> u <= v).
Proof.
  induction 1 as [|c rest Hc _ IH]; intros b; cbn [offsets_from].
  - split; [intros [|j] v|intros [|i] j u v _]; discriminate.
  - destruct (IH (b + c)) as [Hge Hmono]. split.
    + intros [|j] v; cbn [List.nth_error].
      * intros [= <-]. lia.
      * intros Hv. specialize (Hge j v Hv). lia.
    + intros [|i] [|j] u v Hij; cbn [List.nth_error].
      * intros [= <-] [= <-]. lia.
      * intros [= <-] Hv. specialize (Hge j v Hv). lia.
      * lia.
      * apply Hmono. lia.
Qed.

Lemma total_firstn_S (counts : list Z) (i : nat) (c : Z) :
  List.nth_error counts i = Some c ->
  total (List.firstn (S i) counts) = total (List.firstn i counts) + c.
Proof.
  revert i. induction counts as [|c0 rest IH]; intros i.
  - destruct i; discriminate.
  - destruct i as [|i]; cbn [List.nth_error].
    + intros [= ->]. rewrite List.firstn_O, List.firstn_cons, List.firstn_O.
      cbn [total]. lia.
    + intros Hc. specialize (IH i Hc).
      rewrite !List.firstn_cons. cbn [total]. lia.
Qed.

Section Segments.

Variable rs : list IndexReader.
Hypothesis counts_nonneg :
  List.Forall (fun r => 0 <= doc_count_all r) rs.

Lemma doc_offsets_sorted (i j : nat) (u v : Z) :
  (i <= j)%nat ->
  List.nth_error (doc_offsets (MultiReader_init rs)) i = Some u ->
  List.nth_error (doc_offsets (MultiReader_init rs)) j = Some v -> u <= v.
Proof.
  rewrite MultiReader_init_spec. cbn [doc_offsets].
  apply offsets_from_sorted, List.Forall_map. exact counts_nonneg.
Qed.

Lemma document_segment_of_offset (i : nat) (r : IndexReader) (l : Z) :
  List.nth_error rs i = Some r -> 0 <= l < doc_count_all r ->
  _document_segment (MultiReader_init rs)
    (total (List.map doc_count_all (List.firstn i rs)) + l) = i.
Proof.
  intros Hr Hl. unfold _document_segment.
  set (mr := MultiReader_init rs).
  set (d := total (List.map doc_count_all (List.firstn i rs)) + l).
  destruct (bisect_right_spec (doc_offsets mr) d doc_offsets_sorted)
    as (Hbelow & Habove & Hlen).
  destruct (init_doc_offsets rs) as [Hlength Hnth].
  fold mr in Hlength, Hnth.
  assert (Hi : (i < bisect_right (doc_offsets mr) d)%nat).
  { destruct (Nat.lt_ge_cases i (bisect_right (doc_offsets mr) d))
      as [Hlt|Hge]; [exact Hlt|].
    pose proof (Habove i _ Hge (Hnth i r Hr)). unfold d in *. lia. }
  assert (Hk : (bisect_right (doc_offsets mr) d <= S i)%nat).
  { destruct (Nat.le_gt_cases (bisect_right (doc_offsets mr) d) (S i))
      as [Hle|Hgt]; [exact Hle|].
    assert (HSi : (S i < List.length rs)%nat) by lia.
    destruct (List.nth_error rs (S i)) as [r'|] eqn:Hr';
      [|apply List.nth_error_None in Hr'; lia].
    pose proof (Hbelow (S i) _ Hgt (Hnth (S i) r' Hr')) as Hle.
    assert (Hsum : total (List.map doc_count_all (List.firstn (S i) rs))
                   = total (List.map doc_count_all (List.firstn i rs))
                     + doc_count_all r).
    { rewrite <- !List.firstn_map. apply total_firstn_S.
      rewrite List.nth_error_map, Hr. reflexivity. }
    unfold d in Hle. lia. }
  lia.
Qed.

(** X19: in a [MultiReader] built by [__init__] over readers whose
    document counts are not negative, the document number obtained by
    adding the doc offset of a segment to a document number [l] of that
    segment ([0 <= l < doc_count_all]) is mapped back by
    [_segment_and_docnum] to that segment and to [l], and a
    per-document method of the [MultiReader] returns for it what the
    method of that segment returns for [l]. *)
Theorem segment_and_docnum_round_trip (i : nat) (r : IndexReader) (l : Z) :
  List.nth_error rs i = Some r -> 0 <= l < doc_count_all r ->
  _segment_and_docnum (MultiReader_init rs)
    (total (List.map doc_count_all (List.firstn i rs)) + l) = Some (i, l)
  /\ forall (A : Type) (method : IndexReader -> Z -> A),
       per_document method (MultiReader_init rs)
         (total (List.map doc_count_all (List.firstn i rs)) + l)
       = Some (method r l).
Proof.
  intros Hr Hl.
  assert (Hseg : _segment_and_docnum (MultiReader_init rs)
                   (total (List.map doc_count_all (List.firstn i rs)) + l)
                 = Some (i, l)).
  { unfold _segment_and_docnum.
    rewrite (document_segment_of_offset i r l Hr Hl).
    destruct (init_doc_offsets rs) as [_ Hnth].
    rewrite (Hnth i r Hr). f_equal. f_equal. lia. }
  split; [exact Hseg|].
  intros A method. unfold per_document. rewrite Hseg.
  rewrite MultiReader_init_spec. cbn [readers]. rewrite Hr. reflexivity.
Qed.

(** Every document number below [base] is the offset of a segment plus a
    document number of that segment. *)
Lemma docnum_in_some_segment (docnum : Z) :
  0 <= docnum < base (MultiReader_init rs) ->
  exists i r l,
    List.nth_error rs i = Some r /\ 0 <= l < doc_count_all r
    /\ docnum = total (List.map doc_count_all (List.firstn i rs)) + l.
Proof.
  rewrite MultiReader_init_spec. cbn [base].
  clear counts_nonneg. revert docnum.
  induction rs as [|r0 rest IH] using List.rev_ind; intros docnum Hd.
  - cbn in Hd. lia.
  - rewrite List.map_app, total_app in Hd. cbn [List.map total] in Hd.
    destruct (Z.lt_ge_cases docnum (total (List.map doc_count_all rest)))
      as [Hlt|Hge].
    + destruct (IH docnum) as (i & r & l & Hr & Hl & Heq); [lia|].
      exists i, r, l. split; [|split; [exact Hl|]].
      * rewrite List.nth_error_app1; [exact Hr|].
        apply List.nth_error_Some. congruence.
      * rewrite List.firstn_app.
        replace (i - List.length rest)%nat with 0%nat.
        -- cbn [List.firstn]. rewrite List.app_nil_r. exact Heq.
        -- assert (i < List.length rest)%nat
             by (apply List.nth_error_Some; congruence). lia.
    + exists (List.length rest), r0,
        (docnum - total (List.map doc_count_all rest)).
      split; [|split; [lia|]].
      * rewrite List.nth_error_app2 by lia.
        rewrite Nat.sub_diag. reflexivity.
      * rewrite List.firstn_app, List.firstn_all, Nat.sub_diag.
        cbn [List.firstn]. rewrite List.app_nil_r. lia.
Qed.

(** X20: for every document number from [0] up to [base],
    [_segment_and_docnum] returns a segment of the [MultiReader] and a
    document number of that segment (not negative and below the
    segment's [doc_count_all]), which added to the doc offset of the
    segment gives the document number back. *)
Theorem segment_and_docnum_in_range (docnum : Z) :
  0 <= docnum < base (MultiReader_init rs) ->
  exists i r l,
    _segment_and_docnum (MultiReader_init rs) docnum = Some (i, l)
    /\ List.nth_error rs i = Some r
    /\ 0 <= l < doc_count_all r
    /\ List.nth_error (doc_offsets (MultiReader_init rs)) i
       = Some (docnum - l).
Proof.
  intros Hd.
  destruct (docnum_in_some_segment docnum Hd) as (i & r & l & Hr & Hl & ->).
  exists i, r, l.
  assert (Hseg : _segment_and_docnum (MultiReader_init rs)
                   (total (List.map doc_count_all (List.firstn i rs)) + l)
                 = Some (i, l)).
  { unfold _segment_and_docnum.
    rewrite (document_segment_of_offset i r l Hr Hl).
    destruct (init_doc_offsets rs) as [_ Hnth].
    rewrite (Hnth i r Hr). f_equal. f_equal. lia. }
  split; [exact Hseg|]. split; [exact Hr|]. split; [exact Hl|].
  destruct (init_doc_offsets rs) as [_ Hnth].
  rewrite (Hnth i r Hr). f_equal. lia.
Qed.

(** With one reader or more, a negative number goes to the first
    segment and a number from [base] on to the last one. *)
Lemma out_of_range_with_readers (docnum : Z) (r0 : IndexReader)
  (rest : list IndexReader) (last : IndexReader) :
  rs = r0 :: rest -> List.nth_error rs (List.length rs - 1) = Some last ->
  (docnum < 0 ->
   _segment_and_docnum (MultiReader_init rs) docnum = Some (0%nat, docnum))
  /\ (base (MultiReader_init rs) <= docnum ->
      exists l,
        _segment_and_docnum (MultiReader_init rs) docnum
        = Some ((List.length rs - 1)%nat, l)
        /\ doc_count_all last <= l).
Proof.
  intros Hrs Hlast.
  destruct (bisect_right_spec (doc_offsets (MultiReader_init rs)) docnum
              doc_offsets_sorted) as (Hbelow & Habove & Hlen).
  destruct (init_doc_offsets rs) as [Hlength Hnth].
  assert (Hpos : (0 < List.length rs)%nat) by (rewrite Hrs; cbn; lia).
  split.
  - intros Hneg.
    assert (H0 : List.nth_error (doc_offsets (MultiReader_init rs)) 0
                 = Some 0).
    { rewrite (Hnth 0%nat r0); [reflexivity|]. rewrite Hrs. reflexivity. }
    assert (Hk : bisect_right (doc_offsets (MultiReader_init rs)) docnum
                 = 0%nat).
    { destruct (bisect_right (doc_offsets (MultiReader_init rs)) docnum)
        as [|k] eqn:Hk; [reflexivity|].
      pose proof (Hbelow 0%nat 0 ltac:(lia) H0). lia. }
    unfold _segment_and_docnum, _document_segment. rewrite Hk.
    replace (Z.to_nat (Z.max 0 (Z.of_nat 0 - 1))) with 0%nat by reflexivity.
    rewrite H0. f_equal. f_equal. lia.
  - intros Hbase.
    assert (Hsum : base (MultiReader_init rs)
                   = total (List.map doc_count_all
                              (List.firstn (List.length rs - 1) rs))
                     + doc_count_all last).
    { rewrite MultiReader_init_spec. cbn [base].
      rewrite <- (List.firstn_all rs) at 1.
      replace (List.length rs) with (S (List.length rs - 1)) at 1 by lia.
      rewrite <- !List.firstn_map. apply total_firstn_S.
      rewrite List.nth_error_map, Hlast. reflexivity. }
    assert (Hoff : List.nth_error (doc_offsets (MultiReader_init rs))
                     (List.length rs - 1)
                   = Some (total (List.map doc_count_all
                                    (List.firstn (List.length rs - 1) rs))))
      by (apply (Hnth _ last Hlast)).
    assert (Hc : 0 <= doc_count_all last).
    { rewrite List.Forall_forall in counts_nonneg.
      apply counts_nonneg. eapply List.nth_error_In, Hlast. }
    assert (Hk : bisect_right (doc_offsets (MultiReader_init rs)) docnum
                 = List.length rs).
    { destruct (Nat.lt_ge_cases
                  (bisect_right (doc_offsets (MultiReader_init rs)) docnum)
                  (List.length rs)) as [Hlt|Hge]; [|lia].
      pose proof (Habove (List.length rs - 1)%nat _ ltac:(lia) Hoff). lia. }
    exists (docnum - total (List.map doc_count_all
                              (List.firstn (List.length rs - 1) rs))).
    split; [|lia].
    unfold _segment_and_docnum, _document_segment. rewrite Hk.
    replace (Z.to_nat (Z.max 0 (Z.of_nat (List.length rs) - 1)))
      with (List.length rs - 1)%nat by lia.
    rewrite Hoff. reflexivity.
Qed.

(** X21: a [MultiReader] of no reader refuses every document number:
    [_segment_and_docnum] fails on [self.doc_offsets[0]] with an
    [IndexError].  A [MultiReader] of one reader or more refuses no
    document number, also outside of [0 .. base - 1]: a negative one is
    mapped to the first segment, with itself as the segment's document
    number; one from [base] on is mapped to the last segment, with a
    document number that is not below the segment's
    [doc_count_all]. *)
Theorem segment_and_docnum_out_of_range (docnum : Z) :
  match rs with
  | [] => _segment_and_docnum (MultiReader_init rs) docnum = None
  | _ :: _ =>
      (docnum < 0 ->
       _segment_and_docnum (MultiReader_init rs) docnum
       = Some (0%nat, docnum))
      /\ (base (MultiReader_init rs) <= docnum ->
          exists l last,
            List.nth_error rs (List.length rs - 1) = Some last
            /\ _segment_and_docnum (MultiReader_init rs) docnum
               = Some ((List.length rs - 1)%nat, l)
            /\ doc_count_all last <= l)
  end.
Proof.
  pose proof (out_of_range_with_readers docnum) as Hreaders.
  destruct rs as [|r0 rest] eqn:Hrs; [reflexivity|].
  destruct (List.nth_error (r0 :: rest) (List.length (r0 :: rest) - 1))
    as [last|] eqn:Hlast.
  - destruct (Hreaders r0 rest last eq_refl eq_refl) as [Hneg Hbase].
    split; [exact Hneg|].
    intros Hd. destruct (Hbase Hd) as (l & Hl & Hcount).
    exists l, last. split; [reflexivity|]. split; assumption.
  - apply List.nth_error_None in Hlast. cbn [List.length] in Hlast. lia.
Qed.

End Segments.

Lemma three_segments_counts :
  List.Forall (fun r => 0 <= doc_count_all r)
    [segment_of 4; segment_of 0; segment_of 3].
Proof. repeat constructor; cbn; lia. Defined.

Lemma segment_and_docnum_round_trip_witness :
  _segment_and_docnum three_segments 5 = Some (2%nat, 1).
Proof.
  exact (proj1 (segment_and_docnum_round_trip
                  [segment_of 4; segment_of 0; segment_of 3]
                  three_segments_counts 2 (segment_of 3) 1 eq_refl
                  ltac:(cbn; lia))).
Defined.

Lemma segment_and_docnum_in_range_witness :
  exists i r l,
    _segment_and_docnum three_segments 4 = Some (i, l)
    /\ List.nth_error [segment_of 4; segment_of 0; segment_of 3] i = Some r
    /\ 0 <= l < doc_count_all r
    /\ List.nth_error (doc_offsets three_segments) i = Some (4 - l).
Proof.
  apply (segment_and_docnum_in_range
           [segment_of 4; segment_of 0; segment_of 3]
           three_segments_counts 4).
  cbn. lia.
Defined.

Lemma segment_and_docnum_out_of_range_witness :
  _segment_and_docnum three_segments (-2) = Some (0%nat, -2)
  /\ (exists l last,
        List.nth_error [segment_of 4; segment_of 0; segment_of 3] 2
        = Some last
        /\ _segment_and_docnum three_segments 9 = Some (2%nat, l)
        /\ doc_count_all last <= l)
  /\ _segment_and_docnum (MultiReader_init []) 0 = None.
Proof.
  pose proof (segment_and_docnum_out_of_range
                [segment_of 4; segment_of 0; segment_of 3]
                three_segments_counts (-2)) as [Hneg _].
  pose proof (segment_and_docnum_out_of_range
                [segment_of 4; segment_of 0; segment_of 3]
                three_segments_counts 9) as [_ Hbase].
  split; [apply Hneg; lia|].
  split; [apply Hbase; cbn; lia|].
  exact (segment_and_docnum_out_of_range [] (List.Forall_nil _) 0).
Defined.

(** ** A term that no segment contains *)

Lemma collect_term_infos_none (fieldname text : string)
  (pairs : list (IndexReader * Z)) :
  List.Forall (fun p => contains (fst p) (fieldname, text) = false) pairs ->
  collect_term_infos fieldname text pairs = Ok [].
Proof.
  induction 1 as [|[r offset] rest Hr _ IH]; cbn [collect_term_infos];
    [reflexivity|].
  cbn [fst] in Hr. rewrite Hr. exact IH.
Qed.

Lemma combine_Forall_fst {A B : Type} (P : A -> Prop) (l : list A)
  (l' : list B) :
  List.Forall P l -> List.Forall (fun p => P (fst p)) (List.combine l l').
Proof.
  intros Hall. revert l'. induction Hall as [|x rest Hx _ IH]; intros l'.
  - constructor.
  - destruct l' as [|y l']; cbn [List.combine]; constructor;
      [exact Hx|apply IH].
Qed.

Lemma term_info_without_segment (mr : MultiReader) (fieldname text : string) :
  MultiReader_contains mr (fieldname, text) = false ->
  MultiReader_term_info mr fieldname text = Raise TermNotFound.
Proof.
  unfold MultiReader_contains, MultiReader_term_info. intros Hc.
  rewrite collect_term_infos_none; [reflexivity|].
  apply (combine_Forall_fst
           (fun r => contains r (fieldname, text) = false)).
  apply List.Forall_forall. intros r Hr.
  destruct (contains r (fieldname, text)) eqn:Hcr; [|reflexivity].
  rewrite <- Hc. symmetry. apply List.existsb_exists. exists r. auto.
Qed.

(** X22: [MultiReader.term_info] answers only for the terms that the
    reader contains: for a term that [__contains__] denies it raises
    [TermNotFound] (without asking any segment), and whenever it
    returns statistics, [__contains__] is true for the term. *)
Theorem term_info_only_for_contained_terms (mr : MultiReader)
  (fieldname text : string) :
  (MultiReader_contains mr (fieldname, text) = false ->
   MultiReader_term_info mr fieldname text = Raise TermNotFound)
  /\ (forall ti, MultiReader_term_info mr fieldname text = Ok ti ->
                 MultiReader_contains mr (fieldname, text) = true).
Proof.
  split; [apply term_info_without_segment|].
  intros ti Hti.
  destruct (MultiReader_contains mr (fieldname, text)) eqn:Hc; [reflexivity|].
  rewrite (term_info_without_segment mr fieldname text Hc) in Hti.
  discriminate Hti.
Qed.

Lemma term_info_only_for_contained_terms_witness :
  MultiReader_term_info three_segments "f" "a" = Raise TermNotFound
  /\ MultiReader_contains two_segments ("f", "a") = true.
Proof.
  split.
  - apply (proj1 (term_info_only_for_contained_terms three_segments "f" "a")).
    reflexivity.
  - destruct (MultiReader_term_info two_segments "f" "a") as [ti|e] eqn:Hti;
      [|discriminate Hti].
    apply (proj2 (term_info_only_for_contained_terms two_segments "f" "a")
             ti Hti).
Defined.

(** ** Statistics of a posting list *)

Lemma add_postings_snoc (ti : TermInfo) (ps : list (Z * Z * option Z))
  (p : Z * Z * option Z) :
  add_postings ti (ps ++ [p])
  = add_posting (add_postings ti ps) (posting_docnum p) (posting_weight p)
      (posting_length p).
Proof.
  unfold add_postings. rewrite List.fold_left_app. cbn [List.fold_left].
  destruct p as [[docnum weight] length]. reflexivity.
Qed.

Lemma given_lengths_snoc (ps : list (Z * Z * option Z))
  (p : Z * Z * option Z) :
  given_lengths (ps ++ [p])
  = given_lengths ps ++ match posting_length p with
                        | Some len => [len]
                        | None => []
                        end.
Proof.
  induction ps as [|q rest IH]; cbn [app given_lengths].
  - destruct (posting_length p); reflexivity.
  - rewrite IH. destruct (posting_length q); reflexivity.
Qed.

Lemma is_greatest_snoc (m x : Z) (l : list Z) :
  is_greatest m l -> is_greatest (Z.max m x) (l ++ [x]).
Proof.
  intros [Hin Hle]. split.
  - apply List.in_or_app.
    destruct (Z.max_spec m x) as [[_ ->]|[_ ->]];
      [right; left; reflexivity|left; exact Hin].
  - intros y Hy. apply List.in_app_or in Hy as [Hy|[<-|[]]].
    + specialize (Hle y Hy). lia.
    + lia.
Qed.

Lemma is_least_snoc (m x : Z) (l : list Z) :
  is_least m l -> is_least (Z.min m x) (l ++ [x]).
Proof.
  intros [Hin Hle]. split.
  - apply List.in_or_app.
    destruct (Z.min_spec m x) as [[_ ->]|[_ ->]];
      [left; exact Hin|right; left; reflexivity].
  - intros y Hy. apply List.in_app_or in Hy as [Hy|[<-|[]]].
    + specialize (Hle y Hy). lia.
    + lia.
Qed.

(** X23: after any sequence of [add_posting] calls on a fresh
    [TermInfo], the doc frequency is the number of postings, the weight
    is the sum of their weights, the maximal weight and the maximal
    length are the greatest of [0] and the weights and of [0] and the
    lengths given, the minimal length is unset when no posting gave a
    length and the least of the lengths given otherwise, the minimal id
    is the document number of the first posting and the maximal id that
    of the last one.  So the minimal length, when set, is at most the
    maximal length. *)
Theorem add_postings_statistics (ps : list (Z * Z * option Z)) :
  _df (add_postings TermInfo_default ps) = Z.of_nat (List.length ps)
  /\ _weight (add_postings TermInfo_default ps)
     = total (List.map posting_weight ps)
  /\ is_greatest (_maxweight (add_postings TermInfo_default ps))
       (0 :: List.map posting_weight ps)
  /\ is_greatest (_maxlength (add_postings TermInfo_default ps))
       (0 :: given_lengths ps)
  /\ match _minlength (add_postings TermInfo_default ps) with
     | None => given_lengths ps = []
     | Some m => is_least m (given_lengths ps)
                 /\ m <= _maxlength (add_postings TermInfo_default ps)
     end
  /\ _minid (add_postings TermInfo_default ps)
     = option_map posting_docnum (List.head ps)
  /\ _maxid (add_postings TermInfo_default ps)
     = List.last (List.map posting_docnum ps) 0.
Proof.
  induction ps as [|p ps IH] using List.rev_ind.
  - cbn. repeat split; try (left; reflexivity);
      intros x [<-|[]]; lia.
  - destruct IH as (Hdf & Hw & Hmw & Hml & Hmin & Hminid & Hmaxid).
    rewrite add_postings_snoc.
    set (ti := add_postings TermInfo_default ps) in *.
    unfold add_posting.
    cbn [_df _weight _maxweight _maxlength _minlength _minid _maxid].
    rewrite List.length_app, !List.map_app, total_app, given_lengths_snoc.
    cbn [List.length List.map total].
    split; [lia|]. split; [lia|].
    split; [apply (is_greatest_snoc _ _ (0 :: List.map posting_weight ps)),
              Hmw|].
    assert (Hml' : is_greatest
              match posting_length p with
              | Some len => Z.max (_maxlength ti) len
              | None => _maxlength ti
              end
              (0 :: given_lengths ps
                    ++ match posting_length p with
                       | Some len => [len]
                       | None => []
                       end)).
    { destruct (posting_length p) as [len|].
      - apply (is_greatest_snoc _ _ (0 :: given_lengths ps)), Hml.
      - rewrite List.app_nil_r. exact Hml. }
    split; [exact Hml'|].
    split.
    { destruct (posting_length p) as [len|].
      - destruct (_minlength ti) as [m|].
        + destruct Hmin as [Hleast Hle].
          split; [apply is_least_snoc, Hleast|lia].
        + rewrite Hmin. cbn [app]. split; [|lia].
          split; [left; reflexivity|]. intros y [<-|[]]. lia.
      - rewrite List.app_nil_r. exact Hmin. }
    split.
    { rewrite Hminid. destruct ps as [|q rest]; reflexivity. }
    rewrite List.last_last. reflexivity.
Qed.

(** ** The terms of a field *)

Lemma string_compare_refl (s : string) : String.compare s s = Eq.
Proof.
  pose proof (String.compare_antisym s s) as H.
  destruct (String.compare s s); [reflexivity|discriminate|discriminate].
Qed.

Lemma ascii_compare_refl (a : ascii) : Ascii.compare a a = Eq.
Proof.
  pose proof (Ascii.compare_antisym a a) as H.
  destruct (Ascii.compare a a); [reflexivity|discriminate|discriminate].
Qed.

Lemma string_prefix_nil (s : string) : String.prefix "" s = true.
Proof. destruct s; reflexivity. Qed.

Lemma string_prefix_cons (a b : ascii) (p s : string) :
  String.prefix (String a p) (String b s)
  = if Ascii.eqb a b then String.prefix p s else false.
Proof.
  cbn [String.prefix]. destruct (ascii_dec a b) as [->|Hne].
  - rewrite Ascii.eqb_refl. reflexivity.
  - destruct (Ascii.eqb_spec a b); [congruence|reflexivity].
Qed.

Lemma string_ltb_cons (a b : ascii) (s t : string) :
  String.ltb (String a s) (String b t)
  = match Ascii.compare a b with
    | Eq => String.ltb s t
    | Lt => true
    | Gt => false
    end.
Proof.
  unfold String.ltb. cbn [String.compare].
  destruct (Ascii.compare a b); reflexivity.
Qed.

(** A text with the prefix [p] is not below [p]. *)
Lemma prefix_not_below (p w : string) :
  String.prefix p w = true -> String.ltb w p = false.
Proof.
  revert w. induction p as [|a p IH]; intros w.
  - intros _. destruct w; reflexivity.
  - destruct w as [|b w]; [discriminate|].
    rewrite string_prefix_cons, string_ltb_cons.
    destruct (Ascii.eqb_spec a b) as [->|_]; [|discriminate].
    rewrite ascii_compare_refl. apply IH.
Qed.

(** Between [p] and a text with the prefix [p] there are only texts with
    the prefix [p]. *)
Lemma prefix_between (p t w : string) :
  String.prefix p w = true ->
  String.ltb t p = false -> String.ltb w t = false ->
  String.prefix p t = true.
Proof.
  revert t w. induction p as [|a p IH]; intros t w.
  - intros _ _ _. apply string_prefix_nil.
  - destruct w as [|c w]; [discriminate|].
    rewrite string_prefix_cons.
    destruct (Ascii.eqb_spec a c) as [<-|_]; [|discriminate].
    intros Hpw. destruct t as [|b t]; [discriminate|].
    rewrite !string_ltb_cons, string_prefix_cons.
    destruct (Ascii.compare b a) eqn:Hba.
    + apply Ascii.compare_eq_iff in Hba. subst b.
      rewrite ascii_compare_refl, Ascii.eqb_refl. apply IH, Hpw.
    + discriminate.
    + rewrite (Ascii.compare_antisym a b), Hba. cbn [CompOpp].
      intros _ Hlt. discriminate Hlt.
Qed.

Lemma expand_prefix_loop_sound (fieldname prefix : string)
  (terms : list (string * string)) (w : string) :
  List.In w (expand_prefix_loop fieldname prefix terms) ->
  List.In (fieldname, w) terms /\ String.prefix prefix w = true.
Proof.
  induction terms as [|[fn text] rest IH]; cbn [expand_prefix_loop];
    [intros []|].
  destruct (String.eqb_spec fn fieldname) as [->|_]; cbn [negb orb];
    [|intros []].
  destruct (String.prefix prefix text) eqn:Hp; cbn [negb]; [|intros []].
  intros [<-|Hw].
  - split; [left; reflexivity|exact Hp].
  - destruct (IH Hw) as [Hin Hpre]. split; [right; exact Hin|exact Hpre].
Qed.

Lemma expand_prefix_loop_complete (fieldname prefix : string)
  (terms : list (string * string)) (w : string) :
  terms_in_order terms ->
  List.Forall (fun '(fn, text) =>
                 String.ltb fn fieldname = false
                 /\ String.ltb text prefix = false) terms ->
  List.In (fieldname, w) terms -> String.prefix prefix w = true ->
  List.In w (expand_prefix_loop fieldname prefix terms).
Proof.
  intros Hsorted Hall Hin Hw.
  induction terms as [|[fn text] rest IH]; [destruct Hin|].
  cbn [terms_in_order] in Hsorted. destruct Hsorted as [Hhead Hsorted].
  apply List.Forall_cons_iff in Hall as [[Hfn Htext] Hall].
  cbn [expand_prefix_loop]. destruct Hin as [[= -> ->]|Hin].
  - rewrite String.eqb_refl, Hw. left. reflexivity.
  - rewrite List.Forall_forall in Hhead. specialize (Hhead _ Hin).
    unfold term_leb in Hhead. cbn [fst snd] in Hhead. rewrite Hfn in Hhead.
    cbn [orb] in Hhead. apply andb_prop in Hhead as [Heq Hle].
    apply negb_true_iff in Hle. rewrite Heq.
    rewrite (prefix_between prefix text w Hw Htext Hle). cbn [negb orb].
    right. apply IH; assumption.
Qed.

Lemma terms_from_in_order (all_terms : list (string * string))
  (fieldname prefix : string) :
  terms_in_order all_terms ->
  terms_in_order (terms_from all_terms fieldname prefix).
Proof.
  unfold terms_from. induction all_terms as [|a rest IH];
    cbn [terms_in_order List.filter]; [auto|].
  intros [Hhead Hsorted].
  destruct (let '(fname, text) := a in
            negb (String.ltb fname fieldname || String.ltb text prefix)).
  - cbn [terms_in_order]. split; [|apply IH, Hsorted].
    apply List.Forall_forall. intros b Hb.
    apply List.filter_In in Hb as [Hb _].
    rewrite List.Forall_forall in Hhead. apply Hhead, Hb.
  - apply IH, Hsorted.
Qed.

(** X24: [IndexReader.expand_prefix] yields only texts that are terms
    of the field and start with the prefix; when [all_terms()] comes
    in the order of its tuples, it yields every such text; and
    [lexicon] yields what [expand_prefix] yields for the empty
    prefix. *)
Theorem expand_prefix_yields_the_prefixed_terms
  (all_terms : list (string * string)) (fieldname prefix : string) :
  (forall w, List.In w (expand_prefix all_terms fieldname prefix) ->
             List.In (fieldname, w) all_terms
             /\ String.prefix prefix w = true)
  /\ (terms_in_order all_terms ->
      forall w, List.In (fieldname, w) all_terms ->
                String.prefix prefix w = true ->
                List.In w (expand_prefix all_terms fieldname prefix))
  /\ lexicon all_terms fieldname = expand_prefix all_terms fieldname "".
Proof.
  split; [|split].
  - intros w Hw. unfold expand_prefix in Hw.
    apply expand_prefix_loop_sound in Hw as [Hin Hp].
    split; [|exact Hp]. unfold terms_from in Hin.
    apply List.filter_In in Hin as [Hin _]. exact Hin.
  - intros Hsorted w Hin Hp. unfold expand_prefix.
    apply expand_prefix_loop_complete.
    + apply terms_from_in_order, Hsorted.
    + apply List.Forall_forall. intros [fn text] Hx.
      unfold terms_from in Hx. apply List.filter_In in Hx as [_ Hx].
      apply negb_true_iff, orb_false_elim in Hx. exact Hx.
    + unfold terms_from. apply List.filter_In. split; [exact Hin|].
      unfold String.ltb at 1. rewrite string_compare_refl.
      rewrite (prefix_not_below prefix w Hp). reflexivity.
    + exact Hp.
  - unfold lexicon, expand_prefix.
    induction (terms_from all_terms fieldname "") as [|[fn text] rest IH];
      cbn [lexicon_loop expand_prefix_loop]; [reflexivity|].
    rewrite string_prefix_nil, IH. cbn [negb]. rewrite orb_false_r.
    reflexivity.
Qed.

Lemma expand_prefix_yields_the_prefixed_terms_witness :
  List.In "ac" (expand_prefix three_terms "f" "a").
Proof.
  apply (proj1 (proj2 (expand_prefix_yields_the_prefixed_terms
                         three_terms "f" "a"))).
  - cbn. repeat split; repeat constructor.
  - right. left. reflexivity.
  - reflexivity.
Defined.

End MultiReaderProperties.

(** ** Normal forms that normalization leaves alone *)











(** ** Matchers and document lists *)

Lemma Query_docs_catches `{Matching} (m : result Matcher) :
  raises TermNotFound (Query_docs m) = false.
Proof.
  unfold Query_docs, try_except.
  destruct m as [m'|e]; cbn [bind raises]; [reflexivity|].
  destruct (decide (e = TermNotFound)) as [->|Hne]; cbn [raises];
    [reflexivity|].
  apply bool_decide_eq_false_2. exact Hne.
Qed.

(** X26: [docs] never raises [TermNotFound], for any query: the classes
    that inherit [Query.docs] catch it, [Require.docs] goes through the
    [docs] of an [And], [AndMaybe.docs] through the [docs] of its
    required query, and [NullQuery.docs] returns the empty list. *)
Theorem docs_never_raises_TermNotFound `{Support} `{Matching}
  (searcher : Searcher) (q : Query) (exclude_docs : option BitVector) :
  raises TermNotFound (docs searcher q exclude_docs) = false.
Proof.
  revert exclude_docs.
  induction q using Query_tree_ind; intros exclude_docs;
    try (rewrite docs_inherited by reflexivity; apply Query_docs_catches).
  - reflexivity.
  - unfold docs. cbn [methods run_docs]. apply Query_docs_catches.
  - unfold docs in *. cbn [methods run_docs]. apply IHq1.
Qed.

Lemma mapM_raises {A B : Type} (f : A -> result B) (l : list A) (c : A)
  (err : exn) :
  List.In c l -> f c = Raise err -> exists e', mapM f l = Raise e'.
Proof.
  induction l as [|x rest IH]; [intros []|].
  intros [->|Hc] Hf; cbn [mapM].
  - rewrite Hf. cbn [bind]. eauto.
  - destruct (f x); cbn [bind]; [|eauto].
    destruct (IH Hc Hf) as [e' ->]. cbn [bind]. eauto.
Qed.

Lemma lacks_estimate_raises `{Support} (ixreader : IndexReader) (c : Query) :
  lacks_estimate c = true ->
  exists err, estimate_size ixreader c = Raise err.
Proof. destruct c; try discriminate; intros _; eexists; reflexivity. Qed.

Lemma lacks_estimate_in_subs (qs : list Query) (c : Query) :
  List.In c qs -> lacks_estimate c = true -> List.In c (split_subs qs).
Proof.
  intros Hc Hl. unfold split_subs. apply List.filter_In. split; [exact Hc|].
  destruct c; try discriminate; reflexivity.
Qed.

(** X27: an [And], [Or] or [DisjunctionMax] that has a [Require], an
    [AndMaybe], an [AndNot] or a [DisjunctionMax] among its children
    has no matcher: [matcher] raises, because [_submatchers] sorts the
    children by [estimate_size], which the first three classes do not
    implement ([NotImplementedError]) and which raises [TypeError] for
    a [DisjunctionMax]. *)
Theorem compound_matcher_needs_estimates `{Support} `{Matching}
  (searcher : Searcher) (cls : CompoundClass) (qs : list Query) (c : Query)
  (b : float) (m : Z) (t : float) (e : option BitVector) :
  List.In c qs -> lacks_estimate c = true ->
  exists e', matcher searcher (compound_query cls qs b m t) e = Raise e'.
Proof.
  intros Hc Hl.
  destruct (lacks_estimate_raises (reader searcher) c Hl) as [err Herr].
  destruct (mapM_raises (estimate_size (reader searcher)) (split_subs qs) c
              err (lacks_estimate_in_subs qs c Hc Hl) Herr) as [e' He'].
  unfold matcher.
  destruct cls; cbn [compound_query methods run_matcher];
    match goal with
    | |- context [bind ?x _] => destruct x as [nvector|e0]
    end; cbn [bind]; eauto; rewrite He'; cbn [bind]; eauto.
Qed.

Lemma compound_matcher_needs_estimates_witness :
  exists e',
    @matcher no_support plain_matching empty_searcher a_and_b_andnot_c None
    = Raise e'.
Proof.
  apply (@compound_matcher_needs_estimates no_support plain_matching
           empty_searcher ClsAnd
           [term_a; AndNot term_b term_c default_boost]
           (AndNot term_b term_c default_boost) default_boost 0
           default_tiebreak None).
  - right. left. reflexivity.
  - reflexivity.
Defined.


(** ** Where [TermNotFound] is caught, and where it is not *)

(** [CompoundQuery._matcher], with its loops as functions of their
    own. *)
Lemma matcher_compound `{Support} `{Matching} (searcher : Searcher)
  (cls : CompoundClass) (qs : list Query) (b : float) (m : Z) (t : float)
  (e : option BitVector) :
  matcher searcher (compound_query cls qs b m t) e =
  let* nvector :=
    not_vector_loop searcher qs (not_vector_start searcher e) in
  let* keys := mapM (estimate_size (reader searcher)) (split_subs qs) in
  CompoundQuery_matcher_finish cls keys
    (List.map (fun s => matcher searcher s (Some nvector)) (split_subs qs)) b.
Proof.
  assert (Hnv : forall l v,
    (fix not_vector (subqueries : list Query) (nvector : BitVector)
       : result BitVector :=
       match subqueries with
       | [] => Ok nvector
       | s :: rest =>
           match s with
           | Not nquery _ =>
               let* ids := run_docs (methods searcher nquery) None in
               not_vector rest (set_from nvector ids)
           | _ => not_vector rest nvector
           end
       end) l v = not_vector_loop searcher l v).
  { induction l as [|s rest IH]; intros v; [reflexivity|].
    cbn [not_vector_loop]. destruct s; try apply IH.
    unfold docs. destruct (run_docs (methods searcher s) None);
      cbn [bind]; [apply IH|reflexivity]. }
  assert (Hb : forall l v,
    (fix build (subqueries : list Query) (exclude_docs : option BitVector)
       : list (result Matcher) :=
       match subqueries with
       | [] => []
       | s :: rest =>
           match s with
           | Not _ _ => build rest exclude_docs
           | _ => run_matcher (methods searcher s) exclude_docs
                    :: build rest exclude_docs
           end
       end) l v
    = List.map (fun s => matcher searcher s v) (split_subs l)).
  { induction l as [|s rest IH]; intros v; [reflexivity|].
    unfold split_subs in *.
    destruct s; cbn [List.filter as_Not List.map]; rewrite IH;
      reflexivity. }
  unfold matcher at 1.
  destruct cls; cbn [compound_query methods run_matcher]; rewrite Hnv;
    destruct (not_vector_loop searcher qs (not_vector_start searcher e));
    cbn [bind]; try reflexivity; rewrite Hb; reflexivity.
Qed.

Lemma insert_by_key_In {A : Type} (x y : Z * A) (l : list (Z * A)) :
  List.In y (insert_by_key x l) <-> y = x \/ List.In y l.
Proof.
  induction l as [|z rest IH]; cbn [insert_by_key].
  - cbn. intuition congruence.
  - destruct (fst x <=? fst z); cbn [List.In].
    + intuition congruence.
    + rewrite IH. intuition congruence.
Qed.

Lemma sort_by_key_In {A : Type} (y : Z * A) (l : list (Z * A)) :
  List.In y (sort_by_key l) <-> List.In y l.
Proof.
  unfold sort_by_key. induction l as [|x rest IH]; cbn [List.fold_right].
  - reflexivity.
  - rewrite insert_by_key_In, IH. cbn. intuition congruence.
Qed.

Lemma In_combine_r {A B : Type} (l : list A) (l' : list B) (y : B) :
  List.length l = List.length l' -> List.In y l' ->
  exists x, List.In (x, y) (List.combine l l').
Proof.
  revert l'. induction l as [|a rest IH]; intros [|b rest'] Hlen Hy;
    try discriminate; [destruct Hy|].
  destruct Hy as [->|Hy].
  - exists a. left. reflexivity.
  - destruct (IH rest' ltac:(cbn in Hlen; lia) Hy) as [x Hx].
    exists x. right. exact Hx.
Qed.

(** Building the matchers one after the other: when one of them raises
    [TermNotFound] and none raises anything else, the first to raise
    raises [TermNotFound]. *)
Lemma mapM_snd_TermNotFound {K A : Type} (l : list (K * result A)) :
  List.Exists (fun p => snd p = Raise TermNotFound) l ->
  List.Forall (fun p => raises_at_most_TermNotFound (snd p)) l ->
  mapM snd l = Raise TermNotFound.
Proof.
  induction l as [|[k r] rest IH]; intros Hex Hall.
  - inversion Hex.
  - cbn [mapM snd]. apply List.Forall_cons_iff in Hall as [Hr Hall].
    destruct r as [a|err]; cbn [bind].
    + apply List.Exists_cons in Hex as [Hk|Hex]; [discriminate Hk|].
      rewrite (IH Hex Hall). reflexivity.
    + cbn [snd] in Hr. rewrite (Hr err eq_refl). reflexivity.
Qed.

Lemma compound_matcher_propagates `{Support} `{Matching}
  (searcher : Searcher) (cls : CompoundClass) (qs : list Query) (b : float)
  (m : Z) (t : float) (e : option BitVector) (nvector : BitVector)
  (keys : list Z) (s : Query) :
  not_vector_loop searcher qs (not_vector_start searcher e) = Ok nvector ->
  mapM (estimate_size (reader searcher)) (split_subs qs) = Ok keys ->
  List.Forall
    (fun c => raises_at_most_TermNotFound (matcher searcher c (Some nvector)))
    (split_subs qs) ->
  List.In s (split_subs qs) ->
  propagates (matcher searcher s (Some nvector))
    (matcher searcher (compound_query cls qs b m t) e).
Proof.
  intros Hnv Hkeys Hall Hs Hraise.
  rewrite matcher_compound, Hnv. cbn [bind]. rewrite Hkeys. cbn [bind].
  unfold CompoundQuery_matcher_finish.
  set (built := List.map (fun c => matcher searcher c (Some nvector))
                  (split_subs qs)).
  rewrite (mapM_snd_TermNotFound (sort_by_key (List.combine keys built)));
    [reflexivity| |].
  - apply List.Exists_exists.
    destruct (In_combine_r keys built (Raise TermNotFound)) as [k Hk].
    + unfold built. rewrite List.length_map.
      apply (mapM_length _ _ _ Hkeys).
    + unfold built. rewrite <- Hraise.
      apply (List.in_map (fun c => matcher searcher c (Some nvector))).
      exact Hs.
    + exists (k, Raise TermNotFound). split; [|reflexivity].
      apply (proj2 (sort_by_key_In _ _)). exact Hk.
  - apply List.Forall_forall. intros [k r] Hin.
    apply (proj1 (sort_by_key_In _ _)) in Hin.
    apply List.in_combine_r in Hin.
    unfold built in Hin. apply List.in_map_iff in Hin as (c & <- & Hc).
    rewrite List.Forall_forall in Hall. apply Hall, Hc.
Qed.

(** The loop of [MultiTerm.matcher] when the field is unknown: every
    word is skipped. *)
Lemma MultiTerm_matchers_unknown_field (searcher : Searcher) (f : string)
  (ws : list string) (e : option BitVector) (matchers : list Matcher) :
  fieldname_to_num (reader searcher) f = Raise TermNotFound ->
  MultiTerm_matchers searcher f ws e matchers = Ok matchers.
Proof.
  intros Hf. revert matchers.
  induction ws as [|w rest IH]; intros matchers; cbn [MultiTerm_matchers];
    [reflexivity|].
  unfold Term_matcher. rewrite Hf. cbn [bind]. apply IH.
Qed.

Lemma Term_matcher_known_field (searcher : Searcher) (f w : string)
  (e : option BitVector) (n : Z) :
  fieldname_to_num (reader searcher) f = Ok n ->
  Term_matcher searcher f w e <> Raise TermNotFound.
Proof.
  intros Hf. unfold Term_matcher, try_except. rewrite Hf. cbn [bind].
  destruct (postings searcher n w e) as [p|err]; [discriminate|].
  destruct (decide (err = TermNotFound)); [discriminate|congruence].
Qed.

(** The loop of [MultiTerm.matcher] when the field is known: no word
    is skipped. *)
Lemma MultiTerm_matchers_known_field (searcher : Searcher) (f : string)
  (ws : list string) (e : option BitVector) (matchers : list Matcher)
  (n : Z) :
  fieldname_to_num (reader searcher) f = Ok n ->
  MultiTerm_matchers searcher f ws e matchers
  = (let* new := mapM (fun w => Term_matcher searcher f w e) ws in
     Ok (matchers ++ new)).
Proof.
  intros Hf. revert matchers.
  induction ws as [|w rest IH]; intros matchers;
    cbn [MultiTerm_matchers mapM bind].
  - rewrite List.app_nil_r. reflexivity.
  - pose proof (Term_matcher_known_field searcher f w e n Hf) as Hw.
    destruct (Term_matcher searcher f w e) as [q|err]; cbn [bind].
    + rewrite IH.
      destruct (mapM (fun w0 => Term_matcher searcher f w0 e) rest);
        cbn [bind]; [|reflexivity].
      rewrite <- List.app_assoc. reflexivity.
    + destruct err; try reflexivity. congruence.
Qed.

Lemma simplify_binary `{Support} (ixreader : IndexReader) (x y : Query)
  (b : float) :
  simplify ixreader (Require x y b)
  = (let* simplified := mapM (simplify ixreader) (split_subs [x; y]) in
     CompoundQuery_simplify_finish SimplifyBinary simplified
       (split_nots [x; y]) b)
  /\ simplify ixreader (AndMaybe x y b)
     = (let* simplified := mapM (simplify ixreader) (split_subs [x; y]) in
        CompoundQuery_simplify_finish SimplifyBinary simplified
          (split_nots [x; y]) b).
Proof.
  unfold split_subs. cbn [simplify List.filter split_nots].
  destruct (as_Not x), (as_Not y); cbn [mapM bind]; split;
    repeat match goal with
           | |- context [simplify ixreader ?q] =>
               destruct (simplify ixreader q); cbn [bind]
           end; reflexivity.
Qed.

Lemma existing_terms_into_binary `{Support} (ixreader : IndexReader)
  (x y : Query) (b : float) (ts : gset TermsetItem) (reverse phrases : bool) :
  existing_terms_into ixreader (Require x y b) ts reverse phrases
  = existing_terms_each ixreader [x; y] ts reverse phrases
  /\ existing_terms_into ixreader (AndMaybe x y b) ts reverse phrases
     = existing_terms_each ixreader [x; y] ts reverse phrases.
Proof.
  cbn [existing_terms_into existing_terms_each].
  destruct (existing_terms_into ixreader x ts reverse phrases) as [ts'|];
    cbn [bind]; [|split; reflexivity].
  destruct (existing_terms_into ixreader y ts' reverse phrases);
    split; reflexivity.
Qed.

(** C4, as the code has it.  [TermNotFound] is caught in three places:
    [Term.matcher] returns [NullMatcher] when [postings] raises it;
    [Query.docs] returns the empty list when the construction of the
    matcher raises it; and the loop of [MultiTerm.matcher] skips a word
    whose [Term] matcher raises it.  As [Term.matcher] has caught the
    [TermNotFound] of [postings], the loop meets one only when the
    field lookup raises it, and then for every word: all words are
    skipped; when the lookup returns, no word is skipped, and a word
    that is missing from the index gives a [NullMatcher] among the
    others.  Every other operation lets a [TermNotFound] of the calls
    it makes propagate: the field lookups and the word expansion in
    [matcher], [estimate_size], [_words], [simplify] and
    [existing_terms], the postings of [Phrase.matcher], the [Or] over
    the matchers of the words, and the matchers, estimates,
    simplifications and existing terms of the sub-queries of [And],
    [Or], [DisjunctionMax], [Not], [Require], [AndMaybe] and
    [AndNot]. *)
Theorem TermNotFound_handlers `{Support} `{Matching} (searcher : Searcher) :
  (* the three handlers *)
  (forall f t b e n,
      fieldname_to_num (reader searcher) f = Ok n ->
      postings searcher n t e = Raise TermNotFound ->
      matcher searcher (Term f t b) e = Ok NullMatcher)
  /\ (forall q e,
        inherits_Query_docs q = true ->
        matcher searcher q e = Raise TermNotFound ->
        docs searcher q e = Ok [])
  /\ (forall f ws e matchers,
        fieldname_to_num (reader searcher) f = Raise TermNotFound ->
        (forall w, Term_matcher searcher f w e = Raise TermNotFound)
        /\ MultiTerm_matchers searcher f ws e matchers = Ok matchers)
  /\ (forall f ws e matchers n,
        fieldname_to_num (reader searcher) f = Ok n ->
        (forall w, Term_matcher searcher f w e <> Raise TermNotFound)
        /\ MultiTerm_matchers searcher f ws e matchers
           = (let* new := mapM (fun w => Term_matcher searcher f w e) ws in
              Ok (matchers ++ new)))
  (* [matcher] *)
  /\ (forall f t b e,
        propagates (fieldname_to_num (reader searcher) f)
          (matcher searcher (Term f t b) e))
  /\ (forall q e,
        inherits_MultiTerm_matcher q = true ->
        propagates (words (reader searcher) q) (matcher searcher q e))
  /\ (forall q f b e ws m ms,
        words (reader searcher) q = Ok ws ->
        MultiTerm_matchers searcher f ws e [] = Ok (m :: ms) ->
        propagates (Or_of_matchers (m :: ms) b)
          (MultiTerm_matcher searcher q f b e))
  /\ (forall f ws slop b e,
        propagates (fieldname_to_num (reader searcher) f)
          (matcher searcher (Phrase f ws slop b) e))
  /\ (forall f ws slop b e n,
        fieldname_to_num (reader searcher) f = Ok n ->
        List.forallb (reader_contains (reader searcher) (ByNum n)) ws = true ->
        propagates (mapM (fun word => postings searcher n word e) ws)
          (matcher searcher (Phrase f ws slop b) e))
  /\ (forall q b e,
        propagates (matcher searcher q None) (matcher searcher (Not q b) e))
  /\ (forall x y b e,
        propagates (matcher searcher x e) (matcher searcher (Require x y b) e)
        /\ propagates (matcher searcher x e)
             (matcher searcher (AndMaybe x y b) e))
  /\ (forall x y b e a,
        matcher searcher x e = Ok a ->
        propagates (matcher searcher y e) (matcher searcher (Require x y b) e)
        /\ propagates (matcher searcher y e)
             (matcher searcher (AndMaybe x y b) e))
  /\ (forall positive negative b e ids,
        docs searcher negative None = Ok ids ->
        propagates
          (matcher searcher positive
             (Some (set_from (not_vector_start searcher e) ids)))
          (matcher searcher (AndNot positive negative b) e))
  /\ (forall cls qs b m t e nvector,
        not_vector_loop searcher qs (not_vector_start searcher e)
        = Ok nvector ->
        propagates (mapM (estimate_size (reader searcher)) (split_subs qs))
          (matcher searcher (compound_query cls qs b m t) e))
  /\ (forall cls qs b m t e nvector keys s,
        not_vector_loop searcher qs (not_vector_start searcher e)
        = Ok nvector ->
        mapM (estimate_size (reader searcher)) (split_subs qs) = Ok keys ->
        List.Forall
          (fun c => raises_at_most_TermNotFound
                      (matcher searcher c (Some nvector)))
          (split_subs qs) ->
        List.In s (split_subs qs) ->
        propagates (matcher searcher s (Some nvector))
          (matcher searcher (compound_query cls qs b m t) e))
  (* [_words] and [estimate_size] *)
  /\ (forall f s e se ee b,
        propagates (fieldname_to_num (reader searcher) f)
          (words (reader searcher) (TermRange f s e se ee b)))
  /\ (forall f t b,
        propagates (fieldname_to_num (reader searcher) f)
          (estimate_size (reader searcher) (Term f t b)))
  /\ (forall q f,
        inherits_MultiTerm_matcher q = true -> fieldname_of q = Some f ->
        propagates (fieldname_to_num (reader searcher) f)
          (estimate_size (reader searcher) q)
        /\ forall n,
             fieldname_to_num (reader searcher) f = Ok n ->
             propagates (words (reader searcher) q)
               (estimate_size (reader searcher) q))
  /\ (forall f ws slop b,
        propagates (mapM (Term_estimate_size (reader searcher) f) ws)
          (estimate_size (reader searcher) (Phrase f ws slop b)))
  /\ (forall qs b m,
        propagates (mapM (estimate_size (reader searcher)) qs)
          (estimate_size (reader searcher) (And qs b))
        /\ propagates (mapM (estimate_size (reader searcher)) qs)
             (estimate_size (reader searcher) (Or qs b m)))
  (* [simplify] *)
  /\ (forall q,
        inherits_MultiTerm_simplify q = true ->
        propagates (words (reader searcher) q)
          (simplify (reader searcher) q))
  /\ (forall cls qs b m t,
        propagates (mapM (simplify (reader searcher)) (split_subs qs))
          (simplify (reader searcher) (compound_query cls qs b m t)))
  /\ (forall x y b,
        propagates (mapM (simplify (reader searcher)) (split_subs [x; y]))
          (simplify (reader searcher) (Require x y b))
        /\ propagates (mapM (simplify (reader searcher)) (split_subs [x; y]))
             (simplify (reader searcher) (AndMaybe x y b)))
  (* [existing_terms] *)
  /\ (forall f t b ts reverse phrases,
        propagates (fieldname_to_num (reader searcher) f)
          (existing_terms_into (reader searcher) (Term f t b) ts reverse
             phrases))
  /\ (forall f ws slop b ts reverse,
        propagates (fieldname_to_num (reader searcher) f)
          (existing_terms_into (reader searcher) (Phrase f ws slop b) ts
             reverse true))
  /\ (forall q ts reverse phrases,
        inherits_MultiTerm_matcher q = true ->
        propagates (words (reader searcher) q)
          (existing_terms_into (reader searcher) q ts reverse phrases))
  /\ (forall cls qs b m t ts reverse phrases,
        propagates
          (existing_terms_each (reader searcher) qs ts reverse phrases)
          (existing_terms_into (reader searcher) (compound_query cls qs b m t)
             ts reverse phrases))
  /\ (forall x y b ts reverse phrases,
        propagates
          (existing_terms_each (reader searcher) [x; y] ts reverse phrases)
          (existing_terms_into (reader searcher) (Require x y b) ts reverse
             phrases)
        /\ propagates
             (existing_terms_each (reader searcher) [x; y] ts reverse phrases)
             (existing_terms_into (reader searcher) (AndMaybe x y b) ts
                reverse phrases))
  /\ (forall x y b ts reverse phrases,
        propagates
          (existing_terms_into (reader searcher) x ts reverse phrases)
          (existing_terms_into (reader searcher) (Not x b) ts reverse phrases)
        /\ propagates
             (existing_terms_into (reader searcher) x ts reverse phrases)
             (existing_terms_into (reader searcher) (AndNot x y b) ts reverse
                phrases)).
Proof.
  unfold propagates.
  (* the three handlers *)
  split.
  { intros f t b e n Hn Hp. unfold matcher. cbn [methods run_matcher].
    unfold Term_matcher. rewrite Hn. cbn [bind]. rewrite Hp. reflexivity. }
  split.
  { intros q e Hq Hm. rewrite docs_inherited by assumption.
    rewrite Hm. reflexivity. }
  split.
  { intros f ws e matchers Hf. split.
    - intros w. unfold Term_matcher. rewrite Hf. reflexivity.
    - apply MultiTerm_matchers_unknown_field, Hf. }
  split.
  { intros f ws e matchers n Hf. split.
    - intros w. apply (Term_matcher_known_field searcher f w e n Hf).
    - apply (MultiTerm_matchers_known_field searcher f ws e matchers n Hf). }
  (* matcher *)
  split.
  { intros f t b e Hf. unfold matcher. cbn [methods run_matcher].
    unfold Term_matcher. rewrite Hf. reflexivity. }
  split.
  { intros q e Hq Hw.
    destruct q; try discriminate Hq; unfold matcher;
      cbn [methods run_matcher]; unfold MultiTerm_matcher;
      rewrite Hw; reflexivity. }
  split.
  { intros q f b e ws m ms Hw Hms Hor. unfold MultiTerm_matcher.
    rewrite Hw. cbn [bind]. rewrite Hms. cbn [bind]. exact Hor. }
  split.
  { intros f ws slop b e Hf. unfold matcher. cbn [methods run_matcher].
    rewrite Hf. reflexivity. }
  split.
  { intros f ws slop b e n Hn Hc Hp. unfold matcher.
    cbn [methods run_matcher]. rewrite Hn. cbn [bind].
    rewrite Hc. cbn [negb]. rewrite Hp. reflexivity. }
  split.
  { intros q b e Hq. unfold matcher in *. cbn [methods run_matcher].
    rewrite Hq. reflexivity. }
  split.
  { intros x y b e. unfold matcher. cbn [methods run_matcher].
    split; intros ->; reflexivity. }
  split.
  { intros x y b e a Hx. unfold matcher in *. cbn [methods run_matcher].
    rewrite Hx. cbn [bind]. split; intros ->; reflexivity. }
  split.
  { intros positive negative b e ids Hids Hpos. unfold matcher, docs in *.
    cbn [methods run_matcher]. rewrite Hids. cbn [bind]. exact Hpos. }
  split.
  { intros cls qs b m t e nvector Hnv Hkeys.
    rewrite matcher_compound, Hnv. cbn [bind]. rewrite Hkeys. reflexivity. }
  split.
  { intros cls qs b m t e nvector keys s Hnv Hkeys Hall Hs.
    apply (compound_matcher_propagates searcher cls qs b m t e nvector keys s
             Hnv Hkeys Hall Hs). }
  (* words and estimate_size *)
  split.
  { intros f s e se ee b Hf. cbn [words]. rewrite Hf. reflexivity. }
  split.
  { intros f t b Hf. cbn [estimate_size]. unfold Term_estimate_size.
    rewrite Hf. reflexivity. }
  split.
  { intros q f Hq Hfield.
    destruct q; try discriminate Hq; injection Hfield as ->;
      (split; [intros Hf; cbn [estimate_size]; rewrite Hf; reflexivity|]);
      intros n Hn Hw; cbn [estimate_size]; rewrite Hn; cbn [bind];
      rewrite Hw; reflexivity. }
  split.
  { intros f ws slop b Hws. cbn [estimate_size]. rewrite Hws. reflexivity. }
  split.
  { intros qs b m. split; intros Hqs.
    - rewrite (proj1 (estimate_size_compound (reader searcher) qs)), Hqs.
      reflexivity.
    - rewrite (proj1 (proj2 (estimate_size_compound (reader searcher) qs))),
        Hqs. reflexivity. }
  (* simplify *)
  split.
  { intros q Hq Hw.
    destruct q; try discriminate Hq; cbn [simplify];
      unfold MultiTerm_simplify; rewrite Hw; reflexivity. }
  split.
  { intros cls qs b m t Hqs. rewrite simplify_compound, Hqs. reflexivity. }
  split.
  { intros x y b.
    destruct (simplify_binary (reader searcher) x y b) as [-> ->].
    split; intros ->; reflexivity. }
  (* existing_terms *)
  split.
  { intros f t b ts reverse phrases Hf. cbn [existing_terms_into].
    rewrite Hf. reflexivity. }
  split.
  { intros f ws slop b ts reverse Hf. cbn [existing_terms_into].
    rewrite Hf. reflexivity. }
  split.
  { intros q ts reverse phrases Hq Hw.
    destruct q; try discriminate Hq; cbn [existing_terms_into];
      rewrite Hw; reflexivity. }
  split.
  { intros cls qs b m t ts reverse phrases Hqs.
    destruct (existing_terms_into_compound (reader searcher) qs ts reverse
                phrases) as (HAnd & HOr & HDis).
    destruct cls; cbn [compound_query];
      rewrite ?HAnd, ?HOr, ?HDis; exact Hqs. }
  split.
  { intros x y b ts reverse phrases.
    destruct (existing_terms_into_binary (reader searcher) x y b ts reverse
                phrases) as [-> ->].
    split; intros Hxy; exact Hxy. }
  intros x y b ts reverse phrases. cbn [existing_terms_into].
  split; intros Hx; exact Hx.
Qed.

Lemma TermNotFound_handlers_witness :
  @matcher no_support plain_matching empty_searcher term_a None
    = Ok NullMatcher
  /\ @docs no_support plain_matching unknown_field_searcher term_a None
     = Ok []
  /\ MultiTerm_matchers unknown_field_searcher "f" ["a"; "b"] None [] = Ok []
  /\ @matcher no_support plain_matching unknown_field_searcher term_a None
     = Raise TermNotFound
  /\ @matcher no_support plain_matching unknown_field_searcher
       (Require NullQuery term_a default_boost) None
     = Raise TermNotFound.
Proof.
  pose proof (@TermNotFound_handlers no_support plain_matching empty_searcher)
    as (HTerm & _).
  pose proof (@TermNotFound_handlers no_support plain_matching
                unknown_field_searcher)
    as (_ & Hdocs & Hskip & _ & Hlookup & _ & _ & _ & _ & _ & _ & Hsecond
        & _).
  split; [exact (HTerm "f" "a" default_boost None 0 eq_refl eq_refl)|].
  assert (Hraise : @matcher no_support plain_matching unknown_field_searcher
                     term_a None = Raise TermNotFound)
    by exact (Hlookup "f" "a" default_boost None eq_refl).
  split; [exact (Hdocs term_a None eq_refl Hraise)|].
  split; [exact (proj2 (Hskip "f" ["a"; "b"] None [] eq_refl))|].
  split; [exact Hraise|].
  exact (proj1 (Hsecond NullQuery term_a default_boost None NullMatcher
                  eq_refl) Hraise).
Defined.

(** C4, as stated, fails: with a searcher whose [postings] raises
    [TermNotFound], [Term.matcher] does not let it propagate, it
    returns [NullMatcher]; and the loop of [MultiTerm.matcher] does not
    skip the words that are missing from the index, it has a
    [NullMatcher] for each. *)
Lemma Term_matcher_catches_TermNotFound :
  postings empty_searcher 0 "a" None = Raise TermNotFound
  /\ @matcher no_support plain_matching empty_searcher term_a None
     = Ok NullMatcher
  /\ MultiTerm_matchers empty_searcher "f" ["a"; "b"] None []
     = Ok [NullMatcher; NullMatcher].
Proof. repeat split. Qed.
